(** * Entity interpreter and query evaluator of the customer tracking chatbot

    A shallow embedding of [chatbot/bot/actions/utils.py],
    [chatbot/bot/actions/customer_tracking_system.py] and the actions of
    [chatbot/bot/actions/actions.py] that call them, with the properties
    of the repository's specification stated and proved over it.

    Modelling choices, all taken from the source:
    - Python values that the code stores in the field-of-interest dict are
      dynamically typed, so they are kept as a small universe [pyval];
      a float is the rational it denotes, an infinity or nan, and the
      comparisons are Python's, false whenever a nan takes part;
    - [current_group] is an insertion-ordered [dict]: an association list
      with Python's update-in-place / append-at-end discipline, because
      [update] inspects the most recently inserted item;
    - [dispatcher.utter_message] appends to a message log;
    - [w2n.word_to_num], [int] and [float] are library functions outside
      the repository: they are parameters. On a string [int] and [float]
      give a number or raise [ValueError]; [w2n.word_to_num] can also
      raise another exception ([IndexError] on some texts), which no
      handler of the repository catches, so every function that calls it
      has the outcome that this exception goes through it. The text that
      [str] prints for a float is a parameter too;
    - the slots of the dialogue tracker are a [dict] of JSON values, a
      list kept apart from the other values because the actions test for
      it; the events that an action returns are data;
    - [str.lower] is modelled on ASCII letters. *)

From Stdlib Require Import ZArith QArith Bool List String Ascii Lia.
From Stdlib Require Import DecimalString Permutation.
Import ListNotations.

Set Warnings "-register-all".

Open Scope string_scope.
Open Scope list_scope.
Open Scope bool_scope.

(** ** Python strings *)

Module PyStr.

(** [sub in s] *)
Fixpoint contains (sub s : string) : bool :=
  String.prefix sub s ||
  match s with
  | EmptyString => false
  | String _ s' => contains sub s'
  end.

(** [s.endswith(suf)] *)
Fixpoint endswith (suf s : string) : bool :=
  String.eqb suf s ||
  match s with
  | EmptyString => false
  | String _ s' => endswith suf s'
  end.

(** [s.split(sep)[0]] for a non-empty separator: the text before the
    first occurrence of [sep], or all of [s] when there is none. *)
Fixpoint split_head (sep s : string) : string :=
  if String.prefix sep s then EmptyString
  else match s with
       | EmptyString => EmptyString
       | String c s' => String c (split_head sep s')
       end.

Definition lower_ascii (c : ascii) : ascii :=
  let n := N_of_ascii c in
  if (65 <=? n)%N && (n <=? 90)%N then ascii_of_N (n + 32) else c.

(** [s.lower()] *)
Fixpoint lower (s : string) : string :=
  match s with
  | EmptyString => EmptyString
  | String c s' => String (lower_ascii c) (lower s')
  end.

(** [x in [a, b, ...]] for strings *)
Definition elem (x : string) (l : list string) : bool :=
  existsb (String.eqb x) l.

End PyStr.

(** ** Python values *)

Module Py.

(** A [float]: finite, [inf] or [-inf], or [nan]. *)
Inductive float : Type :=
| Finite (q : Q)
| Infinity (positive : bool)
| NaN.

Inductive number : Type :=
| NInt (z : Z)
| NFloat (x : float).

(** What a call of a library parser does: it returns a value, raises
    [ValueError], or raises another exception. *)
Inductive parse (A : Type) : Type :=
| Parsed (a : A)
| ValueError
| OtherError.

Arguments Parsed {A} a.
Arguments ValueError {A}.
Arguments OtherError {A}.

(** What a call of a function of the repository does: it returns, or an
    exception of the word parser goes through it. *)
Inductive outcome (A : Type) : Type :=
| Returns (a : A)
| Raises.

Arguments Returns {A} a.
Arguments Raises {A}.

Inductive pyval : Type :=
| PNone
| PBool (b : bool)
| PNum (n : number)
| PStr (s : string)
| PTuple (items : list pyval).

Definition is_none (v : pyval) : bool :=
  match v with PNone => true | _ => false end.

(** The value that a comparison sees: an [int] is compared with a
    [float] by its exact value. *)
Definition float_of_number (n : number) : float :=
  match n with
  | NInt z => Finite (inject_Z z)
  | NFloat x => x
  end.

(** [x <= y], [x < y] and [x == y] on floats: false whenever one of the
    two is [nan]. *)
Definition float_le (x y : float) : bool :=
  match x, y with
  | NaN, _ | _, NaN => false
  | Finite p, Finite q => Qle_bool p q
  | Infinity false, _ => true
  | _, Infinity true => true
  | _, _ => false
  end.

Definition float_lt (x y : float) : bool :=
  match x, y with
  | NaN, _ | _, NaN => false
  | _, _ => negb (float_le y x)
  end.

Definition float_eq (x y : float) : bool :=
  float_le x y && float_le y x.

Definition num_le (a b : number) : bool :=
  float_le (float_of_number a) (float_of_number b).

Definition num_lt (a b : number) : bool :=
  float_lt (float_of_number a) (float_of_number b).

Definition num_eq (a b : number) : bool :=
  float_eq (float_of_number a) (float_of_number b).

Definition is_nan (n : number) : bool :=
  match n with
  | NFloat NaN => true
  | _ => false
  end.

(** [bool] is a subclass of [int]: [True == 1]. *)
Definition as_number (v : pyval) : option number :=
  match v with
  | PBool b => Some (NInt (Z.b2z b))
  | PNum n => Some n
  | _ => None
  end.

(** [a == b]; it never raises. *)
Fixpoint eqb (a b : pyval) : bool :=
  match a, b with
  | PNone, PNone => true
  | PStr x, PStr y => String.eqb x y
  | PTuple xs, PTuple ys =>
      (fix all2 (xs ys : list pyval) : bool :=
         match xs, ys with
         | [], [] => true
         | x :: xs', y :: ys' => eqb x y && all2 xs' ys'
         | _, _ => false
         end) xs ys
  | (PBool _ | PNum _), (PBool _ | PNum _) =>
      match as_number a, as_number b with
      | Some x, Some y => num_eq x y
      | _, _ => false
      end
  | _, _ => false
  end.

(** Truth value of [v] in a condition. *)
Definition truthy (v : pyval) : bool :=
  match v with
  | PNone => false
  | PBool b => b
  | PNum n => negb (num_eq n (NInt 0))
  | PStr s => negb (String.eqb s "")
  | PTuple l => match l with [] => false | _ => true end
  end.

(** [v[i]] for [i >= 0]; [None] is a raised [TypeError] or [IndexError]. *)
Definition getitem (v : pyval) (i : nat) : option pyval :=
  match v with
  | PTuple l => nth_error l i
  | PStr s => match String.get i s with
              | Some c => Some (PStr (String c EmptyString))
              | None => None
              end
  | _ => None
  end.

(** [count >= v] and [count < v] for an [int] on the left; [None] is the
    [TypeError] of comparing a number with a non-number. *)
Definition int_ge (count : Z) (v : pyval) : option bool :=
  match as_number v with
  | Some bound => Some (num_le bound (NInt count))
  | None => None
  end.

Definition int_lt (count : Z) (v : pyval) : option bool :=
  match as_number v with
  | Some bound => Some (num_lt (NInt count) bound)
  | None => None
  end.

(** *** Insertion-ordered dictionaries with string keys *)

Section Dict.
Context {V : Type}.

Definition dict := list (string * V).

(** [k in d] *)
Definition has_key (k : string) (d : dict) : bool :=
  existsb (fun kv => String.eqb (fst kv) k) d.

(** [d[k]], [None] when the key is missing *)
Fixpoint lookup (k : string) (d : dict) : option V :=
  match d with
  | [] => None
  | (k', v) :: d' => if String.eqb k' k then Some v else lookup k d'
  end.

(** [d[k] = v]: an existing key keeps its position, a new key goes last *)
Fixpoint assign (k : string) (v : V) (d : dict) : dict :=
  match d with
  | [] => [(k, v)]
  | (k', v') :: d' =>
      if String.eqb k' k then (k', v) :: d' else (k', v') :: assign k v d'
  end.

(** [del d[k]] *)
Definition remove (k : string) (d : dict) : dict :=
  filter (fun kv => negb (String.eqb (fst kv) k)) d.

(** [next(reversed(d.items()))] *)
Definition last_item (d : dict) : option (string * V) :=
  match rev d with
  | [] => None
  | kv :: _ => Some kv
  end.

(** truth value of [d] *)
Definition nonempty (d : dict) : bool :=
  match d with [] => false | _ => true end.
End Dict.

Arguments dict V : clear implicits.

(** The object behind [dispatcher]: the messages uttered so far. *)
Definition dispatcher := list string.

Definition utter_message (text : string) (d : dispatcher) : dispatcher :=
  d ++ [text].

(** *** Identity tests, number comparison and formatting *)

(** [v is True] and [v is False] *)
Definition is_true (v : pyval) : bool :=
  match v with PBool true => true | _ => false end.

Definition is_false (v : pyval) : bool :=
  match v with PBool false => true | _ => false end.

(** [x >= v] and [x < v] for a number on the left; [None] is the
    [TypeError] of comparing a number with a non-number. *)
Definition number_ge (x : number) (v : pyval) : option bool :=
  match as_number v with
  | Some bound => Some (num_le bound x)
  | None => None
  end.

Definition number_lt (x : number) (v : pyval) : option bool :=
  match as_number v with
  | Some bound => Some (num_lt x bound)
  | None => None
  end.

(** [str(z)] for an [int]: its decimal digits, with a minus sign. *)
Definition str_int (z : Z) : string :=
  NilZero.string_of_int (Z.to_int z).

(** [sep.join(items)] *)
Definition join (sep : string) (items : list string) : string :=
  String.concat sep items.

Section Format.

(** [str] of a float, which its value does not determine here. *)
Variable float_str : float -> string.

Definition str_number (n : number) : string :=
  match n with
  | NInt z => str_int z
  | NFloat x => float_str x
  end.

(** [str(v)] and [f"{v}"]; the text of a tuple is outside the model
    ([None]). *)
Definition format (v : pyval) : option string :=
  match v with
  | PNone => Some "None"
  | PBool true => Some "True"
  | PBool false => Some "False"
  | PNum n => Some (str_number n)
  | PStr s => Some s
  | PTuple _ => None
  end.

End Format.

End Py.

(** ** [utils.py]: the number and quantity normaliser *)

Module Utils.

Import Py.

Definition frequency_message (adverb : string) : string :=
  "My apologies! Please, provide a right frequency adverb in the format (once, twice, 'number' times). You provided me the following frequency adverb: "
  ++ adverb ++ ".".

Definition number_message (word : string) : string :=
  "My apologies! Please, provide a right number. You provided me: "
  ++ word ++ ".".

Section Normaliser.

(** [w2n.word_to_num] applied to a string: a number, [ValueError], or
    another exception, which the [except ValueError] clauses let
    through. *)
Variable word_to_num : string -> parse number.

(** [int] and [float] applied to a string: [None] stands for the
    [ValueError] that they raise, the only exception they have for a
    string; [float] also reads the infinities and nan. *)
Variable py_int : string -> option Z.
Variable py_float : string -> option float.

(** [Utils.adverb_to_number(adverb, dispatcher)]: what the call does (a
    returned [None] is Python's [None]) and the dispatcher afterwards. *)
Definition adverb_to_number (adverb : string) (d : dispatcher)
  : outcome (option number) * dispatcher :=
  if String.eqb adverb "once" || String.eqb adverb "one time" then
    (Returns (Some (NInt 1)), d)
  else if String.eqb adverb "twice" then
    (Returns (Some (NInt 2)), d)
  else if PyStr.endswith " times" adverb then
    match word_to_num (PyStr.split_head " times" adverb) with
    | Parsed n => (Returns (Some n), d)
    | ValueError =>
        (Returns None, utter_message (frequency_message adverb) d)
    | OtherError => (Raises, d)
    end
  else
    (Returns None, utter_message (frequency_message adverb) d).

(** [Utils.word_to_number(word, dispatcher)] *)
Definition word_to_number (word : string) (d : dispatcher)
  : outcome (option number) * dispatcher :=
  match py_int word with
  | Some z => (Returns (Some (NInt z)), d)
  | None =>
      match py_float word with
      | Some x => (Returns (Some (NFloat x)), d)
      | None =>
          match word_to_num word with
          | Parsed n => (Returns (Some n), d)
          | ValueError =>
              (Returns None, utter_message (number_message word) d)
          | OtherError => (Raises, d)
          end
      end
  end.

End Normaliser.

End Utils.

(** ** Control flow of the two [update] methods

    An [update] body either goes on with a new loop state, executes
    [return False], is left by the exception of the word parser, with
    the object as it is then ([Raise]), or hits a dynamically ill-typed
    operation ([Wrong]; the loops never do, see [people_update_ok] and
    [group_update_ok]). *)

Module Flow.

Inductive ctl (S A : Type) : Type :=
| Go (a : A)
| ReturnFalse (s : S)
| Raise (s : S)
| Wrong.

Arguments Go {S A} a.
Arguments ReturnFalse {S A} s.
Arguments Raise {S A} s.
Arguments Wrong {S A}.

Definition bind {S A B} (m : ctl S A) (k : A -> ctl S B) : ctl S B :=
  match m with
  | Go a => k a
  | ReturnFalse s => ReturnFalse s
  | Raise s => Raise s
  | Wrong => Wrong
  end.

Fixpoint for_each {S A E} (body : E -> A -> ctl S A) (es : list E) (a : A)
  : ctl S A :=
  match es with
  | [] => Go a
  | e :: es' => bind (body e a) (for_each body es')
  end.

End Flow.

Notation "x <- m ;; k" := (Flow.bind m (fun x => k))
  (at level 61, m at next level, right associativity).

(** An entity of the NLU: [{'entity': ..., 'value': ...}] *)
Record entity : Type := Entity {
  entity_key : string;
  entity_value : string
}.

(** A value of [current_group]: the plain entity value, or the pair
    [(entity_value, neg)] stored for a grouped entity. *)
Inductive group_value : Type :=
| Plain (value : string)
| Paired (value : string) (neg : bool).

Definition group := Py.dict group_value.

(** ** [TrackingPeople] *)

Module TrackingPeople.

Import Py Flow.

(** The four configured line identifiers, [self.line_1 .. self.line_4]. *)
Record lines : Type := Lines {
  line_1 : string;
  line_2 : string;
  line_3 : string;
  line_4 : string
}.

(** [self.foi]: a dict with seven fixed keys, in this order. *)
Record fields : Type := Foi {
  gender : pyval;
  bag : pyval;
  hat : pyval;
  line1_passages : pyval;
  line2_passages : pyval;
  line3_passages : pyval;
  line4_passages : pyval
}.

(** [self.foi] as set by [__init__]. *)
Definition initial_foi : fields :=
  Foi PNone PNone PNone PNone PNone PNone PNone.

Definition set_gender (v : pyval) (f : fields) : fields :=
  Foi v (bag f) (hat f) (line1_passages f) (line2_passages f)
      (line3_passages f) (line4_passages f).
Definition set_bag (v : pyval) (f : fields) : fields :=
  Foi (gender f) v (hat f) (line1_passages f) (line2_passages f)
      (line3_passages f) (line4_passages f).
Definition set_hat (v : pyval) (f : fields) : fields :=
  Foi (gender f) (bag f) v (line1_passages f) (line2_passages f)
      (line3_passages f) (line4_passages f).
Definition set_line1 (v : pyval) (f : fields) : fields :=
  Foi (gender f) (bag f) (hat f) v (line2_passages f)
      (line3_passages f) (line4_passages f).
Definition set_line2 (v : pyval) (f : fields) : fields :=
  Foi (gender f) (bag f) (hat f) (line1_passages f) v
      (line3_passages f) (line4_passages f).
Definition set_line3 (v : pyval) (f : fields) : fields :=
  Foi (gender f) (bag f) (hat f) (line1_passages f) (line2_passages f)
      v (line4_passages f).
Definition set_line4 (v : pyval) (f : fields) : fields :=
  Foi (gender f) (bag f) (hat f) (line1_passages f) (line2_passages f)
      (line3_passages f) v.

(** The parts of the object that [update] reads and writes. *)
Record tracker : Type := Self {
  foi : fields;
  said : dispatcher
}.

Definition with_foi (f : fields) (s : tracker) : tracker := Self f (said s).
Definition utter (text : string) (s : tracker) : tracker :=
  Self (foi s) (utter_message text (said s)).

Definition unknown_line_message (conf : lines) (line : string) : string :=
  "My apologies! I don't know if there is " ++ line
  ++ " in the shopping mall. I can only check the people passing through "
  ++ line_1 conf ++ ", " ++ line_2 conf ++ ", " ++ line_3 conf
  ++ ", and " ++ line_4 conf ++ ".".

Definition missing_line_message (conf : lines) : string :=
  "My apologies! Please point me somewhere to check. Remember, I can only check the people passing through "
  ++ line_1 conf ++ ", " ++ line_2 conf ++ ", " ++ line_3 conf
  ++ ", and " ++ line_4 conf ++ ".".

(** State of the [for] loop of [update]. *)
Record loop_state : Type := Loop {
  current_group : group;
  line_flag : bool;
  self : tracker
}.

Section Interpreter.

Variable conf : lines.
Variable word_to_num : string -> parse number.

(** The pair stored under [key], as [(current_group[key][0],
    current_group[key][1]) if key in current_group else default].
    The outer [None] is the ill-typed case of a plain string there. *)
Definition paired_entry (key : string) (g : group)
  : option (option (string * bool)) :=
  match lookup key g with
  | Some (Paired value neg) => Some (Some (value, neg))
  | Some (Plain _) => None
  | None => Some None
  end.

(** [self.__update_line(current_group, update=True)]: the returned
    boolean, or the exception of the parser that goes through the call,
    and the object afterwards. *)
Definition update_line (g : group) (s : tracker)
  : option (outcome bool * tracker) :=
  match paired_entry "passages" g, paired_entry "line" g with
  | Some p, Some l =>
      let '(passages, neg_passages, d) :=
        match p with
        | Some (adverb, neg) =>
            let (n, d) := Utils.adverb_to_number word_to_num adverb (said s) in
            (n, neg, d)
        | None => (Returns (Some (NInt 1)), true, said s)
        end in
      let s := Self (foi s) d in
      match passages with
      | Raises => Some (Raises, s)
      | Returns None => Some (Returns false, s)
      | Returns (Some n) =>
          match l with
          | Some (line, neg_line) =>
              let v := PTuple [PNum n; PBool (neg_passages && neg_line)] in
              if String.eqb (PyStr.lower line) (line_1 conf) then
                Some (Returns true, with_foi (set_line1 v (foi s)) s)
              else if String.eqb (PyStr.lower line) (line_2 conf) then
                Some (Returns true, with_foi (set_line2 v (foi s)) s)
              else if String.eqb (PyStr.lower line) (line_3 conf) then
                Some (Returns true, with_foi (set_line3 v (foi s)) s)
              else if String.eqb (PyStr.lower line) (line_4 conf) then
                Some (Returns true, with_foi (set_line4 v (foi s)) s)
              else
                Some (Returns false,
                      utter (unknown_line_message conf line) s)
          | None =>
              Some (Returns false, utter (missing_line_message conf) s)
          end
      end
  | _, _ => None
  end.

(** [self.__update_clothing(current_group, entity_value)] *)
Definition update_clothing (g : group) (value : string) (s : tracker)
  : tracker :=
  let neg := negb (has_key "negation" g) in
  if String.eqb value "hat" then with_foi (set_hat (PBool neg) (foi s)) s
  else if String.eqb value "bag" then with_foi (set_bag (PBool neg) (foi s)) s
  else s.

(** [self.__update_gender(current_group, entity_value)] *)
Definition update_gender (g : group) (value : string) (s : tracker)
  : tracker :=
  let neg := negb (has_key "negation" g) in
  let stored :=
    if neg then value
    else if String.eqb value "male" && negb neg then "female"
    else "male" in
  with_foi (set_gender (PStr stored) (foi s)) s.

(** [if self.__update_line(current_group, update=True) is False:
    return False] *)
Definition flush (g : group) (s : tracker) : ctl tracker tracker :=
  match update_line g s with
  | Some (Returns true, s') => Go s'
  | Some (Returns false, s') => ReturnFalse s'
  | Some (Raises, s') => Raise s'
  | None => Wrong
  end.

(** One iteration of the [for] loop of [update], on [entity]. *)
Definition body (e : entity) (st : loop_state) : ctl tracker loop_state :=
  let entity_key := entity_key e in
  let entity_value := entity_value e in
  st <-
    (if PyStr.elem entity_key ["passages"; "line"] then
       st <-
         (if line_flag st && has_key entity_key (current_group st) then
            s <- flush (current_group st) (self st) ;;
            match last_item (current_group st) with
            | Some (key, value) =>
                Go (Loop (if String.eqb key "negation"
                          then assign key value [] else [])
                         (line_flag st) s)
            | None => Wrong
            end
          else Go st) ;;
       let neg := negb (has_key "negation" (current_group st)) in
       let g := if negb neg then remove "negation" (current_group st)
                else current_group st in
       Go (Loop (assign entity_key (Paired entity_value neg) g) true (self st))
     else
       st <-
         (if line_flag st && String.eqb entity_key "negation" then Go st
          else
            st <-
              (if line_flag st && negb (String.eqb entity_key "negation") then
                 s <- flush (current_group st) (self st) ;;
                 Go (Loop [] (line_flag st) s)
               else Go st) ;;
            Go (Loop (current_group st) false (self st))) ;;
       Go (Loop (assign entity_key (Plain entity_value) (current_group st))
                (line_flag st) (self st))) ;;
  st <-
    (if forallb (fun key => has_key key (current_group st))
                ["passages"; "line"] then
       s <- flush (current_group st) (self st) ;;
       Go (Loop [] false s)
     else Go st) ;;
  if negb (line_flag st) then
    if PyStr.contains "clothing" entity_key then
      Go (Loop [] (line_flag st)
               (update_clothing (current_group st) entity_value (self st)))
    else if PyStr.contains "gender" entity_key then
      Go (Loop [] (line_flag st)
               (update_gender (current_group st) entity_value (self st)))
    else Go st
  else Go st.

(** The [for] loop of [update] from its initial locals. *)
Definition loop (entities : list entity) (s : tracker)
  : ctl tracker loop_state :=
  for_each body entities (Loop [] false s).

(** What follows the loop: the last flush and [return True]. *)
Definition finish (st : loop_state) : option (outcome bool * tracker) :=
  if nonempty (current_group st) then
    update_line (current_group st) (self st)
  else Some (Returns true, self st).

(** What [update] does once the loop is over or was left by
    [return False] or by the exception of the parser. *)
Definition conclude (r : ctl tracker loop_state)
  : option (outcome bool * tracker) :=
  match r with
  | Go st => finish st
  | ReturnFalse s' => Some (Returns false, s')
  | Raise s' => Some (Raises, s')
  | Wrong => None
  end.

(** [TrackingPeople.update()] on [self.entities = entities]: the returned
    boolean, or the exception of the parser that goes through the call,
    and the object afterwards; [None] if an operation is ill-typed. *)
Definition update (entities : list entity) (s : tracker)
  : option (outcome bool * tracker) :=
  conclude (loop entities s).

End Interpreter.

(** The identifiers that [actions.py] passes to the constructor. *)
Definition mall_lines : lines :=
  Lines "alpha line" "beta line" "gamma line" "delta line".

(** *** The query evaluator *)

(** Modelled from the spec: the person records of the dataset file, which
    is not among the sources (spec, data model: gender, has-bag, has-hat
    and the trajectory, the ordered line identifiers crossed). *)
Record person : Type := Person {
  person_gender : string;
  person_bag : bool;
  person_hat : bool;
  trajectory : list Z
}.

(** A person dict after the counting loop added the four
    [line<i>_passages] keys. *)
Record counted : Type := Counted {
  who : person;
  passages1 : Z;
  passages2 : Z;
  passages3 : Z;
  passages4 : Z
}.

(** [person["trajectory"].count(line)] *)
Definition count (line : Z) (p : person) : Z :=
  Z.of_nat (List.length (filter (Z.eqb line) (trajectory p))).

Definition count_passages (p : person) : counted :=
  Counted p (count 1 p) (count 2 p) (count 3 p) (count 4 p).

(** [person[key]] on the attribute keys; [None] is a [KeyError]. *)
Definition person_item (p : person) (key : string) : option pyval :=
  if String.eqb key "gender" then Some (PStr (person_gender p))
  else if String.eqb key "bag" then Some (PBool (person_bag p))
  else if String.eqb key "hat" then Some (PBool (person_hat p))
  else None.

(** [person[key]] on the derived keys. *)
Definition counted_item (c : counted) (key : string) : option Z :=
  if String.eqb key "line1_passages" then Some (passages1 c)
  else if String.eqb key "line2_passages" then Some (passages2 c)
  else if String.eqb key "line3_passages" then Some (passages3 c)
  else if String.eqb key "line4_passages" then Some (passages4 c)
  else None.

(** [list(self.foi.items())] *)
Definition items (f : fields) : list (string * pyval) :=
  [ ("gender", gender f); ("bag", bag f); ("hat", hat f);
    ("line1_passages", line1_passages f); ("line2_passages", line2_passages f);
    ("line3_passages", line3_passages f); ("line4_passages", line4_passages f) ].

(** [l[i:j]] *)
Definition slice {A} (i j : nat) (l : list A) : list A :=
  firstn (j - i) (skipn i l).

(** [{key: value for key, value in kvs if value is not None}] *)
Definition not_none (kvs : list (string * pyval)) : list (string * pyval) :=
  filter (fun kv => negb (is_none (snd kv))) kvs.

(** [all(test(x) for x in xs)], stopping at the first [False];
    [None] when a [test] raises before that. *)
Fixpoint all_of {A} (test : A -> option bool) (xs : list A) : option bool :=
  match xs with
  | [] => Some true
  | x :: xs' =>
      match test x with
      | Some true => all_of test xs'
      | Some false => Some false
      | None => None
      end
  end.

(** [[x for x in xs if test(x)]] *)
Fixpoint keep_if {A} (test : A -> option bool) (xs : list A)
  : option (list A) :=
  match xs with
  | [] => Some []
  | x :: xs' =>
      match test x with
      | Some b =>
          match keep_if test xs' with
          | Some r => Some (if b then x :: r else r)
          | None => None
          end
      | None => None
      end
  end.

Definition equals_field (p : person) (kv : string * pyval) : option bool :=
  match person_item p (fst kv) with
  | Some x => Some (Py.eqb x (snd kv))
  | None => None
  end.

(** [person[key] >= value[0] if value[1] else person[key] < value[0]] *)
Definition within_threshold (c : counted) (kv : string * pyval)
  : option bool :=
  match getitem (snd kv) 1 with
  | Some direction =>
      match counted_item c (fst kv), getitem (snd kv) 0 with
      | Some n, Some bound =>
          if truthy direction then int_ge n bound else int_lt n bound
      | _, _ => None
      end
  | None => None
  end.

(** [TrackingPeople.filteringJSON()] on [data["people"] = people]: the
    returned list ([self.nop] is its length); [None] when an operation
    raises. *)
Definition filteringJSON (people : list person) (f : fields)
  : option (list counted) :=
  let foi_gender_hat_bag := not_none (slice 0 3 (items f)) in
  match
    (if nonempty foi_gender_hat_bag then
       keep_if (fun p => all_of (equals_field p) foi_gender_hat_bag) people
     else Some people)
  with
  | Some doi =>
      let doi := map count_passages doi in
      let foi_line := not_none (slice 3 7 (items f)) in
      if nonempty foi_line then
        keep_if (fun c => all_of (within_threshold c) foi_line) doi
      else Some doi
  | None => None
  end.

(** *** The narrator *)

Section Narrator.

Variable conf : lines.
Variable float_str : float -> string.

(** ["once" if bound == 1 else "twice" if bound == 2 else
    f'{bound} times'] *)
Definition passages_string (bound : pyval) : option string :=
  if Py.eqb bound (PNum (NInt 1)) then Some "once"
  else if Py.eqb bound (PNum (NInt 2)) then Some "twice"
  else match format float_str bound with
       | Some text => Some (text ++ " times")%string
       | None => None
       end.

(** ["bag" if value is True else "no bag" if value is False else None] *)
Definition clothing_item (name : string) (value : pyval) : option string :=
  if is_true value then Some name
  else if is_false value then Some ("no " ++ name)%string
  else None.

(** What the block of one line field appends to [output_string]:
    nothing when the field is falsy; [None] when the block raises. *)
Definition line_items (value : pyval) (line : string)
  : option (list (option string)) :=
  if truthy value then
    match getitem value 0 with
    | Some bound =>
        match passages_string bound, getitem value 1 with
        | Some passages, Some direction =>
            if is_true direction then
              Some [Some ("have crossed at least " ++ passages
                          ++ " the " ++ line)%string]
            else if is_false direction then
              Some [Some ("have not crossed at least " ++ passages
                          ++ " the " ++ line)%string]
            else None
        | _, _ => None
        end
    | None => None
    end
  else Some [].

(** [[item for item in output_string if item is not None]] *)
Definition present (output_string : list (option string)) : list string :=
  flat_map (fun item => match item with Some t => [t] | None => [] end)
    output_string.

(** [TrackingPeople.__str__()], with [self.nop = nop]; [None] when it
    raises. *)
Definition str (f : fields) (nop : Z) : option string :=
  match
    match gender f with
    | PNone => Some "people"
    | PStr g => Some ("people of " ++ g ++ " gender")%string
    | _ => None
    end,
    line_items (line1_passages f) (line_1 conf),
    line_items (line2_passages f) (line_2 conf),
    line_items (line3_passages f) (line_3 conf),
    line_items (line4_passages f) (line_4 conf)
  with
  | Some people_string, Some l1, Some l2, Some l3, Some l4 =>
      let output_string :=
        [clothing_item "bag" (bag f); clothing_item "hat" (hat f)]
        ++ l1 ++ l2 ++ l3 ++ l4 in
      let attributes := present output_string in
      let attribute_str := join ", " attributes in
      Some (match attributes with
            | _ :: _ =>
                "There are currently " ++ str_int nop ++ " " ++ people_string
                ++ " in the mall that meet the required specifications: "
                ++ attribute_str ++ "."
            | [] =>
                "There are currently " ++ str_int nop ++ " " ++ people_string
                ++ " in the mall."
            end)%string
  | _, _, _, _, _ => None
  end.

End Narrator.

End TrackingPeople.

(** ** [TrackingGroups] *)

Module TrackingGroups.

Import Py Flow.

(** [self.foi]: the single key [score]. *)
Record fields : Type := Foi {
  score : pyval
}.

Definition initial_foi : fields := Foi PNone.

Record tracker : Type := Self {
  foi : fields;
  said : dispatcher
}.

(** State of the [for] loop of [update]. *)
Record loop_state : Type := Loop {
  current_group : group;
  score_flag : bool;
  self : tracker
}.

Section Interpreter.

Variable word_to_num : string -> parse number.
Variable py_int : string -> option Z.
Variable py_float : string -> option float.

(** [self.__update_score(current_group, update=True)] *)
Definition update_score (g : group) (s : tracker)
  : option (outcome bool * tracker) :=
  match lookup "mark" g with
  | Some (Paired word neg_mark) =>
      let (mark, d) :=
        Utils.word_to_number word_to_num py_int py_float word (said s) in
      match mark with
      | Raises => Some (Raises, Self (foi s) d)
      | Returns (Some n) =>
          Some (Returns true, Self (Foi (PTuple [PNum n; PBool neg_mark])) d)
      | Returns None => Some (Returns false, Self (foi s) d)
      end
  | Some (Plain _) => None
  | None => Some (Returns false, s)
  end.

Definition flush (g : group) (s : tracker) : ctl tracker tracker :=
  match update_score g s with
  | Some (Returns true, s') => Go s'
  | Some (Returns false, s') => ReturnFalse s'
  | Some (Raises, s') => Raise s'
  | None => Wrong
  end.

(** One iteration of the [for] loop of [update], on [entity]. *)
Definition body (e : entity) (st : loop_state) : ctl tracker loop_state :=
  let entity_key := entity_key e in
  let entity_value := entity_value e in
  st <-
    (if PyStr.elem entity_key ["mark"] then
       st <-
         (if score_flag st && has_key entity_key (current_group st) then
            s <- flush (current_group st) (self st) ;;
            match last_item (current_group st) with
            | Some (key, value) =>
                Go (Loop (if String.eqb key "negation"
                          then assign key value [] else [])
                         (score_flag st) s)
            | None => Wrong
            end
          else Go st) ;;
       let neg := negb (has_key "negation" (current_group st)) in
       let g := if negb neg then remove "negation" (current_group st)
                else current_group st in
       Go (Loop (assign entity_key (Paired entity_value neg) g) true (self st))
     else
       st <-
         (if score_flag st && String.eqb entity_key "negation" then Go st
          else
            st <-
              (if score_flag st && negb (String.eqb entity_key "negation") then
                 s <- flush (current_group st) (self st) ;;
                 Go (Loop [] (score_flag st) s)
               else Go st) ;;
            Go (Loop (current_group st) false (self st))) ;;
       Go (Loop (assign entity_key (Plain entity_value) (current_group st))
                (score_flag st) (self st))) ;;
  if forallb (fun key => has_key key (current_group st)) ["mark"] then
    s <- flush (current_group st) (self st) ;;
    Go (Loop [] false s)
  else Go st.

Definition loop (entities : list entity) (s : tracker)
  : ctl tracker loop_state :=
  for_each body entities (Loop [] false s).

Definition finish (st : loop_state) : option (outcome bool * tracker) :=
  if nonempty (current_group st) then
    update_score (current_group st) (self st)
  else Some (Returns true, self st).

(** [TrackingGroups.update()] on [self.entities = entities]. *)
Definition update (entities : list entity) (s : tracker)
  : option (outcome bool * tracker) :=
  match loop entities s with
  | Go st => finish st
  | ReturnFalse s' => Some (Returns false, s')
  | Raise s' => Some (Raises, s')
  | Wrong => None
  end.

End Interpreter.

(** *** The query evaluator and the narrator *)

(** Modelled from the spec: the group records of the ranking file, which
    is not among the sources (spec, data model: id, position, the ordered
    member names and a numeric score). *)
Record contest_group : Type := Group {
  group_id : number;
  position : string;
  group_members : list string;
  group_score : number
}.

(** [list(self.foi.items())] *)
Definition items (f : fields) : list (string * pyval) :=
  [("score", score f)].

(** [person[key]] on the key of the map. *)
Definition group_item (g : contest_group) (key : string) : option number :=
  if String.eqb key "score" then Some (group_score g) else None.

(** [(person[key] >= value[0]) if value[1] is True else
    (person[key] < value[0])] *)
Definition within_threshold (g : contest_group) (kv : string * pyval)
  : option bool :=
  match getitem (snd kv) 1 with
  | Some direction =>
      match group_item g (fst kv), getitem (snd kv) 0 with
      | Some x, Some bound =>
          if is_true direction then number_ge x bound else number_lt x bound
      | _, _ => None
      end
  | None => None
  end.

(** [TrackingGroups.filteringJSON()] on [data["groups"] = groups]: the
    returned list ([self.nop] is its length); [None] when an operation
    raises. *)
Definition filteringJSON (groups : list contest_group) (f : fields)
  : option (list contest_group) :=
  let foi_score :=
    TrackingPeople.not_none (TrackingPeople.slice 0 1 (items f)) in
  if nonempty foi_score then
    TrackingPeople.keep_if
      (fun g => TrackingPeople.all_of (within_threshold g) foi_score) groups
  else Some groups.

Section Narrator.

Variable float_str : float -> string.

(** [TrackingGroups.__str__()], with [self.nop = nop]; [None] when it
    raises. *)
Definition str (f : fields) (nop : Z) : option string :=
  match
    (if truthy (score f) then
       match getitem (score f) 1 with
       | Some direction =>
           match
             (if is_true direction then Some "scored at least "
              else if is_false direction then Some "scored less than "
              else None),
             getitem (score f) 0
           with
           | Some score_string, Some bound =>
               match format float_str bound with
               | Some text =>
                   Some [(score_string ++ text ++ " points")%string]
               | None => None
               end
           | _, _ => None
           end
       | None => None
       end
     else Some [])
  with
  | Some attributes =>
      let attribute_str := join ", " attributes in
      Some (match attributes with
            | _ :: _ =>
                "There are " ++ str_int nop
                ++ " groups that have participated in the contets that meet the required specifications: "
                ++ attribute_str ++ "."
            | [] =>
                "There are " ++ str_int nop
                ++ " groups that have participated in the contets."
            end)%string
  | None => None
  end.

End Narrator.

End TrackingGroups.

(** ** [actions.py]: the actions of the dialogue host *)

Module Actions.

Import Py Flow.

(** A slot value of the tracker: a JSON list or any other value. *)
Inductive slot : Type :=
| Scalar (v : pyval)
| Listed (items : list pyval).

(** The events that an action returns. *)
Inductive event : Type :=
| SlotSet (key : string) (value : slot)
| AllSlotsReset.

(** [current_slots.get(key)] *)
Definition slot_get (key : string) (current_slots : dict slot) : slot :=
  match lookup key current_slots with
  | Some v => v
  | None => Scalar PNone
  end.

Definition slot_is_none (v : slot) : bool :=
  match v with
  | Scalar PNone => true
  | _ => false
  end.

(** [tuple(value)] for a list, [value if value != "None" else None]
    otherwise: what [ActionCountPeople.run] and [ActionCountGroups.run]
    store in [foi] for a slot. *)
Definition coerce (value : slot) : pyval :=
  match value with
  | Listed items => PTuple items
  | Scalar v => if Py.eqb v (PStr "None") then PNone else v
  end.

(** [cp.foi[key] = v] for a key of [TrackingPeople.foi]. *)
Definition people_setitem (key : string) (v : pyval)
  (f : TrackingPeople.fields) : TrackingPeople.fields :=
  if String.eqb key "gender" then TrackingPeople.set_gender v f
  else if String.eqb key "bag" then TrackingPeople.set_bag v f
  else if String.eqb key "hat" then TrackingPeople.set_hat v f
  else if String.eqb key "line1_passages" then TrackingPeople.set_line1 v f
  else if String.eqb key "line2_passages" then TrackingPeople.set_line2 v f
  else if String.eqb key "line3_passages" then TrackingPeople.set_line3 v f
  else if String.eqb key "line4_passages" then TrackingPeople.set_line4 v f
  else f.

(** [key in cp.foi] *)
Definition people_key (key : string) : bool :=
  PyStr.elem key (map fst (TrackingPeople.items TrackingPeople.initial_foi)).

(** The loop over [current_slots.items()] of [ActionCountPeople.run]. *)
Definition load_people (current_slots : dict slot)
  (f : TrackingPeople.fields) : TrackingPeople.fields :=
  fold_left
    (fun f kv =>
       if people_key (fst kv) then people_setitem (fst kv) (coerce (snd kv)) f
       else f)
    current_slots f.

(** The loop over [current_slots.items()] of [ActionCountGroups.run]. *)
Definition load_groups (current_slots : dict slot)
  (f : TrackingGroups.fields) : TrackingGroups.fields :=
  fold_left
    (fun f kv =>
       if String.eqb (fst kv) "score" then TrackingGroups.Foi (coerce (snd kv))
       else f)
    current_slots f.

(** [[SlotSet(key, value) for key, value in foi.items()]] *)
Definition slot_events (items : list (string * pyval)) : list event :=
  map (fun kv => SlotSet (fst kv) (Scalar (snd kv))) items.

Section Runs.

Variable word_to_num : string -> parse number.
Variable py_int : string -> option Z.
Variable py_float : string -> option float.
Variable float_str : float -> string.

(** [ActionCountPeople.run], on the people of the database file, the
    slots and the entities of the tracker: the events returned, or the
    exception of the parser that goes through the call, and the
    dispatcher afterwards; [None] when an operation of the run is
    ill-typed. *)
Definition count_people_run (people : list TrackingPeople.person)
  (current_slots : dict slot) (entities : list entity) (d : dispatcher)
  : option (outcome (list event) * dispatcher) :=
  let cp :=
    TrackingPeople.Self
      (load_people current_slots TrackingPeople.initial_foi) d in
  match
    TrackingPeople.update TrackingPeople.mall_lines word_to_num entities cp
  with
  | Some (Returns true, cp) =>
      match TrackingPeople.filteringJSON people (TrackingPeople.foi cp) with
      | Some doi =>
          match
            TrackingPeople.str TrackingPeople.mall_lines float_str
              (TrackingPeople.foi cp) (Z.of_nat (List.length doi))
          with
          | Some text =>
              Some (Returns
                      (slot_events
                         (TrackingPeople.items (TrackingPeople.foi cp))),
                    utter_message text (TrackingPeople.said cp))
          | None => None
          end
      | None => None
      end
  | Some (Returns false, cp) =>
      Some (Returns
              (slot_events (TrackingPeople.items (TrackingPeople.foi cp))),
            TrackingPeople.said cp)
  | Some (Raises, cp) => Some (Raises, TrackingPeople.said cp)
  | None => None
  end.

(** [ActionCountGroups.run] *)
Definition count_groups_run (groups : list TrackingGroups.contest_group)
  (current_slots : dict slot) (entities : list entity) (d : dispatcher)
  : option (outcome (list event) * dispatcher) :=
  let cg :=
    TrackingGroups.Self
      (load_groups current_slots TrackingGroups.initial_foi) d in
  match TrackingGroups.update word_to_num py_int py_float entities cg with
  | Some (Returns true, cg) =>
      match TrackingGroups.filteringJSON groups (TrackingGroups.foi cg) with
      | Some doi =>
          match
            TrackingGroups.str float_str (TrackingGroups.foi cg)
              (Z.of_nat (List.length doi))
          with
          | Some text =>
              Some (Returns
                      (slot_events
                         (TrackingGroups.items (TrackingGroups.foi cg))),
                    utter_message text (TrackingGroups.said cg))
          | None => None
          end
      | None => None
      end
  | Some (Returns false, cg) =>
      Some (Returns
              (slot_events (TrackingGroups.items (TrackingGroups.foi cg))),
            TrackingGroups.said cg)
  | Some (Raises, cg) => Some (Raises, TrackingGroups.said cg)
  | None => None
  end.

End Runs.

(** One iteration of the loop of [ActionSlotMapping.run], on
    [current_group] and [new_slot_values]. *)
Definition slot_mapping_body (st : group * dict slot) (e : entity)
  : group * dict slot :=
  let entity_key := entity_key e in
  let entity_value := entity_value e in
  let current_group := assign entity_key (Plain entity_value) (fst st) in
  let new_slot_values := snd st in
  let st :=
    if PyStr.contains "clothing" entity_key then
      let neg := negb (has_key "negation" current_group) in
      ([],
       if PyStr.elem entity_value ["hat"; "bag"]
       then assign entity_value (Scalar (PBool neg)) new_slot_values
       else new_slot_values)
    else (current_group, new_slot_values) in
  if PyStr.contains "gender" entity_key then
    let neg := negb (has_key "negation" (fst st)) in
    ([],
     assign "gender"
       (Scalar (PStr (if neg then entity_value
                      else if String.eqb entity_value "male" && negb neg
                           then "female" else "male")))
       (snd st))
  else st.

(** The [for] loop of [ActionSlotMapping.run] from its initial locals:
    [current_group] and [new_slot_values] afterwards. *)
Definition slot_mapping_loop (entities : list entity)
  (new_slot_values : dict slot) : group * dict slot :=
  fold_left slot_mapping_body entities ([], new_slot_values).

(** [ActionSlotMapping.run], on the intent of the latest message, the
    slots and the entities of the tracker. *)
Definition slot_mapping_run (intent : string) (current_slots : dict slot)
  (entities : list entity) : list event :=
  let new_slot_values :=
    if String.eqb intent "finding_someone"
    then map (fun kv => (fst kv, Scalar PNone)) current_slots
    else current_slots in
  map (fun kv => SlotSet (fst kv) (snd kv))
    (snd (slot_mapping_loop entities new_slot_values)).

(** [ActionResetOldSlot.run] *)
Definition reset_old_slot_run (current_slots : dict slot)
  (entities : list entity) : list event :=
  let last_updated := slot_get "last_updated" current_slots in
  let n := List.length entities in
  if (n =? 0)%nat && slot_is_none last_updated then
    [SlotSet "last_updated" (Scalar (PStr "zero"))]
  else if (n =? 0)%nat && negb (slot_is_none last_updated) then []
  else if (n =? 2)%nat
          && existsb (fun e => String.eqb (entity_value e) "negation") entities
          && existsb (fun e => String.eqb (entity_value e) "mark") entities
  then []
  else if (1 <? n)%nat then
    [SlotSet "last_updated" (Scalar (PStr "more than one"))]
  else
    let updated_slot :=
      fold_left
        (fun updated_slot e =>
           if String.eqb (entity_key e) "position" then PStr "position"
           else if String.eqb (entity_key e) "group_ID" then PStr "group_ID"
           else if String.eqb (entity_key e) "member_group"
                then PStr "member_group"
           else if String.eqb (entity_key e) "mark" then PStr "score"
           else updated_slot)
        entities PNone in
    if truthy updated_slot then
      [SlotSet "last_updated" (Scalar updated_slot)]
    else [SlotSet "last_updated" (Scalar (PStr "wrong entity"))].

(** [ValidateFindPersonForm.validate_gender], on the slot value and
    the intent of the latest message: the value returned for the gender
    slot and the dispatcher afterwards. *)
Definition validate_gender (slot_value : option string) (intent : string)
  (d : dispatcher) : pyval * dispatcher :=
  match slot_value with
  | Some value =>
      if negb (String.eqb intent "doubt") then
        if PyStr.elem (PyStr.lower value) ["male"; "m"] then (PStr "male", d)
        else if PyStr.elem (PyStr.lower value) ["female"; "f"]
             then (PStr "female", d)
        else (PNone,
              utter_message "Please provide a valid gender (male/female)." d)
      else
        (PNone,
         utter_message
           "It would help me a lot if you would tell me the gender." d)
  | None =>
      if String.eqb intent "doubt" then
        (PNone,
         utter_message
           "It would help me a lot if you would tell me the gender." d)
      else (PNone, d)
  end.

End Actions.

(** ** Vocabulary of the properties *)

Module TP := TrackingPeople.
Module TG := TrackingGroups.

Import Py Flow.

(** The entity kinds of the people domain, as the NLU tags them. *)
Definition passages (adverb : string) : entity := Entity "passages" adverb.
Definition line (name : string) : entity := Entity "line" name.
Definition clothing (item : string) : entity := Entity "clothing" item.
Definition gender (value : string) : entity := Entity "gender" value.
Definition negation (word : string) : entity := Entity "negation" word.

(** A grouped kind of the people domain. *)
Definition grouped (e : entity) : bool :=
  PyStr.elem (entity_key e) ["passages"; "line"].

(** An entity that [update] resolves on its own: a clothing or a
    gender kind ([..."clothing" in entity_key], ["gender" in entity_key]). *)
Definition resolves (e : entity) : bool :=
  PyStr.contains "clothing" (entity_key e)
  || PyStr.contains "gender" (entity_key e).

(** The threshold pair [(bound, direction)]. *)
Definition threshold (bound : number) (direction : bool) : pyval :=
  PTuple [PNum bound; PBool direction].

(** A threshold field is unset or a complete pair. *)
Definition threshold_ok (v : pyval) : Prop :=
  v = PNone \/ exists bound direction, v = threshold bound direction.

Definition people_thresholds_ok (f : TP.fields) : Prop :=
  threshold_ok (TP.line1_passages f) /\ threshold_ok (TP.line2_passages f) /\
  threshold_ok (TP.line3_passages f) /\ threshold_ok (TP.line4_passages f).

Definition group_threshold_ok (f : TG.fields) : Prop :=
  threshold_ok (TG.score f).

(** The line name is none of the configured identifiers. *)
Definition unknown_line (conf : TP.lines) (name : string) : Prop :=
  PyStr.lower name <> TP.line_1 conf /\ PyStr.lower name <> TP.line_2 conf /\
  PyStr.lower name <> TP.line_3 conf /\ PyStr.lower name <> TP.line_4 conf.

(** A stand-in for [w2n.word_to_num] that recognises nothing, to run the
    model on inputs that never reach the library. *)
Definition no_words : string -> parse number := fun _ => ValueError.

(** A word parser that knows the digit 5 only. *)
Definition five_only (s : string) : parse number :=
  if String.eqb s "5" then Parsed (NInt 5) else ValueError.

(** A word parser that raises an exception of its own on one text, as
    word2number does on "thousand five", and knows no other. *)
Definition brittle (s : string) : parse number :=
  if String.eqb s "thousand five" then OtherError else ValueError.

(** The adverb converts: [adverb_to_number] returns a number for it. *)
Definition converts (word_to_num : string -> parse number) (adverb : string)
  : Prop :=
  exists n, fst (Utils.adverb_to_number word_to_num adverb []) = Returns (Some n).

(** The call of [adverb_to_number] on the adverb returns: on the text in
    front of " times", if the adverb ends so, the word parser raises no
    exception but [ValueError]. *)
Definition adverb_returns (word_to_num : string -> parse number)
  (adverb : string) : Prop :=
  fst (Utils.adverb_to_number word_to_num adverb []) <> Raises.

(** The conversion returns on the quantity of every [passages] entity
    of the stream. *)
Definition quantities_return (word_to_num : string -> parse number)
  (es : list entity) : Prop :=
  Forall (fun e => entity_key e = "passages" ->
                   adverb_returns word_to_num (entity_value e))
    es.

(** The conversion returns on the quantity that the buffer holds, if it
    holds one. *)
Definition buffer_returns (word_to_num : string -> parse number) (g : group)
  : Prop :=
  forall adverb neg,
    lookup "passages" g = Some (Paired adverb neg) ->
    adverb_returns word_to_num adverb.

(** The quantity adverb that would join the pending group: the value of
    the first entity that is not a negation, when it is a quantity. *)
Fixpoint next_quantity (es : list entity) : option string :=
  match es with
  | [] => None
  | e :: es' =>
      if String.eqb (entity_key e) "negation" then next_quantity es'
      else if String.eqb (entity_key e) "passages" then Some (entity_value e)
      else None
  end.

(** Between two iterations, a buffered quantity or line name means the
    loop is inside a line group, and the buffer never holds both. *)
Definition pending_shape (st : TP.loop_state) : Prop :=
  (has_key "passages" (TP.current_group st)
   || has_key "line" (TP.current_group st) = true -> TP.line_flag st = true)
  /\ has_key "passages" (TP.current_group st)
     && has_key "line" (TP.current_group st) = false.

(** The four line fields of the map. *)
Definition line_fields (f : TP.fields) : pyval * pyval * pyval * pyval :=
  (TP.line1_passages f, TP.line2_passages f,
   TP.line3_passages f, TP.line4_passages f).

(** The loop is outside a line group and the buffer holds no grouped
    key. *)
Definition idle (st : TP.loop_state) : Prop :=
  TP.line_flag st = false
  /\ has_key "passages" (TP.current_group st) = false
  /\ has_key "line" (TP.current_group st) = false.

(** The stream ends with an entity that [update] does not resolve on
    its own: it is not empty and its last entity is no clothing and no
    gender kind. *)
Definition ends_unresolved (es : list entity) : bool :=
  fold_left (fun _ e => negb (resolves e)) es false.


(** *** The query evaluator, in the words of the specification *)

(** A set attribute field equals the person's value. *)
Definition attribute_met (x v : pyval) : bool :=
  is_none v || Py.eqb x v.

(** The crossing count of the specification: the occurrences of the
    line in the trajectory of the person, counted by the library. *)
Definition occurrences (line : Z) (p : TP.person) : Z :=
  Z.of_nat (count_occ Z.eq_dec (TP.trajectory p) line).

(** The record with its four derived fields, one count per line. *)
Definition with_counts (p : TP.person) : TP.counted :=
  TP.Counted p (occurrences 1 p) (occurrences 2 p)
    (occurrences 3 p) (occurrences 4 p).

(** A set threshold field is met by the crossing count. *)
Definition threshold_met (n : Z) (v : pyval) : bool :=
  match v with
  | PTuple [PNum bound; PBool true] => num_le bound (NInt n)
  | PTuple [PNum bound; PBool false] => num_lt (NInt n) bound
  | _ => true
  end.

(** The record passes every set field. *)
Definition retained (f : TP.fields) (p : TP.person) : bool :=
  attribute_met (PStr (TP.person_gender p)) (TP.gender f)
  && attribute_met (PBool (TP.person_bag p)) (TP.bag f)
  && attribute_met (PBool (TP.person_hat p)) (TP.hat f)
  && threshold_met (occurrences 1 p) (TP.line1_passages f)
  && threshold_met (occurrences 2 p) (TP.line2_passages f)
  && threshold_met (occurrences 3 p) (TP.line3_passages f)
  && threshold_met (occurrences 4 p) (TP.line4_passages f).




(** Two people of a dataset. *)
Definition man := TP.Person "male" false false [1; 2]%Z.
Definition woman := TP.Person "female" true false [1; 1; 3]%Z.
Definition regular := TP.Person "male" false true [1; 2; 1; 4; 1]%Z.

(** *** Invariants of the loops *)

(** Only a grouped key can hold a pair; a plain string is never stored
    under one of [keys]. *)
Definition entry_typed (keys : list string) (kv : string * group_value)
  : Prop :=
  match snd kv with
  | Plain _ => PyStr.elem (fst kv) keys = false
  | Paired _ _ => True
  end.

Definition well_typed (keys : list string) (g : group) : Prop :=
  Forall (entry_typed keys) g.

Definition people_keys : list string := ["passages"; "line"].
Definition group_keys : list string := ["mark"].

(** [P] holds of the state a body goes on with, [Q] of the object it
    returns False with, [E] of the object that the exception of the
    parser leaves behind, and it is never ill-typed. *)
Definition ctl_sat {S A} (P : A -> Prop) (Q E : S -> Prop) (m : ctl S A)
  : Prop :=
  match m with
  | Go a => P a
  | ReturnFalse s => Q s
  | Raise s => E s
  | Wrong => False
  end.

(** The body is not left by the exception of the parser, and [P] holds
    of the state it goes on with. *)
Definition ctl_returns {S A} (P : A -> Prop) (m : ctl S A) : Prop :=
  match m with
  | Go a => P a
  | Raise _ => False
  | _ => True
  end.

(** The same on what a call did: [T] after [return True], [Q] after
    [return False], [E] after the exception of the parser. *)
Definition outcome_sat {S} (T Q E : S -> Prop) (r : outcome bool) (s : S)
  : Prop :=
  match r with
  | Returns true => T s
  | Returns false => Q s
  | Raises => E s
  end.

(** The fields of the object satisfy [F]; the buffer is well typed and
    the fields satisfy [F]. *)
Definition people_tracker_sat (F : TP.fields -> Prop) (s : TP.tracker)
  : Prop :=
  F (TP.foi s).

Definition people_loop_sat (F : TP.fields -> Prop) (st : TP.loop_state)
  : Prop :=
  well_typed people_keys (TP.current_group st)
  /\ people_tracker_sat F (TP.self st).

Definition people_tracker_ok : TP.tracker -> Prop :=
  people_tracker_sat people_thresholds_ok.

Definition group_tracker_ok (s : TG.tracker) : Prop :=
  group_threshold_ok (TG.foi s).

Definition group_loop_ok (st : TG.loop_state) : Prop :=
  well_typed group_keys (TG.current_group st)
  /\ group_tracker_ok (TG.self st).

(** A sequence of [update] calls on one object, one entity stream per
    turn, whatever each call returns or raises. *)
Fixpoint people_turns (conf : TP.lines) (word_to_num : string -> parse number)
  (turns : list (list entity)) (s : TP.tracker) : option TP.tracker :=
  match turns with
  | [] => Some s
  | es :: turns' =>
      match TP.update conf word_to_num es s with
      | Some (_, s') => people_turns conf word_to_num turns' s'
      | None => None
      end
  end.

Fixpoint group_turns (word_to_num : string -> parse number)
  (py_int : string -> option Z) (py_float : string -> option float)
  (turns : list (list entity)) (s : TG.tracker) : option TG.tracker :=
  match turns with
  | [] => Some s
  | es :: turns' =>
      match TG.update word_to_num py_int py_float es s with
      | Some (_, s') => group_turns word_to_num py_int py_float turns' s'
      | None => None
      end
  end.

(** *** Invariants on the object of the interpreter *)

(** The buffer is well typed and the object satisfies [T]. *)
Definition people_loop_inv (T : TP.tracker -> Prop) (st : TP.loop_state)
  : Prop :=
  well_typed people_keys (TP.current_group st) /\ T (TP.self st).

(** The buffer holds one negation ([b = true]) or nothing. *)
Definition only_negation (b : bool) (g : group) : Prop :=
  if b then exists word, g = [("negation", Plain word)] else g = [].

(** The list of words is not empty. *)
Definition any_word (words : list string) : bool :=
  match words with [] => false | _ => true end.

(** The numeric mark of the groups domain. *)
Definition mark (word : string) : entity := Entity "mark" word.

(** Between two iterations the groups loop is outside a score group and
    the buffer holds no mark. *)
Definition score_idle (st : TG.loop_state) : Prop :=
  TG.score_flag st = false /\ has_key "mark" (TG.current_group st) = false.

(** *** The evaluators *)

(** A set score threshold is met by the score of the group. *)
Definition score_met (x : number) (v : pyval) : bool :=
  match v with
  | PTuple [PNum bound; PBool true] => num_le bound x
  | PTuple [PNum bound; PBool false] => num_lt x bound
  | _ => true
  end.

(** The setter of each line field, with the line that it counts. *)
Definition line_setters : list ((pyval -> TP.fields -> TP.fields) * Z) :=
  [(TP.set_line1, 1%Z); (TP.set_line2, 2%Z);
   (TP.set_line3, 3%Z); (TP.set_line4, 4%Z)].

(** No character of the text is a space. *)
Fixpoint spaceless (s : string) : bool :=
  match s with
  | EmptyString => true
  | String c s' => negb (Ascii.eqb c " ") && spaceless s'
  end.

(** *** The groups interpreter *)

(** The number that [Utils.word_to_number] returns for the word, which
    does not depend on the dispatcher; [None] when it returns [None] or
    the exception of the parser goes through it. *)
Definition parsed_number (word_to_num : string -> parse number)
  (py_int : string -> option Z) (py_float : string -> option float)
  (word : string) : option number :=
  match fst (Utils.word_to_number word_to_num py_int py_float word []) with
  | Returns n => n
  | Raises => None
  end.

(** The call of [word_to_number] on the word returns. *)
Definition word_returns (word_to_num : string -> parse number)
  (py_int : string -> option Z) (py_float : string -> option float)
  (word : string) : Prop :=
  fst (Utils.word_to_number word_to_num py_int py_float word []) <> Raises.

(** The call of [word_to_number] returns on the word of every mark of
    the stream. *)
Definition marks_return (word_to_num : string -> parse number)
  (py_int : string -> option Z) (py_float : string -> option float)
  (es : list entity) : Prop :=
  Forall (fun e => entity_key e = "mark" ->
                   word_returns word_to_num py_int py_float (entity_value e))
    es.

(** A negation came after the last mark of the stream. *)
Definition pending_negation (es : list entity) : bool :=
  fold_left
    (fun pending e =>
       if String.eqb (entity_key e) "mark" then false
       else pending || String.eqb (entity_key e) "negation")
    es false.

(** *** The actions *)

(** The event that [ActionResetOldSlot.run] returns for a value. *)
Definition last_updated (value : string) : Actions.event :=
  Actions.SlotSet "last_updated" (Actions.Scalar (PStr value)).

(** A slot that [ActionSlotMapping.run] can write. *)
Definition attribute_slot (key : string) : bool :=
  PyStr.elem key ["gender"; "hat"; "bag"].

(** The gender, bag and hat slots hold the values of the fields. *)
Definition attribute_slots_agree (slots : dict Actions.slot) (f : TP.fields)
  : Prop :=
  Actions.slot_get "gender" slots = Actions.Scalar (TP.gender f)
  /\ Actions.slot_get "bag" slots = Actions.Scalar (TP.bag f)
  /\ Actions.slot_get "hat" slots = Actions.Scalar (TP.hat f).

(** An entity that is no quantity and no line name, and whose kind does
    not name both a clothing and a gender. *)
Definition attribute_entity (e : entity) : bool :=
  negb (grouped e)
  && negb (PyStr.contains "clothing" (entity_key e)
           && PyStr.contains "gender" (entity_key e)).

(** *** Two runs of the interpreter *)

(** The map [f] with every field that [o] sets written over it. *)
Definition overwrite (o f : TP.fields) : TP.fields :=
  TP.Foi
    (if is_none (TP.gender o) then TP.gender f else TP.gender o)
    (if is_none (TP.bag o) then TP.bag f else TP.bag o)
    (if is_none (TP.hat o) then TP.hat f else TP.hat o)
    (if is_none (TP.line1_passages o) then TP.line1_passages f
     else TP.line1_passages o)
    (if is_none (TP.line2_passages o) then TP.line2_passages f
     else TP.line2_passages o)
    (if is_none (TP.line3_passages o) then TP.line3_passages f
     else TP.line3_passages o)
    (if is_none (TP.line4_passages o) then TP.line4_passages f
     else TP.line4_passages o).

(** Two computations end alike: both go on, in states that [R] relates,
    or both return False, or both are left by the exception of the
    parser, with objects that [Q] relates. *)
Definition ctl_rel {S A} (R : A -> A -> Prop) (Q : S -> S -> Prop)
  (m1 m2 : ctl S A) : Prop :=
  match m1, m2 with
  | Go a1, Go a2 => R a1 a2
  | ReturnFalse s1, ReturnFalse s2 => Q s1 s2
  | Raise s1, Raise s2 => Q s1 s2
  | _, _ => False
  end.

(** The second object is the prior object [(f, d)] with the fields of
    the first written over it and the messages of the first appended. *)
Definition over_prior (f : TP.fields) (d : dispatcher) (s1 s2 : TP.tracker)
  : Prop :=
  TP.foi s2 = overwrite (TP.foi s1) f /\ TP.said s2 = d ++ TP.said s1.

(** The two loops are at the same point, on objects that [T] relates. *)
Definition people_loop_rel (T : TP.tracker -> TP.tracker -> Prop)
  (st1 st2 : TP.loop_state) : Prop :=
  TP.current_group st1 = TP.current_group st2
  /\ TP.line_flag st1 = TP.line_flag st2
  /\ well_typed people_keys (TP.current_group st1)
  /\ T (TP.self st1) (TP.self st2).

(** *** The slots that the counting actions read *)

(** A threshold slot is unset, the text "None", or the two-element list
    that the tracker stores for a (bound, direction) pair. *)
Definition threshold_slot (v : Actions.slot) : Prop :=
  v = Actions.Scalar PNone \/ v = Actions.Scalar (PStr "None")
  \/ exists bound direction,
       v = Actions.Listed [PNum bound; PBool direction].

(** The gender slot is unset or a text. *)
Definition gender_slot (v : Actions.slot) : Prop :=
  v = Actions.Scalar PNone \/ exists g, v = Actions.Scalar (PStr g).

(** The keys of the four line fields. *)
Definition line_keys : list string :=
  ["line1_passages"; "line2_passages"; "line3_passages"; "line4_passages"].

Definition people_slots_ok (slots : dict Actions.slot) : Prop :=
  Forall (fun kv =>
            (PyStr.elem (fst kv) line_keys = true -> threshold_slot (snd kv))
            /\ (fst kv = "gender" -> gender_slot (snd kv)))
    slots.


(** The threshold fields are complete and the gender is unset or a
    text. *)
Definition people_fields_ok (f : TP.fields) : Prop :=
  people_thresholds_ok f
  /\ (TP.gender f = PNone \/ exists g, TP.gender f = PStr g).

(** A stand-in for [str] on floats, to run the model on integers. *)
Definition no_floats : float -> string := fun _ => "".

(** The seven fields of the map of the people. *)
Definition people_getters : list (TP.fields -> pyval) :=
  [TP.gender; TP.bag; TP.hat; TP.line1_passages; TP.line2_passages;
   TP.line3_passages; TP.line4_passages].

(** *** Two streams that differ in letter case *)

(** Two texts that are the same, up to letter case under the key
    "line". *)
Definition same_text (key v1 v2 : string) : Prop :=
  if String.eqb key "line" then PyStr.lower v1 = PyStr.lower v2
  else v1 = v2.

(** Two entities of the same kind with the same text. *)
Definition same_entity (e1 e2 : entity) : Prop :=
  entity_key e1 = entity_key e2
  /\ same_text (entity_key e1) (entity_value e1) (entity_value e2).

(** Two entries of the buffer under one key: the same plain text, or
    pairs of the same text and polarity. *)
Definition same_entry (kv1 kv2 : string * group_value) : Prop :=
  fst kv1 = fst kv2
  /\ match snd kv1, snd kv2 with
     | Plain v1, Plain v2 => v1 = v2
     | Paired v1 p1, Paired v2 p2 => p1 = p2 /\ same_text (fst kv1) v1 v2
     | _, _ => False
     end.

Definition same_group (g1 g2 : group) : Prop := Forall2 same_entry g1 g2.

(** The two loops are at the same point on the same object, their
    buffers the same up to the case of a line name. *)
Definition same_state (st1 st2 : TP.loop_state) : Prop :=
  same_group (TP.current_group st1) (TP.current_group st2)
  /\ TP.line_flag st1 = TP.line_flag st2
  /\ well_typed people_keys (TP.current_group st1)
  /\ well_typed people_keys (TP.current_group st2)
  /\ TP.self st1 = TP.self st2.

(** Two objects with the same fields. *)
Definition same_fields (s1 s2 : TP.tracker) : Prop := TP.foi s1 = TP.foi s2.

(** * Properties *)

Section PeopleInterpreter.

Variable word_to_num : string -> parse number.

(** C1. The streams [quantity-adverb "twice", line-name "alpha line"] and
    [line-name "alpha line", quantity-adverb "twice"] both make [update]
    succeed and commit (2, true) to the alpha-line field, whatever the
    prior fields; and for any adverb, any line name and any configured
    lines the two orders give the same result. *)
Theorem update_quantity_line_order_independent :
  (forall s,
     TP.update TP.mall_lines word_to_num [passages "twice"; line "alpha line"] s
     = Some (Returns true, TP.with_foi (TP.set_line1 (threshold (NInt 2) true) (TP.foi s)) s)
     /\ TP.update TP.mall_lines word_to_num [line "alpha line"; passages "twice"] s
        = Some (Returns true, TP.with_foi (TP.set_line1 (threshold (NInt 2) true) (TP.foi s)) s))
  /\ (forall conf adverb name s,
        TP.update conf word_to_num [passages adverb; line name] s
        = TP.update conf word_to_num [line name; passages adverb] s).
Proof.
  split.
  - intros [f d]. split; reflexivity.
  - intros conf adverb name s. reflexivity.
Qed.

(** C8. Gender resolve with affirmed polarity (no negation in the
    buffer) stores the entity value verbatim; with negated polarity a
    "male" is stored as "female" and a "female" as "male".  The same is
    observed through [update] on the streams [gender v],
    [negation, gender male] and [negation, gender female]. *)
Theorem gender_resolve_polarity : forall (g : group) value word s,
  (has_key "negation" g = false ->
   TP.foi (TP.update_gender g value s) = TP.set_gender (PStr value) (TP.foi s))
  /\ (has_key "negation" g = true ->
      TP.foi (TP.update_gender g "male" s)
      = TP.set_gender (PStr "female") (TP.foi s)
      /\ TP.foi (TP.update_gender g "female" s)
         = TP.set_gender (PStr "male") (TP.foi s))
  /\ TP.update TP.mall_lines word_to_num [gender value] s
     = Some (Returns true, TP.with_foi (TP.set_gender (PStr value) (TP.foi s)) s)
  /\ TP.update TP.mall_lines word_to_num [negation word; gender "male"] s
     = Some (Returns true, TP.with_foi (TP.set_gender (PStr "female") (TP.foi s)) s)
  /\ TP.update TP.mall_lines word_to_num [negation word; gender "female"] s
     = Some (Returns true, TP.with_foi (TP.set_gender (PStr "male") (TP.foi s)) s).
Proof.
  intros g value word [f d]. unfold TP.update_gender.
  repeat split; try reflexivity.
  - intros ->. reflexivity.
  - rewrite H. reflexivity.
  - rewrite H. reflexivity.
Qed.

(** C10. A negated gender entity whose value is any string other than
    "male" (so "female", but also a value outside the binary set such as
    "other") stores the literal "male"; only a negated "male" gives
    "female". *)
Theorem negated_gender_defaults_to_male : forall (g : group) value word s,
  has_key "negation" g = true ->
  value <> "male" ->
  TP.foi (TP.update_gender g value s) = TP.set_gender (PStr "male") (TP.foi s)
  /\ TP.foi (TP.update_gender g "male" s)
     = TP.set_gender (PStr "female") (TP.foi s)
  /\ TP.update TP.mall_lines word_to_num [negation word; gender value] s
     = Some (Returns true, TP.with_foi (TP.set_gender (PStr "male") (TP.foi s)) s).
Proof.
  intros g value word [f d] Hneg Hval.
  apply String.eqb_neq in Hval.
  unfold TP.update_gender. rewrite Hneg. cbn [negb andb].
  rewrite Hval. repeat split.
  cbv -[String.eqb]. rewrite Hval. reflexivity.
Qed.

End PeopleInterpreter.

(** The witness of C8: an empty buffer on "other", and a buffer holding
    one negation on "male" and on "female". *)
Lemma gender_resolve_polarity_witness :
  TP.foi (TP.update_gender [] "other" (TP.Self TP.initial_foi []))
  = TP.set_gender (PStr "other") TP.initial_foi
  /\ TP.foi (TP.update_gender [("negation", Plain "not")] "male"
               (TP.Self TP.initial_foi []))
     = TP.set_gender (PStr "female") TP.initial_foi
  /\ TP.foi (TP.update_gender [("negation", Plain "not")] "female"
               (TP.Self TP.initial_foi []))
     = TP.set_gender (PStr "male") TP.initial_foi.
Proof.
  split.
  - exact (proj1 (gender_resolve_polarity no_words
      [] "other" "not" (TP.Self TP.initial_foi [])) eq_refl).
  - exact (proj1 (proj2 (gender_resolve_polarity no_words
      [("negation", Plain "not")] "male" "not" (TP.Self TP.initial_foi [])))
      eq_refl).
Defined.

(** The witness of C10: a negated "other". *)
Lemma negated_gender_defaults_to_male_witness :
  TP.foi (TP.update_gender [("negation", Plain "not")] "other"
            (TP.Self TP.initial_foi []))
  = TP.set_gender (PStr "male") TP.initial_foi.
Proof.
  apply (proj1 (negated_gender_defaults_to_male no_words
    [("negation", Plain "not")] "other" "not" (TP.Self TP.initial_foi [])
    eq_refl ltac:(discriminate))).
Defined.

(** ** The normaliser *)

Lemma endswith_app : forall suf s, PyStr.endswith suf (s ++ suf) = true.
Proof.
  intros suf s. induction s as [|c s IH]; cbn.
  - destruct suf; cbn; [reflexivity|].
    now rewrite Ascii.eqb_refl, String.eqb_refl.
  - rewrite IH. apply orb_true_r.
Qed.

(** The separator cannot start inside [s] and end inside the appended
    separator: its first character is its only space. *)
Lemma prefix_times_app : forall s,
  String.prefix "times" s = false ->
  String.prefix "times" (s ++ " times") = false.
Proof.
  intros s.
  repeat (destruct s as [|? s]; [reflexivity|];
          cbn [String.prefix append];
          match goal with
          | |- context [ascii_dec ?a ?b] =>
              destruct (ascii_dec a b); [|reflexivity]
          end).
  destruct s; cbn; intros H; discriminate H.
Qed.

Lemma split_head_times : forall n,
  PyStr.contains " times" n = false ->
  PyStr.split_head " times" (n ++ " times") = n.
Proof.
  induction n as [|c n IH]; intros H.
  - reflexivity.
  - cbn [PyStr.contains] in H. apply orb_false_iff in H.
    destruct H as [Hp Hc].
    cbn [append PyStr.split_head].
    replace (String.prefix " times" (String c (n ++ " times"))) with false.
    + now rewrite IH.
    + symmetry. cbn [String.prefix] in *.
      destruct (ascii_dec " " c); [|reflexivity].
      now apply prefix_times_app.
Qed.

Section NormaliserProperties.

Variable word_to_num : string -> parse number.

(** C6, as the code has it.  The conversion returns 1 for "once" and
    also for "one time", 2 for "twice"; for an input that ends with
    " times" it hands the text before the first " times" to the word
    parser (for "<N> times" with no " times" inside <N>, that text is
    <N>) and returns its value; when the parser raises [ValueError] it
    utters the clarification and returns the failure value; when the
    parser raises another exception, that exception leaves the
    conversion, which returns nothing and utters nothing; for every other
    input it returns the failure value after uttering one clarification
    message that echoes the input. *)
Theorem adverb_to_number_cases : forall adverb d,
  (adverb = "once" \/ adverb = "one time" ->
   Utils.adverb_to_number word_to_num adverb d = (Returns (Some (NInt 1)), d))
  /\ (adverb = "twice" ->
      Utils.adverb_to_number word_to_num adverb d
      = (Returns (Some (NInt 2)), d))
  /\ (PyStr.endswith " times" adverb = true ->
      Utils.adverb_to_number word_to_num adverb d
      = match word_to_num (PyStr.split_head " times" adverb) with
        | Parsed n => (Returns (Some n), d)
        | ValueError =>
            (Returns None, utter_message (Utils.frequency_message adverb) d)
        | OtherError => (Raises, d)
        end)
  /\ (forall n, PyStr.contains " times" n = false ->
      Utils.adverb_to_number word_to_num (n ++ " times") d
      = match word_to_num n with
        | Parsed v => (Returns (Some v), d)
        | ValueError =>
            (Returns None,
             utter_message (Utils.frequency_message (n ++ " times")) d)
        | OtherError => (Raises, d)
        end)
  /\ (adverb <> "once" -> adverb <> "one time" -> adverb <> "twice" ->
      PyStr.endswith " times" adverb = false ->
      Utils.adverb_to_number word_to_num adverb d
      = (Returns None, utter_message (Utils.frequency_message adverb) d)).
Proof.
  intros adverb d.
  assert (Htimes : forall a, PyStr.endswith " times" a = true ->
            Utils.adverb_to_number word_to_num a d
            = match word_to_num (PyStr.split_head " times" a) with
              | Parsed n => (Returns (Some n), d)
              | ValueError =>
                  (Returns None, utter_message (Utils.frequency_message a) d)
              | OtherError => (Raises, d)
              end).
  { intros a H. unfold Utils.adverb_to_number.
    destruct (String.eqb_spec a "once") as [->|_]; [discriminate H|].
    destruct (String.eqb_spec a "one time") as [->|_]; [discriminate H|].
    destruct (String.eqb_spec a "twice") as [->|_]; [discriminate H|].
    cbn [orb]. now rewrite H. }
  repeat split.
  - intros [-> | ->]; reflexivity.
  - intros ->. reflexivity.
  - apply Htimes.
  - intros n Hn. rewrite Htimes by apply endswith_app.
    now rewrite split_head_times.
  - intros H1 H2 H3 H4. unfold Utils.adverb_to_number.
    apply String.eqb_neq in H1, H2, H3. now rewrite H1, H2, H3, H4.
Qed.

End NormaliserProperties.

(** The witness of C6: "one time", "twice", "5 times", "often", and
    "thousand five times" with a parser that raises on "thousand five". *)
Lemma adverb_to_number_cases_witness :
  Utils.adverb_to_number five_only "one time" [] = (Returns (Some (NInt 1)), [])
  /\ Utils.adverb_to_number five_only "twice" [] = (Returns (Some (NInt 2)), [])
  /\ Utils.adverb_to_number five_only "5 times" []
     = (Returns (Some (NInt 5)), [])
  /\ Utils.adverb_to_number brittle ("thousand five" ++ " times") ["hello"]
     = (Raises, ["hello"])
  /\ Utils.adverb_to_number five_only "often" []
     = (Returns None, [Utils.frequency_message "often"]).
Proof.
  split; [|split; [|split; [|split]]].
  - exact (proj1 (adverb_to_number_cases five_only "one time" [])
             (or_intror eq_refl)).
  - exact (proj1 (proj2 (adverb_to_number_cases five_only "twice" []))
             eq_refl).
  - exact (proj1 (proj2 (proj2 (adverb_to_number_cases five_only "5 times" [])))
             eq_refl).
  - exact (proj1 (proj2 (proj2 (proj2
             (adverb_to_number_cases brittle "often" ["hello"]))))
             "thousand five" eq_refl).
  - apply (proj2 (proj2 (proj2 (proj2
             (adverb_to_number_cases five_only "often" []))))).
    all: first [discriminate | reflexivity].
Defined.

(** C6 as stated fails on "one time": it is neither "once", nor "twice",
    nor of the shape "<N> times", and yet the conversion succeeds with 1
    and utters nothing. *)
Lemma adverb_one_time_succeeds :
  "one time" <> "once" /\ "one time" <> "twice"
  /\ PyStr.endswith " times" "one time" = false
  /\ Utils.adverb_to_number no_words "one time" []
     = (Returns (Some (NInt 1)), []).
Proof.
  repeat split; discriminate.
Qed.

(** C5 at its failing input.  The stream [negation] holds no grouped
    kind; the negation stays in the buffer, the flush after the loop
    finds no line name, and [update] returns false after uttering the
    missing-line message. *)
Theorem trailing_negation_fails : forall word_to_num word s,
  grouped (negation word) = false
  /\ TP.update TP.mall_lines word_to_num [negation word] s
     = Some (Returns false, TP.utter (TP.missing_line_message TP.mall_lines) s).
Proof.
  intros w word [f d]. split; reflexivity.
Qed.

(** ** Invariants of the two interpreters *)

Lemma bind_sat {S A B} (P : A -> Prop) (P' : B -> Prop) (Q E : S -> Prop)
  (m : ctl S A) (k : A -> ctl S B) :
  ctl_sat P Q E m -> (forall a, P a -> ctl_sat P' Q E (k a)) ->
  ctl_sat P' Q E (bind m k).
Proof. destruct m; cbn; auto. Qed.

Lemma for_each_sat {S A X} (P : A -> Prop) (Q E : S -> Prop)
  (body : X -> A -> ctl S A) :
  (forall e a, P a -> ctl_sat P Q E (body e a)) ->
  forall es a, P a -> ctl_sat P Q E (for_each body es a).
Proof.
  intros Hbody es. induction es as [|e es IH]; intros a Ha; cbn.
  - exact Ha.
  - eapply bind_sat; [apply Hbody, Ha | exact IH].
Qed.

Section DictFacts.
Variable keys : list string.

Lemma lookup_typed : forall (g : group) k v,
  well_typed keys g -> PyStr.elem k keys = true -> lookup k g <> Some (Plain v).
Proof.
  intros g k v Hg Hk. induction Hg as [|[k' v'] g Hkv _ IH]; cbn.
  - discriminate.
  - destruct (String.eqb_spec k' k) as [->|_]; [|exact IH].
    intros [= ->]. unfold entry_typed in Hkv. cbn in Hkv. congruence.
Qed.

Lemma assign_typed : forall (g : group) k v,
  well_typed keys g -> entry_typed keys (k, v) -> well_typed keys (assign k v g).
Proof.
  intros g k v Hg Hkv. induction g as [|[k' v'] g IH]; cbn.
  - repeat constructor. exact Hkv.
  - inversion Hg as [|? ? Hhd Htl]; subst.
    destruct (String.eqb_spec k' k) as [->|_]; constructor; auto.
    apply IH, Htl.
Qed.

Lemma remove_typed : forall (g : group) k,
  well_typed keys g -> well_typed keys (remove k g).
Proof.
  intros g k Hg. unfold remove, well_typed in *.
  rewrite Forall_forall in *. intros x Hx. apply filter_In in Hx. now apply Hg.
Qed.

Lemma last_item_typed : forall (g : group) kv,
  well_typed keys g -> last_item g = Some kv -> entry_typed keys kv.
Proof.
  intros g kv Hg. unfold last_item.
  destruct (rev g) as [|x l] eqn:E; [discriminate|]. intros [= ->].
  unfold well_typed in Hg. rewrite Forall_forall in Hg. apply Hg.
  apply in_rev. rewrite E. now left.
Qed.

Lemma last_item_has_key : forall (g : group) k,
  has_key k g = true -> last_item g <> None.
Proof.
  intros g k. unfold last_item. destruct g as [|x g]; [discriminate|].
  intros _. cbn. destruct (rev g ++ [x]) eqn:E; [|discriminate].
  now apply app_eq_nil in E.
Qed.

Lemma paired_entry_typed : forall (g : group) k,
  well_typed keys g -> PyStr.elem k keys = true -> TP.paired_entry k g <> None.
Proof.
  intros g k Hg Hk. unfold TP.paired_entry.
  destruct (lookup k g) as [[v|v n]|] eqn:E; try discriminate.
  exfalso. eapply lookup_typed; eauto.
Qed.
End DictFacts.

Section PeopleInvariants.

Variable conf : TP.lines.
Variable word_to_num : string -> parse number.

(** A property of the fields that every write of the interpreter keeps. *)
Variable F : TP.fields -> Prop.
Hypothesis F_line1 : forall f n b, F f -> F (TP.set_line1 (threshold n b) f).
Hypothesis F_line2 : forall f n b, F f -> F (TP.set_line2 (threshold n b) f).
Hypothesis F_line3 : forall f n b, F f -> F (TP.set_line3 (threshold n b) f).
Hypothesis F_line4 : forall f n b, F f -> F (TP.set_line4 (threshold n b) f).
Hypothesis F_hat : forall f b, F f -> F (TP.set_hat (PBool b) f).
Hypothesis F_bag : forall f b, F f -> F (TP.set_bag (PBool b) f).
Hypothesis F_gender : forall f v, F f -> F (TP.set_gender (PStr v) f).

(** What the normaliser can do to the dispatcher: one message when it
    returns the failure value, nothing otherwise. *)
Lemma adverb_to_number_says : forall a d,
  let r := Utils.adverb_to_number word_to_num a d in
  (fst r = Returns None -> exists m, snd r = d ++ [m])
  /\ (fst r <> Returns None -> snd r = d).
Proof.
  intros a d. unfold Utils.adverb_to_number, utter_message.
  repeat match goal with
         | |- context [if ?c then _ else _] => destruct c
         | |- context [match ?c with Parsed _ => _ | _ => _ end] => destruct c
         end; cbn; split; intros; try congruence; eauto.
Qed.

(** What a flush can do: succeed silently, possibly committing one
    threshold pair, fail with the fields intact and one message, or be
    left by the exception of the parser with the object intact. *)
Lemma update_line_cases : forall g s,
  well_typed people_keys g ->
  exists b s', TP.update_line conf word_to_num g s = Some (b, s')
    /\ (F (TP.foi s) -> F (TP.foi s'))
    /\ (b = Returns false -> TP.foi s' = TP.foi s
                     /\ exists m, TP.said s' = TP.said s ++ [m])
    /\ (b = Returns true -> TP.said s' = TP.said s
                    /\ TP.gender (TP.foi s') = TP.gender (TP.foi s)
                    /\ TP.bag (TP.foi s') = TP.bag (TP.foi s)
                    /\ TP.hat (TP.foi s') = TP.hat (TP.foi s))
    /\ (b = Raises -> s' = s).
Proof.
  intros g [f d] Hg. unfold TP.update_line.
  pose proof (paired_entry_typed _ g "passages" Hg eq_refl) as Hp.
  pose proof (paired_entry_typed _ g "line" Hg eq_refl) as Hl.
  destruct (TP.paired_entry "passages" g) as [p|]; [|congruence].
  destruct (TP.paired_entry "line" g) as [l|]; [|congruence].
  pose proof (fun a => adverb_to_number_says a d) as Hadv.
  destruct p as [[adverb neg]|]; cbn [TP.foi TP.said].
  - specialize (Hadv adverb). cbn in Hadv.
    destruct (Utils.adverb_to_number word_to_num adverb d) as [[[n|]|] d'];
      cbn [fst snd] in Hadv; destruct Hadv as [Hn Hs].
    + rewrite (Hs ltac:(discriminate)).
      destruct l as [[line negl]|].
      * repeat match goal with
               | |- context [if ?c then _ else _] => destruct c
               end;
        (eexists _, _; (split; [reflexivity|]); cbn;
        repeat split; try congruence; intros;
        try (first [apply F_line1 | apply F_line2 | apply F_line3
                   | apply F_line4]; assumption);
        unfold utter_message; eauto; try assumption).
      * eexists _, _; (split; [reflexivity|]); cbn;
        repeat split; try congruence; intros; unfold utter_message; eauto;
        try assumption.
    + destruct (Hn eq_refl) as [m ->].
      eexists _, _; (split; [reflexivity|]); cbn.
      repeat split; try congruence; intros; eauto;
      try assumption.
    + rewrite (Hs ltac:(discriminate)).
      eexists _, _; (split; [reflexivity|]); cbn.
      repeat split; try congruence; intros; eauto;
      try assumption.
  - destruct l as [[line negl]|].
    * repeat match goal with
               | |- context [if ?c then _ else _] => destruct c
               end;
        eexists _, _; (split; [reflexivity|]); cbn;
        repeat split; try congruence; intros;
        try (first [apply F_line1 | apply F_line2 | apply F_line3
                   | apply F_line4]; assumption);
        unfold utter_message; eauto; try assumption.
    * eexists _, _; (split; [reflexivity|]); cbn;
        repeat split; try congruence; intros; unfold utter_message; eauto;
        try assumption.
Qed.

Lemma people_flush_sat : forall g s,
  well_typed people_keys g -> people_tracker_sat F s ->
  ctl_sat (people_tracker_sat F) (people_tracker_sat F)
    (people_tracker_sat F)
    (TP.flush conf word_to_num g s).
Proof.
  intros g s Hg Hs. unfold TP.flush.
  destruct (update_line_cases g s Hg) as (b & s' & -> & H & _).
  destruct b as [[|]|]; cbn; apply H, Hs.
Qed.

Lemma people_body_sat : forall e st,
  people_loop_sat F st -> ctl_sat (people_loop_sat F) (people_tracker_sat F)
    (people_tracker_sat F) (TP.body conf word_to_num e st).
Proof.
  intros [k v] [g lf s] [Hg Hs]. unfold TP.body. cbn [entity_key entity_value].
  cbn [TP.line_flag TP.current_group TP.self] in Hg, Hs.
  eapply bind_sat with (P := (people_loop_sat F)).
  - destruct (PyStr.elem k ["passages"; "line"]) eqn:Hk.
    + eapply bind_sat with (P := (people_loop_sat F)).
      * cbn [TP.line_flag TP.current_group TP.self].
        destruct (lf && has_key k g) eqn:Hc; [|split; assumption].
        eapply bind_sat; [apply people_flush_sat; assumption|].
        intros s' Hs'. apply andb_prop in Hc. destruct Hc as [_ Hc].
        pose proof (last_item_has_key g k Hc) as Hl.
        destruct (last_item g) as [[key value]|] eqn:El; [|congruence].
        split; [|exact Hs']. cbn.
        destruct (String.eqb key "negation"); [|constructor].
        repeat constructor. eapply last_item_typed; eauto.
      * intros [g' lf' s'] [Hg' Hs'].
        cbn [TP.line_flag TP.current_group TP.self] in *. split; [|exact Hs'].
        cbn [TP.line_flag TP.current_group TP.self].
        apply assign_typed; [|exact I].
        destruct (has_key "negation" g'); cbn [negb];
          [apply remove_typed|]; assumption.
    + eapply bind_sat with (P := (people_loop_sat F)).
      * cbn [TP.line_flag TP.current_group TP.self].
        destruct (lf && String.eqb k "negation"); [split; assumption|].
        eapply bind_sat with (P := (people_loop_sat F)).
        -- destruct (lf && negb (String.eqb k "negation")); [|split; assumption].
           eapply bind_sat; [apply people_flush_sat; assumption|].
           intros s' Hs'. split; [constructor|exact Hs'].
        -- intros [g' lf' s'] Hst. exact Hst.
      * intros [g' lf' s'] [Hg' Hs']. split; [|exact Hs'].
        apply assign_typed; [assumption|exact Hk].
  - intros [g' lf' s'] [Hg' Hs']. eapply bind_sat with (P := (people_loop_sat F)).
    + cbn [TP.line_flag TP.current_group TP.self].
      destruct (forallb _ _); [|split; assumption].
      eapply bind_sat; [apply people_flush_sat; assumption|].
      intros s'' Hs''. split; [constructor|exact Hs''].
    + intros [g'' lf'' s''] [Hg'' Hs'']. cbn [TP.line_flag TP.current_group TP.self].
      destruct (negb lf''); [|split; assumption].
      destruct (PyStr.contains "clothing" k).
      * split; [constructor|]. unfold people_tracker_sat in *.
        cbn [TP.self] in *. unfold TP.update_clothing.
        destruct (String.eqb v "hat"); [apply F_hat, Hs''|].
        destruct (String.eqb v "bag"); [apply F_bag, Hs''|exact Hs''].
      * destruct (PyStr.contains "gender" k); [|split; assumption].
        split; [constructor|]. unfold people_tracker_sat in *.
        cbn [TP.self] in *. unfold TP.update_gender. apply F_gender, Hs''.
Qed.

Lemma people_update_sat : forall es s,
  people_tracker_sat F s ->
  exists b s', TP.update conf word_to_num es s = Some (b, s')
               /\ people_tracker_sat F s'.
Proof.
  intros es s Hs. unfold TP.update, TP.conclude, TP.loop.
  pose proof (for_each_sat (people_loop_sat F) (people_tracker_sat F)
                (people_tracker_sat F) _
                people_body_sat es (TP.Loop [] false s)
                (conj (Forall_nil _) Hs)) as H.
  destruct (for_each _ es _) as [[g lf s']| s' | s' |]; cbn in H.
  - destruct H as [Hg Hs']. unfold TP.finish. cbn.
    destruct (nonempty g); [|eauto].
    destruct (update_line_cases g s' Hg) as (b & s'' & -> & Hok & _).
    exists b, s''. split; [reflexivity | apply Hok, Hs'].
  - eauto.
  - eauto.
  - contradiction.
Qed.
End PeopleInvariants.

Lemma thresholds_kept_by_line : forall f n b,
  people_thresholds_ok f ->
  people_thresholds_ok (TP.set_line1 (threshold n b) f)
  /\ people_thresholds_ok (TP.set_line2 (threshold n b) f)
  /\ people_thresholds_ok (TP.set_line3 (threshold n b) f)
  /\ people_thresholds_ok (TP.set_line4 (threshold n b) f).
Proof.
  intros f n b (H1 & H2 & H3 & H4).
  assert (threshold_ok (threshold n b)) by (right; eauto).
  repeat split; cbn; assumption.
Qed.

(** [update] is never ill-typed and keeps the threshold fields
    complete, whether it returns or the exception of the parser goes
    through it. *)
Lemma people_update_ok : forall conf word_to_num es s,
  people_tracker_ok s ->
  exists b s', TP.update conf word_to_num es s = Some (b, s')
               /\ people_tracker_ok s'.
Proof.
  intros conf w. apply people_update_sat; intros f; intros; try assumption;
    now apply thresholds_kept_by_line.
Qed.

(** On a well-typed buffer an iteration is never ill-typed. *)
Lemma body_never_wrong : forall conf word_to_num e st,
  well_typed people_keys (TP.current_group st) ->
  TP.body conf word_to_num e st <> Wrong.
Proof.
  intros conf w e st Hg H.
  pose proof (people_body_sat conf w (fun _ => True)
                ltac:(auto) ltac:(auto) ltac:(auto) ltac:(auto)
                ltac:(auto) ltac:(auto) ltac:(auto) e st (conj Hg I)) as Hs.
  now rewrite H in Hs.
Qed.

(** The buffer of a state that the loop reaches is well typed. *)
Lemma loop_typed : forall conf word_to_num es s st,
  TP.loop conf word_to_num es s = Go st ->
  well_typed people_keys (TP.current_group st).
Proof.
  intros conf w es s st H.
  pose proof (for_each_sat (people_loop_sat (fun _ => True)) (fun _ => True)
                (fun _ => True) _
                (people_body_sat conf w (fun _ => True)
                   ltac:(auto) ltac:(auto) ltac:(auto) ltac:(auto)
                   ltac:(auto) ltac:(auto) ltac:(auto))
                es (TP.Loop [] false s) (conj (Forall_nil _) I)) as Hs.
  unfold TP.loop in H. rewrite H in Hs. apply Hs.
Qed.

Section GroupInvariants.

Variable word_to_num : string -> parse number.
Variable py_int : string -> option Z.
Variable py_float : string -> option float.

Lemma update_score_cases : forall g s,
  well_typed group_keys g ->
  exists b s', TG.update_score word_to_num py_int py_float g s = Some (b, s')
    /\ (group_tracker_ok s -> group_tracker_ok s').
Proof.
  intros g [f d] Hg. unfold TG.update_score.
  destruct (lookup "mark" g) as [[v|word neg]|] eqn:E.
  - exfalso. exact (lookup_typed group_keys g "mark" v Hg eq_refl E).
  - destruct (Utils.word_to_number _ _ _ word _) as [[[n|]|] d'];
      eexists _, _; (split; [reflexivity|]); cbn; auto.
    all: unfold group_tracker_ok, group_threshold_ok; cbn; intros H; auto.
    right. unfold threshold. eauto.
  - eexists _, _; (split; [reflexivity|]); auto.
Qed.

Lemma group_flush_ok : forall g s,
  well_typed group_keys g -> group_tracker_ok s ->
  ctl_sat group_tracker_ok group_tracker_ok group_tracker_ok
    (TG.flush word_to_num py_int py_float g s).
Proof.
  intros g s Hg Hs. unfold TG.flush.
  destruct (update_score_cases g s Hg) as (b & s' & -> & H).
  destruct b as [[|]|]; cbn; apply H, Hs.
Qed.

Lemma group_body_ok : forall e st,
  group_loop_ok st ->
  ctl_sat group_loop_ok group_tracker_ok group_tracker_ok
    (TG.body word_to_num py_int py_float e st).
Proof.
  intros [k v] [g lf s] [Hg Hs]. unfold TG.body. cbn [entity_key entity_value].
  cbn [TG.score_flag TG.current_group TG.self] in Hg, Hs.
  eapply bind_sat with (P := group_loop_ok).
  - destruct (PyStr.elem k ["mark"]) eqn:Hk.
    + eapply bind_sat with (P := group_loop_ok).
      * cbn [TG.score_flag TG.current_group TG.self].
        destruct (lf && has_key k g) eqn:Hc; [|split; assumption].
        eapply bind_sat; [apply group_flush_ok; assumption|].
        intros s' Hs'. apply andb_prop in Hc. destruct Hc as [_ Hc].
        pose proof (last_item_has_key g k Hc) as Hl.
        destruct (last_item g) as [[key value]|] eqn:El; [|congruence].
        split; [|exact Hs']. cbn.
        destruct (String.eqb key "negation"); [|constructor].
        repeat constructor. eapply last_item_typed; eauto.
      * intros [g' lf' s'] [Hg' Hs'].
        cbn [TG.score_flag TG.current_group TG.self] in *. split; [|exact Hs'].
        cbn [TG.score_flag TG.current_group TG.self].
        apply assign_typed; [|exact I].
        destruct (has_key "negation" g'); cbn [negb];
          [apply remove_typed|]; assumption.
    + eapply bind_sat with (P := group_loop_ok).
      * cbn [TG.score_flag TG.current_group TG.self].
        destruct (lf && String.eqb k "negation"); [split; assumption|].
        eapply bind_sat with (P := group_loop_ok).
        -- destruct (lf && negb (String.eqb k "negation")); [|split; assumption].
           eapply bind_sat; [apply group_flush_ok; assumption|].
           intros s' Hs'. split; [constructor|exact Hs'].
        -- intros [g' lf' s'] Hst. exact Hst.
      * intros [g' lf' s'] [Hg' Hs']. split; [|exact Hs'].
        apply assign_typed; [assumption|exact Hk].
  - intros [g' lf' s'] [Hg' Hs'].
    cbn [TG.score_flag TG.current_group TG.self].
    destruct (forallb _ _); [|split; assumption].
    eapply bind_sat; [apply group_flush_ok; assumption|].
    intros s'' Hs''. split; [constructor|exact Hs''].
Qed.

Lemma group_update_ok : forall es s,
  group_tracker_ok s ->
  exists b s', TG.update word_to_num py_int py_float es s = Some (b, s')
               /\ group_tracker_ok s'.
Proof.
  intros es s Hs. unfold TG.update, TG.loop.
  pose proof (for_each_sat group_loop_ok group_tracker_ok group_tracker_ok _
                (group_body_ok) es (TG.Loop [] false s)
                (conj (Forall_nil _) Hs)) as H.
  destruct (for_each _ es _) as [[g lf s']| s' | s' |]; cbn in H.
  - destruct H as [Hg Hs']. unfold TG.finish. cbn.
    destruct (nonempty g); [|eauto].
    destruct (update_score_cases g s' Hg) as (b & s'' & -> & Hok). eauto.
  - eauto.
  - eauto.
  - contradiction.
Qed.
End GroupInvariants.

(** C9. Every interpreter operation preserves the invariant: if the four
    line-passage fields (and, for groups, the score field) are each
    unset or a complete (bound, direction) pair, then [update] is never
    ill-typed and they still are when it ends, whether it returned true
    or false or was left by the exception of the word parser; the fields
    set by the constructors satisfy it, so it holds after any sequence
    of updates, whatever each of them did. *)
Theorem threshold_fields_stay_complete :
  forall conf word_to_num py_int py_float,
  (forall es s, people_thresholds_ok (TP.foi s) ->
     exists b s', TP.update conf word_to_num es s = Some (b, s')
                  /\ people_thresholds_ok (TP.foi s'))
  /\ (forall es s, group_threshold_ok (TG.foi s) ->
        exists b s', TG.update word_to_num py_int py_float es s = Some (b, s')
                     /\ group_threshold_ok (TG.foi s'))
  /\ (forall turns d,
        exists s', people_turns conf word_to_num turns (TP.Self TP.initial_foi d)
                   = Some s'
                   /\ people_thresholds_ok (TP.foi s'))
  /\ (forall turns d,
        exists s', group_turns word_to_num py_int py_float turns
                     (TG.Self TG.initial_foi d) = Some s'
                   /\ group_threshold_ok (TG.foi s')).
Proof.
  intros conf w pint pfloat.
  assert (Hp : forall turns s, people_tracker_ok s ->
            exists s', people_turns conf w turns s = Some s'
                       /\ people_tracker_ok s').
  { induction turns as [|es turns IH]; intros s Hs; cbn; [eauto|].
    destruct (people_update_ok conf w es s Hs) as (b & s' & -> & Hs').
    apply IH, Hs'. }
  assert (Hg : forall turns s, group_tracker_ok s ->
            exists s', group_turns w pint pfloat turns s = Some s'
                       /\ group_tracker_ok s').
  { induction turns as [|es turns IH]; intros s Hs; cbn; [eauto|].
    destruct (group_update_ok w pint pfloat es s Hs) as (b & s' & -> & Hs').
    apply IH, Hs'. }
  split; [|split; [|split]].
  - intros es s Hs. apply people_update_ok, Hs.
  - intros es s Hs. apply group_update_ok, Hs.
  - intros turns d. apply Hp. repeat split; left; reflexivity.
  - intros turns d. apply Hg. left; reflexivity.
Qed.

(** The witness of C9: an update on a people object whose alpha-line
    field already holds a pair, and one on a fresh groups object. *)
Lemma threshold_fields_stay_complete_witness :
  (exists b s',
     TP.update TP.mall_lines no_words [line "beta line"; passages "often"]
       (TP.Self (TP.set_line1 (threshold (NInt 2) false) TP.initial_foi) [])
     = Some (b, s')
     /\ people_thresholds_ok (TP.foi s'))
  /\ (exists b s',
        TG.update no_words (fun _ => None) (fun _ => None)
          [negation "not"; mark "seven"]
          (TG.Self TG.initial_foi [])
        = Some (b, s')
        /\ group_threshold_ok (TG.foi s')).
Proof.
  split.
  - apply (proj1 (threshold_fields_stay_complete
                    TP.mall_lines no_words (fun _ => None) (fun _ => None))).
    cbn. repeat split; try (left; reflexivity).
    right. exists (NInt 2), false. reflexivity.
  - apply (proj1 (proj2 (threshold_fields_stay_complete
                    TP.mall_lines no_words (fun _ => None) (fun _ => None)))).
    left. reflexivity.
Defined.

(** ** Scope of a negation *)

Lemma bind_Go {S A B} (m : ctl S A) (k : A -> ctl S B) b :
  bind m k = Go b -> exists a, m = Go a /\ k a = Go b.
Proof. destruct m; cbn; intros H; try discriminate; eauto. Qed.

Lemma has_key_assign : forall (g : group) k k' v,
  has_key k' (assign k v g) = String.eqb k k' || has_key k' g.
Proof.
  intros g k k' v. unfold has_key. induction g as [|[k0 v0] g IH]; cbn.
  - now rewrite orb_false_r.
  - destruct (String.eqb_spec k0 k) as [->|Hne]; cbn.
    + destruct (String.eqb k k'); reflexivity.
    + rewrite IH. destruct (String.eqb k0 k'), (String.eqb k k'); reflexivity.
Qed.

Lemma has_key_remove : forall (g : group) k k',
  has_key k' (remove k g) = negb (String.eqb k k') && has_key k' g.
Proof.
  intros g k k'. unfold has_key, remove.
  induction g as [|[k0 v0] g IH]; cbn.
  - now rewrite andb_false_r.
  - destruct (String.eqb_spec k0 k) as [->|Hne]; cbn.
    + rewrite IH. destruct (String.eqb k k'); reflexivity.
    + rewrite IH. destruct (String.eqb_spec k0 k') as [->|?]; cbn; [|reflexivity].
      apply String.eqb_neq in Hne. rewrite String.eqb_sym in Hne. now rewrite Hne.
Qed.

Lemma resolves_key : forall e,
  resolves e = true ->
  grouped e = false /\ String.eqb (entity_key e) "negation" = false.
Proof.
  intros [k v]. unfold resolves, grouped. cbn [entity_key]. intros H.
  split.
  - unfold PyStr.elem. cbn [existsb].
    destruct (String.eqb_spec k "passages") as [->|_]; [discriminate H|].
    destruct (String.eqb_spec k "line") as [->|_]; [discriminate H|].
    reflexivity.
  - destruct (String.eqb_spec k "negation") as [->|_]; [discriminate H|].
    reflexivity.
Qed.

Lemma grouped_key : forall e,
  grouped e = true ->
  resolves e = false /\ String.eqb (entity_key e) "negation" = false.
Proof.
  intros [k v]. unfold resolves, grouped, PyStr.elem. cbn [entity_key existsb].
  destruct (String.eqb_spec k "passages") as [->|_]; [intros _; split; reflexivity|].
  destruct (String.eqb_spec k "line") as [->|_]; [intros _; split; reflexivity|].
  discriminate.
Qed.

Section ClauseFacts.

Variable conf : TP.lines.
Variable word_to_num : string -> parse number.

Lemma flush_Go : forall g s s',
  TP.flush conf word_to_num g s = Go s' ->
  TP.update_line conf word_to_num g s = Some (Returns true, s').
Proof.
  intros g s s'. unfold TP.flush.
  destruct (TP.update_line _ _ g s) as [[[[]|] ?]|]; intros [=]; congruence.
Qed.

(** After a grouped entity the buffer holds no negation; after a clothing
    or gender entity it is empty. *)
Lemma body_closes_clause : forall e st st',
  TP.body conf word_to_num e st = Go st' ->
  (grouped e = true -> has_key "negation" (TP.current_group st') = false)
  /\ (resolves e = true ->
      TP.current_group st' = [] /\ TP.line_flag st' = false).
Proof.
  intros [k v] [g lf s] st' H. unfold TP.body in H.
  cbn [entity_key entity_value] in H.
  apply bind_Go in H. destruct H as (st1 & H1 & H).
  apply bind_Go in H. destruct H as (st2 & H2 & H3).
  split.
  - intros Hg. destruct (grouped_key _ Hg) as [Hr Hn].
    unfold grouped in Hg. cbn [entity_key] in *. rewrite Hg in H1.
    assert (Hst1 : has_key "negation" (TP.current_group st1) = false).
    { apply bind_Go in H1. destruct H1 as ([g0 lf0 s0] & _ & H1).
      injection H1 as <-. cbn [TP.current_group].
      rewrite has_key_assign, Hn. cbn [orb].
      destruct (has_key "negation" g0) eqn:E; cbn [negb]; [|exact E].
      now rewrite has_key_remove. }
    assert (Hst2 : has_key "negation" (TP.current_group st2) = false).
    { destruct (forallb _ _); [|congruence].
      apply bind_Go in H2. destruct H2 as (? & _ & [= <-]). reflexivity. }
    unfold resolves in Hr. cbn [entity_key] in Hr. apply orb_false_iff in Hr.
    destruct Hr as [Hc Hgd]. rewrite Hc, Hgd in H3.
    destruct (negb _); congruence.
  - intros Hr. destruct (resolves_key _ Hr) as [Hg Hn].
    unfold grouped in Hg. cbn [entity_key] in *. rewrite Hg in H1.
    assert (Hst1 : TP.line_flag st1 = false).
    { apply bind_Go in H1. destruct H1 as ([g0 lf0 s0] & H0 & H1).
      injection H1 as <-. cbn [TP.line_flag].
      cbn [TP.line_flag] in H0. rewrite Hn, andb_false_r in H0.
      apply bind_Go in H0. destruct H0 as (? & _ & [= _ <- _]). reflexivity. }
    assert (Hst2 : TP.line_flag st2 = false).
    { destruct (forallb _ _); [|congruence].
      apply bind_Go in H2. destruct H2 as (? & _ & [= <-]). reflexivity. }
    rewrite Hst2 in H3. cbn [negb] in H3.
    unfold resolves in Hr. cbn [entity_key] in Hr.
    destruct (PyStr.contains "clothing" k); [injection H3 as <-; split; reflexivity|].
    cbn [orb] in Hr. rewrite Hr in H3. injection H3 as <-; split; reflexivity.
Qed.

Lemma for_each_app {S A E} (body : E -> A -> ctl S A) l1 l2 a :
  for_each body (l1 ++ l2) a = bind (for_each body l1 a) (for_each body l2).
Proof.
  revert a. induction l1 as [|e l1 IH]; intros a; cbn; [reflexivity|].
  destruct (body e a); cbn; auto.
Qed.

Lemma update_clothing_affirmed : forall (g : group) item s,
  has_key "negation" g = false ->
  TP.update_clothing g item s = TP.update_clothing [] item s.
Proof. intros g item s H. unfold TP.update_clothing. now rewrite H. Qed.

Lemma update_gender_affirmed : forall (g : group) v s,
  has_key "negation" g = false ->
  TP.update_gender g v s = TP.with_foi (TP.set_gender (PStr v) (TP.foi s)) s.
Proof. intros g v s H. unfold TP.update_gender. now rewrite H. Qed.

(** With no negation in the buffer, a clothing or gender entity resolves
    with affirmed polarity. *)
Lemma body_resolves_affirmed : forall st st',
  has_key "negation" (TP.current_group st) = false ->
  (forall item, TP.body conf word_to_num (clothing item) st = Go st' ->
     exists s1, st' = TP.Loop [] false (TP.update_clothing [] item s1))
  /\ (forall v, TP.body conf word_to_num (gender v) st = Go st' ->
       exists s1, st' = TP.Loop [] false
                          (TP.with_foi (TP.set_gender (PStr v) (TP.foi s1)) s1)).
Proof.
  intros [g lf s] st' Hneg. cbn [TP.current_group] in Hneg.
  split; intros x H; unfold TP.body in H;
    cbn [entity_key entity_value clothing gender] in H;
    apply bind_Go in H; destruct H as (st1 & H1 & H);
    apply bind_Go in H; destruct H as (st2 & H2 & H3).
  all: assert (Hst1 : has_key "negation" (TP.current_group st1) = false
                       /\ TP.line_flag st1 = false)
    by (cbn in H1; apply bind_Go in H1; destruct H1 as ([g0 lf0 s0] & H0 & H1);
        injection H1 as <-; cbn [TP.current_group TP.line_flag];
        rewrite has_key_assign; cbn;
        rewrite andb_false_r in H0;
        apply bind_Go in H0; destruct H0 as ([g1 lf1 s1] & H0 & [= <- <- <-]);
        split; [|reflexivity];
        rewrite andb_true_r in H0; destruct lf;
        [apply bind_Go in H0; destruct H0 as (? & _ & [= <- _ _]); reflexivity
        |injection H0 as <- _ _; exact Hneg]).
  all: assert (Hst2 : has_key "negation" (TP.current_group st2) = false
                       /\ TP.line_flag st2 = false)
    by (destruct (forallb _ _);
        [apply bind_Go in H2; destruct H2 as (? & _ & [= <-]); split; reflexivity
        |injection H2 as <-; exact Hst1]).
  all: destruct Hst2 as [Hn2 Hl2]; rewrite Hl2 in H3; cbn in H3;
    injection H3 as <-; exists (TP.self st2).
  - now rewrite update_clothing_affirmed.
  - now rewrite update_gender_affirmed.
Qed.

(** From an empty buffer outside a line group, the same without a
    condition. *)
Lemma body_resolves_from_empty : forall s,
  (forall item, TP.body conf word_to_num (clothing item) (TP.Loop [] false s)
                = Go (TP.Loop [] false (TP.update_clothing [] item s)))
  /\ (forall v, TP.body conf word_to_num (gender v) (TP.Loop [] false s)
               = Go (TP.Loop [] false
                       (TP.with_foi (TP.set_gender (PStr v) (TP.foi s)) s))).
Proof. intros s. split; intros x; reflexivity. Qed.

End ClauseFacts.

Section NegationScope.

Variable conf : TP.lines.
Variable word_to_num : string -> parse number.

Lemma loop_snoc : forall es x s,
  TP.loop conf word_to_num (es ++ [x]) s
  = bind (TP.loop conf word_to_num es s) (TP.body conf word_to_num x).
Proof.
  intros es x s. unfold TP.loop. rewrite for_each_app.
  destruct (for_each _ es _); cbn; [|reflexivity..].
  destruct (TP.body _ _ x a); reflexivity.
Qed.

Lemma loop_snoc2 : forall es x y s,
  TP.loop conf word_to_num (es ++ [x; y]) s
  = bind (TP.loop conf word_to_num (es ++ [x]) s) (TP.body conf word_to_num y).
Proof.
  intros es x y s. change [x; y] with ([x] ++ [y]).
  rewrite app_assoc. apply loop_snoc.
Qed.

(** A negation that a clause has consumed does not reach a later
    clause: [negation, clothing hat] sets has-hat to false and
    [clothing hat] alone sets it to true; once a clothing or gender
    entity has resolved the buffer is empty, and once a grouped entity
    has taken the negation the buffer holds none, so a clothing or
    gender entity that comes next resolves with affirmed polarity
    ("hat" and "bag" store true, a gender is stored verbatim), unless
    the flush of the pending line group ends the turn first. *)
Lemma consumed_negation_does_not_leak :
  (forall word s,
     TP.update conf word_to_num [negation word; clothing "hat"] s
     = Some (Returns true, TP.with_foi (TP.set_hat (PBool false) (TP.foi s)) s))
  /\ (forall s,
        TP.update conf word_to_num [clothing "hat"] s
        = Some (Returns true, TP.with_foi (TP.set_hat (PBool true) (TP.foi s)) s))
  /\ (forall pre e s st,
        resolves e = true ->
        TP.loop conf word_to_num (pre ++ [e]) s = Go st ->
        TP.current_group st = []
        /\ TP.loop conf word_to_num (pre ++ [e; clothing "hat"]) s
           = Go (TP.Loop [] false
                   (TP.with_foi (TP.set_hat (PBool true) (TP.foi (TP.self st)))
                      (TP.self st)))
        /\ TP.loop conf word_to_num (pre ++ [e; clothing "bag"]) s
           = Go (TP.Loop [] false
                   (TP.with_foi (TP.set_bag (PBool true) (TP.foi (TP.self st)))
                      (TP.self st)))
        /\ forall v,
             TP.loop conf word_to_num (pre ++ [e; gender v]) s
             = Go (TP.Loop [] false
                     (TP.with_foi (TP.set_gender (PStr v) (TP.foi (TP.self st)))
                        (TP.self st))))
  /\ (forall pre e s st,
        grouped e = true ->
        TP.loop conf word_to_num (pre ++ [e]) s = Go st ->
        has_key "negation" (TP.current_group st) = false
        /\ ctl_sat (fun st' => TP.hat (TP.foi (TP.self st')) = PBool true)
             (fun _ => True) (fun _ => True)
             (TP.loop conf word_to_num (pre ++ [e; clothing "hat"]) s)
        /\ ctl_sat (fun st' => TP.bag (TP.foi (TP.self st')) = PBool true)
             (fun _ => True) (fun _ => True)
             (TP.loop conf word_to_num (pre ++ [e; clothing "bag"]) s)
        /\ (forall v,
              ctl_sat (fun st' => TP.gender (TP.foi (TP.self st')) = PStr v)
                (fun _ => True) (fun _ => True)
                (TP.loop conf word_to_num (pre ++ [e; gender v]) s))).
Proof.
  split; [intros word [f d]; reflexivity|].
  split; [intros [f d]; reflexivity|].
  split.
  - intros pre e s st He Hst.
    pose proof Hst as Hst'. rewrite loop_snoc in Hst'.
    apply bind_Go in Hst'. destruct Hst' as (st0 & _ & Hbody).
    destruct (proj2 (body_closes_clause _ _ _ _ _ Hbody) He) as [Hg Hl].
    destruct st as [g lf s1]. cbn [TP.current_group TP.line_flag TP.self] in *.
    subst g lf. split; [reflexivity|].
    repeat split; try intros v; rewrite loop_snoc2, Hst; cbn [bind].
    + exact (proj1 (body_resolves_from_empty conf word_to_num s1) "hat").
    + exact (proj1 (body_resolves_from_empty conf word_to_num s1) "bag").
    + exact (proj2 (body_resolves_from_empty conf word_to_num s1) v).
  - intros pre e s st He Hst.
    pose proof Hst as Hst'. rewrite loop_snoc in Hst'.
    apply bind_Go in Hst'. destruct Hst' as (st0 & _ & Hbody).
    pose proof (proj1 (body_closes_clause _ _ _ _ _ Hbody) He) as Hneg.
    split; [exact Hneg|].
    pose proof (loop_typed _ _ _ _ _ Hst) as Htyped.
    repeat split; try intros v; rewrite loop_snoc2, Hst; cbn [bind];
      match goal with
      | |- ctl_sat _ _ _ ?m => destruct m as [st'| | |] eqn:H
      end; cbn [ctl_sat]; try exact I;
      try (now apply body_never_wrong in H).
    + apply (proj1 (body_resolves_affirmed _ _ _ _ Hneg)) in H.
      destruct H as [s1 ->]. reflexivity.
    + apply (proj1 (body_resolves_affirmed _ _ _ _ Hneg)) in H.
      destruct H as [s1 ->]. reflexivity.
    + apply (proj2 (body_resolves_affirmed _ _ _ _ Hneg)) in H.
      destruct H as [s1 ->]. reflexivity.
Qed.

End NegationScope.

(** ** Unknown line names *)

Lemma lookup_assign_other : forall (g : group) k k' v,
  String.eqb k k' = false -> lookup k' (assign k v g) = lookup k' g.
Proof.
  intros g k k' v Hne. induction g as [|[k0 v0] g IH]; cbn.
  - now rewrite Hne.
  - destruct (String.eqb_spec k0 k) as [->|_]; cbn.
    + now rewrite Hne.
    + now rewrite IH.
Qed.

Lemma lookup_assign_same : forall (g : group) k v,
  lookup k (assign k v g) = Some v.
Proof.
  intros g k v. induction g as [|[k0 v0] g IH]; cbn.
  - now rewrite String.eqb_refl.
  - destruct (String.eqb_spec k0 k) as [->|Hne]; cbn.
    + now rewrite String.eqb_refl.
    + apply String.eqb_neq in Hne. now rewrite Hne.
Qed.

Lemma lookup_remove_other : forall (g : group) k k',
  String.eqb k k' = false -> lookup k' (remove k g) = lookup k' g.
Proof.
  intros g k k' Hne. unfold remove. induction g as [|[k0 v0] g IH]; cbn.
  - reflexivity.
  - destruct (String.eqb_spec k0 k) as [->|_]; cbn.
    + now rewrite Hne.
    + now rewrite IH.
Qed.

Lemma has_key_lookup : forall (g : group) k,
  has_key k g = false <-> lookup k g = None.
Proof.
  intros g k. unfold has_key. induction g as [|[k0 v0] g IH]; cbn.
  - tauto.
  - destruct (String.eqb k0 k); cbn; [split; discriminate|exact IH].
Qed.

Lemma adverb_converts : forall w adverb,
  converts w adverb ->
  exists n, forall d,
    Utils.adverb_to_number w adverb d = (Returns (Some n), d).
Proof.
  intros w adverb. unfold converts, Utils.adverb_to_number.
  repeat match goal with
         | |- context [if ?c then _ else _] => destruct c
         | |- context [match ?c with Parsed _ => _ | _ => _ end] => destruct c
         end; cbn; intros [n H]; try congruence; eauto.
Qed.

Lemma for_each_Go_inv {S A E} (P : A -> Prop) (body : E -> A -> ctl S A) :
  (forall e a b, P a -> body e a = Go b -> P b) ->
  forall es a b, P a -> for_each body es a = Go b -> P b.
Proof.
  intros Hbody es. induction es as [|e es IH]; intros a b Ha H; cbn in H.
  - now injection H as <-.
  - apply bind_Go in H. destruct H as (a' & H1 & H2). eauto.
Qed.

Section UnknownLineFlush.

Variable conf : TP.lines.
Variable word_to_num : string -> parse number.

Lemma update_line_unknown : forall g s name neg,
  lookup "line" g = Some (Paired name neg) ->
  unknown_line conf name ->
  (lookup "passages" g = None
   \/ exists adverb polarity,
        lookup "passages" g = Some (Paired adverb polarity)
        /\ converts word_to_num adverb) ->
  TP.update_line conf word_to_num g s
  = Some (Returns false, TP.utter (TP.unknown_line_message conf name) s).
Proof.
  intros g [f d] name neg Hl (H1 & H2 & H3 & H4) Hq.
  apply String.eqb_neq in H1, H2, H3, H4.
  unfold TP.update_line, TP.paired_entry. rewrite Hl.
  destruct Hq as [-> | (adverb & pol & -> & Hc)].
  - cbn. now rewrite H1, H2, H3, H4.
  - destruct (adverb_converts _ _ Hc) as [n Hn]. cbn. rewrite Hn.
    now rewrite H1, H2, H3, H4.
Qed.

Lemma flush_unknown : forall g s name neg,
  lookup "line" g = Some (Paired name neg) ->
  unknown_line conf name ->
  (lookup "passages" g = None
   \/ exists adverb polarity,
        lookup "passages" g = Some (Paired adverb polarity)
        /\ converts word_to_num adverb) ->
  TP.flush conf word_to_num g s
  = ReturnFalse (TP.utter (TP.unknown_line_message conf name) s).
Proof.
  intros. unfold TP.flush. erewrite update_line_unknown by eauto. reflexivity.
Qed.

Lemma body_negation_deferred : forall word g s,
  has_key "passages" g && has_key "line" g = false ->
  TP.body conf word_to_num (negation word) (TP.Loop g true s)
  = Go (TP.Loop (assign "negation" (Plain word) g) true s).
Proof.
  intros word g s H. unfold TP.body. cbn.
  fold (has_key "passages" (assign "negation" (Plain word) g)).
  fold (has_key "line" (assign "negation" (Plain word) g)).
  rewrite !has_key_assign. cbn. rewrite andb_true_r, H. reflexivity.
Qed.

Lemma elem_people : forall k,
  PyStr.elem k ["passages"; "line"]
  = String.eqb k "passages" || String.eqb k "line".
Proof. intros k. unfold PyStr.elem. cbn. now rewrite orb_false_r. Qed.

Lemma lookup_nonempty : forall (g : group) k v,
  lookup k g = Some v -> nonempty g = true.
Proof. intros [|? g] k v; [discriminate|reflexivity]. Qed.

Lemma lookup_has_key : forall (g : group) k v,
  lookup k g = Some v -> has_key k g = true.
Proof.
  intros g k v H. destruct (has_key k g) eqn:E; [reflexivity|].
  apply has_key_lookup in E. congruence.
Qed.

(** A pending line group with an unknown name makes [update] fail at its
    flush, whatever comes next, unless the next quantity cannot be
    converted. *)
Lemma pending_line_fails : forall post g s name neg,
  lookup "line" g = Some (Paired name neg) ->
  has_key "passages" g = false ->
  unknown_line conf name ->
  (forall adverb, next_quantity post = Some adverb ->
                  converts word_to_num adverb) ->
  TP.conclude conf word_to_num
    (for_each (TP.body conf word_to_num) post (TP.Loop g true s))
  = Some (Returns false, TP.utter (TP.unknown_line_message conf name) s).
Proof.
  induction post as [|[k v] post IH]; intros g s name neg Hl Hp Hu Hq.
  - cbn. unfold TP.finish. cbn. rewrite (lookup_nonempty _ _ _ Hl).
    apply update_line_unknown with (neg := neg); auto.
    left. now apply has_key_lookup.
  - cbn [for_each]. cbn [next_quantity entity_key entity_value] in Hq.
    destruct (String.eqb_spec k "negation") as [->|Hn].
    + change (Entity "negation" v) with (negation v).
      rewrite body_negation_deferred by (now rewrite Hp).
      cbn [bind]. apply IH with (neg := neg); auto.
      * now rewrite lookup_assign_other.
      * now rewrite has_key_assign.
    + apply String.eqb_neq in Hn.
      unfold TP.body. cbn [entity_key entity_value TP.line_flag TP.current_group TP.self andb].
      rewrite elem_people.
      destruct (String.eqb_spec k "passages") as [->|Hk1].
      * cbn [orb]. rewrite Hp. cbn [bind].
        cbn [TP.line_flag TP.current_group TP.self].
        set (g1 := if negb (negb (has_key "negation" g))
                   then remove "negation" g else g).
        assert (Hl1 : lookup "line" g1 = Some (Paired name neg)).
        { subst g1. destruct (has_key "negation" g); cbn [negb]; [|exact Hl].
          now rewrite lookup_remove_other. }
        cbn [forallb]. rewrite !has_key_assign. cbn [String.eqb Ascii.eqb Bool.eqb orb andb].
        rewrite (lookup_has_key _ _ _ Hl1). cbn [orb andb].
        erewrite flush_unknown; [reflexivity| |exact Hu|].
        -- rewrite lookup_assign_other by reflexivity. exact Hl1.
        -- right. eexists _, _. rewrite lookup_assign_same. split; [reflexivity|].
           apply Hq. reflexivity.
      * cbn [orb].
        destruct (String.eqb_spec k "line") as [->|Hk2].
        -- rewrite (lookup_has_key _ _ _ Hl). cbn [bind].
           erewrite flush_unknown; [reflexivity|exact Hl|exact Hu|].
           left. now apply has_key_lookup.
        -- rewrite Hn. cbn [negb bind].
           erewrite flush_unknown; [reflexivity|exact Hl|exact Hu|].
           left. now apply has_key_lookup.
Qed.

End UnknownLineFlush.

Section UnknownLineStream.

Variable conf : TP.lines.
Variable word_to_num : string -> parse number.

Lemma pending_quantity_fails : forall negs g s adverb polarity name rest,
  lookup "passages" g = Some (Paired adverb polarity) ->
  has_key "line" g = false ->
  converts word_to_num adverb ->
  Forall (fun e => entity_key e = "negation") negs ->
  unknown_line conf name ->
  TP.conclude conf word_to_num
    (for_each (TP.body conf word_to_num) (negs ++ line name :: rest)
       (TP.Loop g true s))
  = Some (Returns false, TP.utter (TP.unknown_line_message conf name) s).
Proof.
  induction negs as [|[k v] negs IH]; intros g s adverb pol name rest Hp Hl Hc Hn Hu.
  - cbn [app for_each]. unfold TP.body.
    cbn [line entity_key entity_value TP.line_flag TP.current_group TP.self andb].
    rewrite elem_people. cbn [String.eqb Ascii.eqb Bool.eqb orb].
    rewrite Hl. cbn [bind TP.line_flag TP.current_group TP.self].
    set (g1 := if negb (negb (has_key "negation" g))
               then remove "negation" g else g).
    assert (Hp1 : lookup "passages" g1 = Some (Paired adverb pol)).
    { subst g1. destruct (has_key "negation" g); cbn [negb]; [|exact Hp].
      now rewrite lookup_remove_other. }
    cbn [forallb]. rewrite !has_key_assign.
    cbn [String.eqb Ascii.eqb Bool.eqb orb andb].
    rewrite (lookup_has_key _ _ _ Hp1). cbn [orb andb].
    erewrite flush_unknown; [reflexivity| |exact Hu|].
    + apply lookup_assign_same.
    + right. exists adverb, pol. split; [|exact Hc].
      now rewrite lookup_assign_other.
  - inversion Hn as [|? ? Hk Hn']; subst. cbn [entity_key] in Hk. subst k.
    cbn [app for_each]. change (Entity "negation" v) with (negation v).
    rewrite body_negation_deferred by (now rewrite Hl, andb_false_r).
    cbn [bind]. apply IH with (adverb := adverb) (polarity := pol); auto.
    + now rewrite lookup_assign_other.
    + now rewrite has_key_assign.
Qed.

Lemma body_pending_shape : forall e st st',
  pending_shape st ->
  TP.body conf word_to_num e st = Go st' ->
  pending_shape st'.
Proof.
  intros [k v] [g lf s] st' [Hlf Hboth] H.
  cbn [TP.current_group TP.line_flag] in Hlf, Hboth.
  unfold TP.body in H. cbn [entity_key entity_value] in H.
  apply bind_Go in H. destruct H as (st1 & H1 & H).
  apply bind_Go in H. destruct H as (st2 & H2 & H3).
  assert (Hst1 : has_key "passages" (TP.current_group st1)
                 || has_key "line" (TP.current_group st1) = true ->
                 TP.line_flag st1 = true).
  { rewrite elem_people in H1.
    destruct (String.eqb k "passages" || String.eqb k "line") eqn:Hk.
    - apply bind_Go in H1. destruct H1 as (? & _ & [= <-]). reflexivity.
    - apply orb_false_iff in Hk. destruct Hk as [Hk1 Hk2].
      apply bind_Go in H1. destruct H1 as ([g0 lf0 s0] & H0 & [= <-]).
      cbn [TP.current_group TP.line_flag] in *.
      rewrite !has_key_assign, Hk1, Hk2. cbn [orb].
      destruct lf; cbn [andb] in H0.
      + destruct (String.eqb k "negation"); cbn [negb] in H0.
        * injection H0 as <- <- <-. reflexivity.
        * apply bind_Go in H0. destruct H0 as (? & H0 & [= <- <- <-]).
          apply bind_Go in H0. destruct H0 as (? & _ & [= <-]).
          cbn. discriminate.
      + apply bind_Go in H0. destruct H0 as (? & [= <-] & [= <- <- <-]).
        cbn [TP.current_group]. intros Hg. now apply Hlf. }
  assert (Hst2 : pending_shape st2).
  { cbn [forallb] in H2. rewrite andb_true_r in H2.
    destruct (has_key "passages" (TP.current_group st1)
              && has_key "line" (TP.current_group st1)) eqn:E.
    - apply bind_Go in H2. destruct H2 as (? & _ & [= <-]).
      split; cbn; [discriminate|reflexivity].
    - injection H2 as <-. split; assumption. }
  destruct (negb (TP.line_flag st2)); [|now injection H3 as <-].
  destruct (PyStr.contains "clothing" k);
    [injection H3 as <-; split; cbn; [discriminate|reflexivity]|].
  destruct (PyStr.contains "gender" k);
    [injection H3 as <-; split; cbn; [discriminate|reflexivity]|].
  now injection H3 as <-.
Qed.

Lemma loop_pending_shape : forall es s st,
  TP.loop conf word_to_num es s = Go st -> pending_shape st.
Proof.
  intros es s st H. unfold TP.loop in H.
  eapply for_each_Go_inv in H; [exact H|apply body_pending_shape|].
  split; cbn; [discriminate|reflexivity].
Qed.

Lemma update_app : forall pre post s st,
  TP.loop conf word_to_num pre s = Go st ->
  TP.update conf word_to_num (pre ++ post) s
  = TP.conclude conf word_to_num
      (for_each (TP.body conf word_to_num) post st).
Proof.
  intros pre post s st H. unfold TP.update, TP.loop in *.
  now rewrite for_each_app, H.
Qed.

(** C4, as the code has it.  When [update] flushes a line group whose
    line name is none of the four configured identifiers and whose
    quantity is absent or converts, the flush writes no field and utters
    the one message that names the unknown line and the four valid
    ones, and [update] returns false with the object as the earlier
    part of the stream left it: fields committed by earlier flushes and
    prior fields keep their values.  This is shown for the flush itself,
    for a stream in which the line name is pending in the buffer, and
    for a stream in which the quantity is pending and the line name
    arrives after it. *)
Theorem unknown_line_fails_at_its_flush :
  (forall g s name neg,
     lookup "line" g = Some (Paired name neg) ->
     unknown_line conf name ->
     (lookup "passages" g = None
      \/ exists adverb polarity,
           lookup "passages" g = Some (Paired adverb polarity)
           /\ converts word_to_num adverb) ->
     TP.update_line conf word_to_num g s
     = Some (Returns false, TP.utter (TP.unknown_line_message conf name) s))
  /\ (forall pre post s st name neg,
        TP.loop conf word_to_num pre s = Go st ->
        lookup "line" (TP.current_group st) = Some (Paired name neg) ->
        unknown_line conf name ->
        (forall adverb, next_quantity post = Some adverb ->
                        converts word_to_num adverb) ->
        TP.update conf word_to_num (pre ++ post) s
        = Some (Returns false,
                TP.utter (TP.unknown_line_message conf name) (TP.self st)))
  /\ (forall pre negs rest s st adverb polarity name,
        TP.loop conf word_to_num pre s = Go st ->
        lookup "passages" (TP.current_group st)
        = Some (Paired adverb polarity) ->
        converts word_to_num adverb ->
        Forall (fun e => entity_key e = "negation") negs ->
        unknown_line conf name ->
        TP.update conf word_to_num (pre ++ negs ++ line name :: rest) s
        = Some (Returns false,
                TP.utter (TP.unknown_line_message conf name) (TP.self st))).
Proof.
  split; [apply update_line_unknown|]. split.
  - intros pre post s [g lf s1] name neg Hpre Hl Hu Hq.
    destruct (loop_pending_shape _ _ _ Hpre) as [Hlf Hboth].
    cbn [TP.current_group TP.line_flag TP.self] in *.
    pose proof (lookup_has_key _ _ _ Hl) as Hhl.
    rewrite Hhl, andb_true_r in Hboth. rewrite Hhl, orb_true_r in Hlf.
    rewrite (Hlf eq_refl) in Hpre.
    rewrite (update_app _ _ _ _ Hpre).
    now apply pending_line_fails with (neg := neg).
  - intros pre negs rest s [g lf s1] adverb pol name Hpre Hp Hc Hn Hu.
    destruct (loop_pending_shape _ _ _ Hpre) as [Hlf Hboth].
    cbn [TP.current_group TP.line_flag TP.self] in *.
    pose proof (lookup_has_key _ _ _ Hp) as Hhp.
    rewrite Hhp in Hboth, Hlf. cbn [andb orb] in Hboth, Hlf.
    rewrite (Hlf eq_refl) in Hpre.
    rewrite (update_app _ _ _ _ Hpre).
    now apply pending_quantity_fails with (adverb := adverb) (polarity := pol).
Qed.

End UnknownLineStream.

(** The witness of C4: the flush of a buffer holding "omega line"; a
    hat committed first, then "omega line"; and "twice", a negation,
    then "omega line". *)
Lemma unknown_line_fails_at_its_flush_witness :
  TP.update_line TP.mall_lines no_words [("line", Paired "omega line" true)]
    (TP.Self TP.initial_foi [])
  = Some (Returns false,
          TP.utter (TP.unknown_line_message TP.mall_lines "omega line")
            (TP.Self TP.initial_foi []))
  /\ TP.update TP.mall_lines no_words
       ([clothing "hat"; line "omega line"] ++ []) (TP.Self TP.initial_foi [])
     = Some (Returns false,
             TP.utter (TP.unknown_line_message TP.mall_lines "omega line")
               (TP.Self (TP.set_hat (PBool true) TP.initial_foi) []))
  /\ TP.update TP.mall_lines no_words
       ([passages "twice"] ++ [negation "not"] ++ line "omega line" :: [])
       (TP.Self TP.initial_foi [])
     = Some (Returns false,
             TP.utter (TP.unknown_line_message TP.mall_lines "omega line")
               (TP.Self TP.initial_foi [])).
Proof.
  assert (Hu : unknown_line TP.mall_lines "omega line")
    by (repeat split; discriminate).
  split; [|split].
  - refine (proj1 (unknown_line_fails_at_its_flush TP.mall_lines no_words)
              [("line", Paired "omega line" true)] (TP.Self TP.initial_foi [])
              "omega line" true eq_refl Hu _).
    left. reflexivity.
  - refine (proj1 (proj2
              (unknown_line_fails_at_its_flush TP.mall_lines no_words))
              [clothing "hat"; line "omega line"] []
              (TP.Self TP.initial_foi [])
              (TP.Loop [("line", Paired "omega line" true)] true
                 (TP.Self (TP.set_hat (PBool true) TP.initial_foi) []))
              "omega line" true eq_refl eq_refl Hu _).
    intros adverb H. discriminate H.
  - refine (proj2 (proj2
              (unknown_line_fails_at_its_flush TP.mall_lines no_words))
              [passages "twice"] [negation "not"] []
              (TP.Self TP.initial_foi [])
              (TP.Loop [("passages", Paired "twice" true)] true
                 (TP.Self TP.initial_foi []))
              "twice" true "omega line" eq_refl eq_refl _ _ Hu).
    + exists (NInt 2). reflexivity.
    + repeat constructor.
Defined.

(** C4 as stated fails on [quantity "often", line "omega line"]: the
    line name is unknown, [update] returns false after one message, but
    that message is the one about the frequency adverb and names no
    line. *)
Lemma unknown_line_with_bad_quantity :
  unknown_line TP.mall_lines "omega line"
  /\ TP.update TP.mall_lines no_words
       [passages "often"; line "omega line"] (TP.Self TP.initial_foi [])
     = Some (Returns false, TP.Self TP.initial_foi [Utils.frequency_message "often"])
  /\ PyStr.contains "alpha line" (Utils.frequency_message "often") = false
  /\ PyStr.contains "omega line" (Utils.frequency_message "often") = false.
Proof.
  split; [repeat split; discriminate|].
  repeat split; reflexivity.
Qed.

(** ** Streams without grouped kinds *)

Section UngroupedStreams.

Variable conf : TP.lines.
Variable word_to_num : string -> parse number.

Lemma nonempty_assign : forall (g : group) k v,
  nonempty (assign k v g) = true.
Proof.
  intros [|[k0 v0] g] k v; cbn; [reflexivity|].
  destruct (String.eqb k0 k); reflexivity.
Qed.

Lemma body_idle : forall e st,
  grouped e = false -> idle st ->
  exists st', TP.body conf word_to_num e st = Go st'
    /\ idle st'
    /\ line_fields (TP.foi (TP.self st')) = line_fields (TP.foi (TP.self st))
    /\ TP.said (TP.self st') = TP.said (TP.self st)
    /\ nonempty (TP.current_group st') = negb (resolves e).
Proof.
  intros [k v] [g lf [f d]] Hk (Hlf & Hp & Hl).
  cbn [TP.line_flag TP.current_group TP.self] in *. subst lf.
  unfold grouped in Hk. cbn [entity_key] in Hk.
  pose proof Hk as Hk'. rewrite elem_people in Hk'.
  apply orb_false_iff in Hk'. destruct Hk' as [Hk1 Hk2].
  unfold TP.body. cbn [entity_key entity_value]. rewrite Hk.
  cbn [TP.line_flag TP.current_group TP.self andb bind forallb].
  rewrite !has_key_assign, Hk1, Hk2, Hp, Hl.
  cbn [orb andb negb TP.line_flag TP.current_group TP.self].
  unfold resolves. cbn [entity_key].
  destruct (PyStr.contains "clothing" k).
  - eexists. split; [reflexivity|]. split; [repeat split|].
    unfold TP.update_clothing.
    destruct (String.eqb v "hat"); [repeat split; reflexivity|].
    destruct (String.eqb v "bag"); repeat split; reflexivity.
  - destruct (PyStr.contains "gender" k).
    + eexists. split; [reflexivity|]. split; [repeat split|].
      repeat split; reflexivity.
    + eexists. split; [reflexivity|]. split.
      * repeat split; cbn [TP.line_flag TP.current_group];
          rewrite has_key_assign; [rewrite Hk1|rewrite Hk2]; assumption.
      * repeat split. cbn [TP.current_group orb negb].
        apply nonempty_assign.
Qed.

Lemma loop_idle : forall es st,
  Forall (fun e => grouped e = false) es -> idle st ->
  exists st', for_each (TP.body conf word_to_num) es st = Go st'
    /\ idle st'
    /\ line_fields (TP.foi (TP.self st')) = line_fields (TP.foi (TP.self st))
    /\ TP.said (TP.self st') = TP.said (TP.self st)
    /\ nonempty (TP.current_group st')
       = fold_left (fun _ e => negb (resolves e)) es
           (nonempty (TP.current_group st)).
Proof.
  induction es as [|e es IH]; intros st Hes Hst.
  - exists st. cbn. auto.
  - inversion Hes as [|? ? He Hes']; subst.
    destruct (body_idle e st He Hst) as (st1 & H1 & Hi1 & Hf1 & Hd1 & Hn1).
    destruct (IH st1 Hes' Hi1) as (st2 & H2 & Hi2 & Hf2 & Hd2 & Hn2).
    exists st2. cbn. rewrite H1. cbn. rewrite H2.
    repeat split; try apply Hi2; congruence.
Qed.

(** X2. A stream without grouped kinds never writes a line field.  What
    [update] returns is decided by its last entity: when the stream is
    empty or ends with a clothing or a gender entity the buffer is empty
    after the loop and [update] returns true without a message;
    otherwise the buffer holds what came after the last resolved entity
    and [update] returns false after the missing-line message. *)
Lemma ungrouped_stream_keeps_lines : forall es s,
  Forall (fun e => grouped e = false) es ->
  exists st s',
    TP.loop conf word_to_num es s = Go st
    /\ nonempty (TP.current_group st) = ends_unresolved es
    /\ TP.update conf word_to_num es s
       = Some (Returns (negb (ends_unresolved es)), s')
    /\ line_fields (TP.foi s') = line_fields (TP.foi s)
    /\ TP.said s'
       = if ends_unresolved es
         then TP.said s ++ [TP.missing_line_message conf]
         else TP.said s.
Proof.
  intros es s Hes.
  destruct (loop_idle es (TP.Loop [] false s) Hes)
    as ([g lf s1] & H & (Hlf & Hp & Hl) & Hf & Hd & Hn).
  { repeat split. }
  cbn [TP.line_flag TP.current_group TP.self] in *.
  change (nonempty g = ends_unresolved es) in Hn.
  unfold TP.update. unfold TP.loop at 2. unfold TP.loop. rewrite H.
  cbn [TP.conclude]. unfold TP.finish. cbn [TP.current_group TP.self].
  rewrite <- Hn.
  destruct (nonempty g) eqn:Eg.
  - exists (TP.Loop g lf s1), (TP.utter (TP.missing_line_message conf) s1).
    split; [reflexivity|]. split; [exact Eg|].
    split; [|split; [exact Hf|cbn; unfold utter_message; now rewrite Hd]].
    unfold TP.update_line, TP.paired_entry.
    apply has_key_lookup in Hp, Hl. rewrite Hp, Hl. destruct s1; reflexivity.
  - exists (TP.Loop g lf s1), s1. repeat split; auto.
Qed.

Lemma ends_unresolved_snoc : forall es e,
  ends_unresolved (es ++ [e]) = negb (resolves e).
Proof.
  intros es e. unfold ends_unresolved. now rewrite fold_left_app.
Qed.

End UngroupedStreams.

(** The witness of X2: a hat, then a negation that nothing consumes;
    and a negated hat. *)
Lemma ungrouped_stream_keeps_lines_witness :
  (exists st s',
     TP.loop TP.mall_lines no_words [clothing "hat"; negation "not"]
       (TP.Self TP.initial_foi []) = Go st
     /\ nonempty (TP.current_group st) = true
     /\ TP.update TP.mall_lines no_words [clothing "hat"; negation "not"]
          (TP.Self TP.initial_foi [])
        = Some (Returns false, s')
     /\ line_fields (TP.foi s') = line_fields TP.initial_foi
     /\ TP.said s' = [TP.missing_line_message TP.mall_lines])
  /\ (exists st s',
        TP.loop TP.mall_lines no_words [negation "not"; clothing "hat"]
          (TP.Self TP.initial_foi []) = Go st
        /\ nonempty (TP.current_group st) = false
        /\ TP.update TP.mall_lines no_words [negation "not"; clothing "hat"]
             (TP.Self TP.initial_foi [])
           = Some (Returns true, s')
        /\ line_fields (TP.foi s') = line_fields TP.initial_foi
        /\ TP.said s' = []).
Proof.
  split.
  - apply (ungrouped_stream_keeps_lines TP.mall_lines no_words
             [clothing "hat"; negation "not"] (TP.Self TP.initial_foi [])).
    apply Forall_cons; [reflexivity|].
    apply Forall_cons; [reflexivity|apply Forall_nil].
  - apply (ungrouped_stream_keeps_lines TP.mall_lines no_words
             [negation "not"; clothing "hat"] (TP.Self TP.initial_foi [])).
    apply Forall_cons; [reflexivity|].
    apply Forall_cons; [reflexivity|apply Forall_nil].
Defined.

(** ** A negation inside an open line group *)

Section GroupClose.

Variable conf : TP.lines.
Variable word_to_num : string -> parse number.

(** A flush reads the quantity and the line name only. *)
Lemma update_line_ignores_negation : forall g word s,
  TP.update_line conf word_to_num (assign "negation" (Plain word) g) s
  = TP.update_line conf word_to_num g s.
Proof.
  intros g word s. unfold TP.update_line, TP.paired_entry.
  now rewrite !lookup_assign_other by reflexivity.
Qed.

(** Inside an open line group, a negation before a clothing or a gender
    entity changes nothing: the entity closes the group, the buffer is
    cleared with the negation in it, and the entity resolves on a buffer
    that holds nothing else. *)
Lemma negation_skipped_in_group : forall e word g s,
  resolves e = true ->
  has_key "passages" g && has_key "line" g = false ->
  bind (TP.body conf word_to_num (negation word) (TP.Loop g true s))
    (TP.body conf word_to_num e)
  = TP.body conf word_to_num e (TP.Loop g true s).
Proof.
  intros [k v] word g s Hr Hg.
  destruct (resolves_key _ Hr) as [Hk Hn].
  unfold grouped in Hk. cbn [entity_key] in Hk, Hn.
  rewrite body_negation_deferred by exact Hg. cbn [bind].
  unfold TP.body. cbn [entity_key entity_value]. rewrite Hk.
  cbn [TP.line_flag TP.current_group TP.self andb]. rewrite Hn.
  cbn [negb]. unfold TP.flush. rewrite update_line_ignores_negation.
  reflexivity.
Qed.




End GroupClose.

(** C2, at its failing input.  A negation that is read while a line
    group is open does not reach the clause that follows it.  On
    [line-name "alpha line", negation, clothing "hat"] the negation is
    buffered, the hat closes the line group, the buffer is cleared with
    the negation in it, and the hat is stored as true, where
    [negation, clothing "hat"] alone stores false.  For every stream
    and every clothing or gender entity, a negation in front of the
    entity is without effect when the loop is inside a line group
    there: [update] does exactly what it does on the stream without the
    negation. *)
Theorem negation_lost_when_a_group_closes : forall word_to_num,
  (forall word s,
     TP.update TP.mall_lines word_to_num
       [line "alpha line"; negation word; clothing "hat"] s
     = Some (Returns true,
             TP.with_foi
               (TP.set_hat (PBool true)
                  (TP.set_line1 (threshold (NInt 1) true) (TP.foi s))) s))
  /\ (forall word s,
        TP.update TP.mall_lines word_to_num [negation word; clothing "hat"] s
        = Some (Returns true,
                TP.with_foi (TP.set_hat (PBool false) (TP.foi s)) s))
  /\ (forall conf pre word e post s st,
        TP.loop conf word_to_num pre s = Go st ->
        TP.line_flag st = true ->
        resolves e = true ->
        TP.update conf word_to_num (pre ++ negation word :: e :: post) s
        = TP.update conf word_to_num (pre ++ e :: post) s).
Proof.
  intros w. split; [|split].
  - intros word [f d]. reflexivity.
  - intros word [f d]. reflexivity.
  - intros conf pre word e post s st Hpre Hlf Hr.
    destruct st as [g lf s1]. cbn [TP.line_flag] in Hlf. subst lf.
    destruct (loop_pending_shape _ _ _ _ _ Hpre) as [_ Hboth].
    cbn [TP.current_group] in Hboth.
    rewrite !(update_app _ _ _ _ _ _ Hpre). f_equal. cbn [for_each].
    rewrite <- (negation_skipped_in_group conf w e word g s1 Hr Hboth).
    destruct (TP.body conf w (negation word) (TP.Loop g true s1));
      reflexivity.
Qed.

(** The witness of C2: after [line-name "alpha line"] the loop is inside
    a line group; a negated gender that follows is stored as if it were
    not negated. *)
Lemma negation_lost_when_a_group_closes_witness :
  TP.update TP.mall_lines no_words
    ([line "alpha line"] ++ negation "not" :: gender "male" :: [])
    (TP.Self TP.initial_foi [])
  = TP.update TP.mall_lines no_words
      ([line "alpha line"] ++ gender "male" :: [])
      (TP.Self TP.initial_foi []).
Proof.
  exact (proj2 (proj2 (negation_lost_when_a_group_closes no_words))
           TP.mall_lines [line "alpha line"] "not" (gender "male") []
           (TP.Self TP.initial_foi [])
           (TP.Loop [("line", Paired "alpha line" true)] true
              (TP.Self TP.initial_foi []))
           eq_refl eq_refl eq_refl).
Defined.



(** ** The query evaluator *)

Lemma keep_if_filter {A} (test : A -> option bool) (f : A -> bool) xs :
  (forall x, In x xs -> test x = Some (f x)) ->
  TP.keep_if test xs = Some (filter f xs).
Proof.
  induction xs as [|x xs IH]; intros H; cbn; [reflexivity|].
  rewrite (H x (or_introl eq_refl)), IH by (intros; apply H; now right).
  reflexivity.
Qed.

Lemma all_of_not_none (test : string * pyval -> option bool)
  (f : string * pyval -> bool) kvs :
  (forall kv, In kv kvs -> is_none (snd kv) = false -> test kv = Some (f kv)) ->
  TP.all_of test (TP.not_none kvs)
  = Some (forallb (fun kv => is_none (snd kv) || f kv) kvs).
Proof.
  unfold TP.not_none. induction kvs as [|kv kvs IH]; intros H; cbn; [reflexivity|].
  destruct (is_none (snd kv)) eqn:E; cbn.
  - apply IH. intros; apply H; auto. now right.
  - rewrite (H kv (or_introl eq_refl) E).
    destruct (f kv); cbn; [|reflexivity].
    apply IH. intros; apply H; auto. now right.
Qed.

Lemma keep_if_guard {A} (t : A -> list (string * pyval) -> option bool) l xs :
  (forall x, t x [] = Some true) ->
  (if nonempty l then TP.keep_if (fun x => t x l) xs else Some xs)
  = TP.keep_if (fun x => t x l) xs.
Proof.
  intros H. destruct l; cbn; [|reflexivity].
  induction xs as [|x xs IH]; cbn; [reflexivity|]. now rewrite H, <- IH.
Qed.

Lemma filter_map_comm {A B} (g : A -> B) (f : B -> bool) xs :
  filter f (map g xs) = map g (filter (fun x => f (g x)) xs).
Proof.
  induction xs as [|x xs IH]; cbn; [reflexivity|].
  destruct (f (g x)); cbn; now rewrite IH.
Qed.

Lemma filter_filter {A} (f g : A -> bool) xs :
  filter g (filter f xs) = filter (fun x => f x && g x) xs.
Proof.
  induction xs as [|x xs IH]; cbn; [reflexivity|].
  destruct (f x); cbn; [destruct (g x); cbn|]; now rewrite IH.
Qed.

(** The count of the code is the number of occurrences. *)
Lemma count_occurrences : forall line p, TP.count line p = occurrences line p.
Proof.
  intros line [g b h t]. unfold TP.count, occurrences. cbn [TP.trajectory].
  f_equal. induction t as [|x t IH]; cbn [filter count_occ]; [reflexivity|].
  destruct (Z.eq_dec x line) as [->|Hne].
  - rewrite Z.eqb_refl. cbn [List.length]. now rewrite IH.
  - replace (line =? x)%Z with false; [exact IH|].
    symmetry. apply Z.eqb_neq. congruence.
Qed.

Lemma count_passages_counts : forall p, TP.count_passages p = with_counts p.
Proof.
  intros p. unfold TP.count_passages, with_counts.
  now rewrite !count_occurrences.
Qed.

(** Python's comparisons on two integers are the comparisons of [Z], and
    both are false on a nan. *)
Lemma num_le_int : forall a b, num_le (NInt a) (NInt b) = (a <=? b)%Z.
Proof.
  intros a b. unfold num_le, float_le, float_of_number, Qle_bool. cbn.
  now rewrite !Z.mul_1_r.
Qed.


Lemma num_nan : forall n,
  num_le (NFloat NaN) n = false /\ num_le n (NFloat NaN) = false
  /\ num_lt (NFloat NaN) n = false /\ num_lt n (NFloat NaN) = false.
Proof.
  intros [z|[q|b|]]; repeat split; try reflexivity; destruct b; reflexivity.
Qed.

Lemma within_threshold_met : forall c key n v,
  threshold_ok v -> is_none v = false ->
  TP.counted_item c key = Some n ->
  TP.within_threshold c (key, v) = Some (threshold_met n v).
Proof.
  intros c key n v [-> | (bound & dir & ->)] Hv Hk; [discriminate|].
  unfold TP.within_threshold. cbn. rewrite Hk. destruct dir; reflexivity.
Qed.

Lemma filteringJSON_retains : forall people f,
  people_thresholds_ok f ->
  TP.filteringJSON people f
  = Some (map with_counts (filter (retained f) people)).
Proof.
  intros people [g b h l1 l2 l3 l4] (H1 & H2 & H3 & H4).
  cbn [TP.line1_passages TP.line2_passages TP.line3_passages TP.line4_passages] in *.
  unfold TP.filteringJSON.
  rewrite (keep_if_guard (fun p l => TP.all_of (TP.equals_field p) l))
    by reflexivity.
  erewrite keep_if_filter; cycle 1.
  { intros p _. apply all_of_not_none with (f := fun kv =>
      match TP.person_item p (fst kv) with
      | Some x => Py.eqb x (snd kv) | None => false end).
    intros [k v] Hin _. cbn in Hin.
    destruct Hin as [[= <- <-]|[[= <- <-]|[[= <- <-]|[]]]]; reflexivity. }
  cbv zeta.
  rewrite (keep_if_guard (fun c l => TP.all_of (TP.within_threshold c) l))
    by reflexivity.
  erewrite keep_if_filter; cycle 1.
  { intros c _. apply all_of_not_none with (f := fun kv =>
      match TP.counted_item c (fst kv) with
      | Some n => threshold_met n (snd kv) | None => false end).
    intros [k v] Hin Hv. cbn in Hin.
    destruct Hin as [[= <- <-]|[[= <- <-]|[[= <- <-]|[[= <- <-]|[]]]]];
      erewrite within_threshold_met by (eauto; reflexivity); reflexivity. }
  rewrite filter_map_comm, filter_filter.
  rewrite (map_ext _ _ count_passages_counts). do 2 f_equal.
  apply filter_ext. intros p. unfold retained, attribute_met.
  cbn -[threshold_met Py.eqb]. rewrite !count_occurrences.
  assert (Hm : forall n v, is_none v || threshold_met n v = threshold_met n v)
    by (intros n [ | | | | ]; reflexivity).
  rewrite !Hm, !andb_true_r, !andb_assoc. reflexivity.
Qed.






(** * Further properties of the interpreter of the people *)

Section PeopleTrackerInvariant.

Variable conf : TP.lines.
Variable word_to_num : string -> parse number.

(** [T] is kept by the writes of the clothing and gender fields, which
    only happen under [C], and by a successful flush; a failed flush ends
    in [Q], and one that the exception of the parser leaves ends in
    [E]. *)
Variable T Q E : TP.tracker -> Prop.
Variable C : Prop.
Hypothesis T_hat : forall b s,
  C -> T s -> T (TP.with_foi (TP.set_hat (PBool b) (TP.foi s)) s).
Hypothesis T_bag : forall b s,
  C -> T s -> T (TP.with_foi (TP.set_bag (PBool b) (TP.foi s)) s).
Hypothesis T_gender : forall v s,
  C -> T s -> T (TP.with_foi (TP.set_gender (PStr v) (TP.foi s)) s).
Hypothesis T_flush : forall g s,
  well_typed people_keys g -> T s ->
  ctl_sat T Q E (TP.flush conf word_to_num g s).

Lemma people_body_inv : forall e st,
  (resolves e = true -> C) ->
  people_loop_inv T st ->
  ctl_sat (people_loop_inv T) Q E (TP.body conf word_to_num e st).
Proof.
  intros [k v] [g lf s] HC [Hg Hs]. unfold TP.body, resolves in *.
  cbn [entity_key entity_value] in *.
  cbn [TP.line_flag TP.current_group TP.self] in Hg, Hs.
  eapply bind_sat with (P := people_loop_inv T).
  - destruct (PyStr.elem k ["passages"; "line"]) eqn:Hk.
    + eapply bind_sat with (P := people_loop_inv T).
      * cbn [TP.line_flag TP.current_group TP.self].
        destruct (lf && has_key k g) eqn:Hc; [|split; assumption].
        eapply bind_sat; [apply T_flush; assumption|].
        intros s' Hs'. apply andb_prop in Hc. destruct Hc as [_ Hc].
        pose proof (last_item_has_key g k Hc) as Hl.
        destruct (last_item g) as [[key value]|] eqn:El; [|congruence].
        split; [|exact Hs']. cbn.
        destruct (String.eqb key "negation"); [|constructor].
        repeat constructor. eapply last_item_typed; eauto.
      * intros [g' lf' s'] [Hg' Hs'].
        cbn [TP.line_flag TP.current_group TP.self] in *. split; [|exact Hs'].
        cbn [TP.line_flag TP.current_group TP.self].
        apply assign_typed; [|exact I].
        destruct (has_key "negation" g'); cbn [negb];
          [apply remove_typed|]; assumption.
    + eapply bind_sat with (P := people_loop_inv T).
      * cbn [TP.line_flag TP.current_group TP.self].
        destruct (lf && String.eqb k "negation"); [split; assumption|].
        eapply bind_sat with (P := people_loop_inv T).
        -- destruct (lf && negb (String.eqb k "negation"));
             [|split; assumption].
           eapply bind_sat; [apply T_flush; assumption|].
           intros s' Hs'. split; [constructor|exact Hs'].
        -- intros [g' lf' s'] Hst. exact Hst.
      * intros [g' lf' s'] [Hg' Hs']. split; [|exact Hs'].
        apply assign_typed; [assumption|exact Hk].
  - intros [g' lf' s'] [Hg' Hs']. eapply bind_sat with (P := people_loop_inv T).
    + cbn [TP.line_flag TP.current_group TP.self].
      destruct (forallb _ _); [|split; assumption].
      eapply bind_sat; [apply T_flush; assumption|].
      intros s'' Hs''. split; [constructor|exact Hs''].
    + intros [g'' lf'' s''] [Hg'' Hs''].
      cbn [TP.line_flag TP.current_group TP.self] in *.
      destruct (negb lf''); [|split; assumption].
      destruct (PyStr.contains "clothing" k).
      * split; [constructor|]. cbn [TP.self]. unfold TP.update_clothing.
        destruct (String.eqb v "hat"); [apply T_hat; auto|].
        destruct (String.eqb v "bag"); [apply T_bag; auto|exact Hs''].
      * destruct (PyStr.contains "gender" k); [|split; assumption].
        split; [constructor|]. cbn [TP.self]. unfold TP.update_gender.
        apply T_gender; auto.
Qed.

Lemma people_for_each_inv : forall es st,
  Forall (fun e => resolves e = true -> C) es ->
  people_loop_inv T st ->
  ctl_sat (people_loop_inv T) Q E
    (for_each (TP.body conf word_to_num) es st).
Proof.
  induction es as [|e es IH]; intros st Hes Hst; [exact Hst|].
  inversion Hes as [|? ? He Hes']; subst. cbn [for_each].
  eapply bind_sat; [apply people_body_inv; eassumption|].
  intros st' Hst'. now apply IH.
Qed.

Lemma people_loop_inv_reached : forall es s,
  Forall (fun e => resolves e = true -> C) es ->
  T s ->
  ctl_sat (people_loop_inv T) Q E (TP.loop conf word_to_num es s).
Proof.
  intros es s Hes Hs. unfold TP.loop.
  apply people_for_each_inv; [exact Hes|].
  split; [constructor|exact Hs].
Qed.

(** [update] keeps [T] when it returns true, ends in [Q] when it
    returns false and in [E] when the exception of the parser goes
    through it; it is never ill-typed. *)
Lemma people_update_inv : forall es s,
  Forall (fun e => resolves e = true -> C) es ->
  T s ->
  exists r s', TP.update conf word_to_num es s = Some (r, s')
               /\ outcome_sat T Q E r s'.
Proof.
  intros es s Hes Hs.
  pose proof (people_loop_inv_reached es s Hes Hs) as H.
  unfold TP.update.
  destruct (TP.loop conf word_to_num es s) as [[g lf s1]|s1|s1|];
    cbn [ctl_sat TP.conclude] in *.
  - destruct H as [Hg Hs1]. cbn [TP.current_group TP.self] in *.
    unfold TP.finish. cbn [TP.current_group TP.self].
    destruct (nonempty g); [|exists (Returns true), s1; auto].
    pose proof (T_flush g s1 Hg Hs1) as Hf. unfold TP.flush in Hf.
    destruct (TP.update_line conf word_to_num g s1) as [[[[]|] s2]|];
      cbn [ctl_sat] in Hf; [| | |contradiction]; eauto.
  - exists (Returns false), s1. auto.
  - exists Raises, s1. auto.
  - contradiction.
Qed.

End PeopleTrackerInvariant.

(** A flush that succeeds utters nothing; one that fails utters one
    message; one that the exception of the parser leaves utters
    nothing. *)
Lemma flush_messages : forall conf word_to_num d g s,
  well_typed people_keys g -> TP.said s = d ->
  ctl_sat (fun s' => TP.said s' = d)
    (fun s' => exists m, TP.said s' = d ++ [m])
    (fun s' => TP.said s' = d)
    (TP.flush conf word_to_num g s).
Proof.
  intros conf w d g s Hg Hs. unfold TP.flush.
  destruct (update_line_cases conf w (fun _ => True)
              ltac:(auto) ltac:(auto) ltac:(auto) ltac:(auto) g s Hg)
    as (b & s' & -> & _ & Hf & Ht & Hr).
  destruct b as [[|]|]; cbn.
  - rewrite <- Hs. apply Ht. reflexivity.
  - rewrite <- Hs. apply Hf. reflexivity.
  - now rewrite (Hr eq_refl).
Qed.

Lemma all_resolve : forall es : list entity,
  Forall (fun e => resolves e = true -> True) es.
Proof. intros es. apply Forall_forall. auto. Qed.

(** [update] is never ill-typed; it utters nothing when it returns true,
    one message when it returns false, and nothing when the exception of
    the parser goes through it. *)
Lemma people_update_messages : forall conf word_to_num es s,
  exists r s',
    TP.update conf word_to_num es s = Some (r, s')
    /\ outcome_sat (fun s' => TP.said s' = TP.said s)
         (fun s' => exists m, TP.said s' = TP.said s ++ [m])
         (fun s' => TP.said s' = TP.said s) r s'.
Proof.
  intros conf w es s.
  apply (people_update_inv conf w
           (fun s' => TP.said s' = TP.said s)
           (fun s' => exists m, TP.said s' = TP.said s ++ [m])
           (fun s' => TP.said s' = TP.said s) True).
  - intros ? [f0 d0] _ H; exact H.
  - intros ? [f0 d0] _ H; exact H.
  - intros ? [f0 d0] _ H; exact H.
  - intros; now apply flush_messages.
  - apply all_resolve.
  - reflexivity.
Qed.

(** *** The exception of the parser *)

Lemma bind_returns {S A B} (P : A -> Prop) (P' : B -> Prop)
  (m : ctl S A) (k : A -> ctl S B) :
  ctl_returns P m -> (forall a, P a -> ctl_returns P' (k a)) ->
  ctl_returns P' (bind m k).
Proof. destruct m; cbn; auto. Qed.

Lemma for_each_returns {S A X} (P : A -> Prop) (H : X -> Prop)
  (body : X -> A -> ctl S A) :
  (forall e a, H e -> P a -> ctl_returns P (body e a)) ->
  forall es a, Forall H es -> P a -> ctl_returns P (for_each body es a).
Proof.
  intros Hbody es. induction es as [|e es IH]; intros a Hes Ha; cbn.
  - exact Ha.
  - inversion Hes as [|? ? He Hes']; subst.
    eapply bind_returns; [apply Hbody; assumption|].
    intros a' Ha'. now apply IH.
Qed.

Section QuantitiesReturn.
Variable conf : TP.lines.
Variable word_to_num : string -> parse number.

(** What the conversion does is independent of the dispatcher. *)
Lemma adverb_to_number_fst : forall a d,
  fst (Utils.adverb_to_number word_to_num a d)
  = fst (Utils.adverb_to_number word_to_num a []).
Proof.
  intros a d. unfold Utils.adverb_to_number.
  repeat match goal with
         | |- context [if ?c then _ else _] => destruct c
         | |- context [match ?c with Parsed _ => _ | _ => _ end] => destruct c
         end; reflexivity.
Qed.

(** The exception leaves a flush only from the conversion of the
    quantity that the buffer holds. *)
Lemma update_line_returns : forall g s s',
  buffer_returns word_to_num g ->
  TP.update_line conf word_to_num g s <> Some (Raises, s').
Proof.
  intros g [f d] s' Hg. unfold TP.update_line, TP.paired_entry.
  destruct (lookup "passages" g) as [[v|a neg]|] eqn:Ep; [discriminate| |].
  - specialize (Hg a neg Ep). unfold adverb_returns in Hg.
    rewrite <- (adverb_to_number_fst a d) in Hg. cbn [TP.said TP.foi].
    destruct (Utils.adverb_to_number word_to_num a d) as [[[n|]|] d'];
      cbn [fst] in Hg; [| |congruence];
      destruct (lookup "line" g) as [[?|name nl]|]; try discriminate;
      repeat match goal with
             | |- context [if ?c then _ else _] => destruct c
             end; discriminate.
  - destruct (lookup "line" g) as [[?|name nl]|]; try discriminate.
    cbn [TP.said TP.foi].
    repeat match goal with
           | |- context [if ?c then _ else _] => destruct c
           end; discriminate.
Qed.

Lemma flush_returns : forall g s,
  buffer_returns word_to_num g ->
  ctl_returns (fun _ => True) (TP.flush conf word_to_num g s).
Proof.
  intros g s Hg. unfold TP.flush.
  destruct (TP.update_line conf word_to_num g s) as [[[[|]|] s']|] eqn:E;
    cbn; auto.
  exact (update_line_returns g s s' Hg E).
Qed.

Lemma buffer_returns_nil : buffer_returns word_to_num [].
Proof. intros a neg H. discriminate H. Qed.

Lemma buffer_returns_assign : forall g k v,
  buffer_returns word_to_num g ->
  (k = "passages" ->
   forall a neg, v = Paired a neg -> adverb_returns word_to_num a) ->
  buffer_returns word_to_num (assign k v g).
Proof.
  intros g k v Hg Hv a neg. destruct (String.eqb_spec k "passages") as [->|Hk].
  - rewrite lookup_assign_same. intros [= ->]. now apply (Hv eq_refl a neg).
  - apply String.eqb_neq in Hk. rewrite lookup_assign_other by exact Hk.
    apply Hg.
Qed.

Lemma buffer_returns_remove : forall g,
  buffer_returns word_to_num g ->
  buffer_returns word_to_num (remove "negation" g).
Proof.
  intros g Hg a neg. rewrite lookup_remove_other by reflexivity. apply Hg.
Qed.

(** An iteration on an entity whose quantity, if it is one, converts
    or is rejected: the exception does not leave it, and the same holds
    of the buffer it goes on with. *)
Lemma body_returns : forall e st,
  (entity_key e = "passages" -> adverb_returns word_to_num (entity_value e)) ->
  buffer_returns word_to_num (TP.current_group st) ->
  ctl_returns (fun st' => buffer_returns word_to_num (TP.current_group st'))
    (TP.body conf word_to_num e st).
Proof.
  intros [k v] [g lf s] He Hg. unfold TP.body.
  cbn [entity_key entity_value TP.line_flag TP.current_group TP.self] in *.
  eapply bind_returns
    with (P := fun st' => buffer_returns word_to_num (TP.current_group st')).
  - destruct (PyStr.elem k ["passages"; "line"]).
    + eapply bind_returns
        with (P := fun st' =>
                     buffer_returns word_to_num (TP.current_group st')).
      * destruct (lf && has_key k g); [|exact Hg].
        eapply bind_returns; [now apply flush_returns|].
        intros s' _. destruct (last_item g) as [[key value]|]; [|exact I].
        cbn [ctl_returns TP.current_group].
        destruct (String.eqb_spec key "negation") as [->|_];
          [|apply buffer_returns_nil].
        apply buffer_returns_assign; [apply buffer_returns_nil|].
        intros H. discriminate H.
      * intros [g' lf' s'] Hg'. cbn [TP.current_group TP.self] in *.
        apply buffer_returns_assign.
        -- destruct (has_key "negation" g'); cbn [negb];
             [now apply buffer_returns_remove|exact Hg'].
        -- intros Hk a neg [= <- _]. now apply He.
    + eapply bind_returns
        with (P := fun st' =>
                     buffer_returns word_to_num (TP.current_group st')).
      * destruct (lf && String.eqb k "negation"); [exact Hg|].
        eapply bind_returns
          with (P := fun st' =>
                       buffer_returns word_to_num (TP.current_group st')).
        -- destruct (lf && negb (String.eqb k "negation")); [|exact Hg].
           eapply bind_returns; [now apply flush_returns|].
           intros s' _. apply buffer_returns_nil.
        -- intros [g' lf' s'] Hg'. exact Hg'.
      * intros [g' lf' s'] Hg'. cbn [TP.current_group TP.self] in *.
        apply buffer_returns_assign; [exact Hg'|].
        intros _ a neg H. discriminate H.
  - intros [g' lf' s'] Hg'. cbn [TP.line_flag TP.current_group TP.self] in *.
    eapply bind_returns
      with (P := fun st' => buffer_returns word_to_num (TP.current_group st')).
    + destruct (forallb _ _); [|exact Hg'].
      eapply bind_returns; [now apply flush_returns|].
      intros s'' _. apply buffer_returns_nil.
    + intros [g'' lf'' s''] Hg''.
      cbn [TP.line_flag TP.current_group TP.self] in *.
      destruct (negb lf''); [|exact Hg''].
      destruct (PyStr.contains "clothing" k); [apply buffer_returns_nil|].
      destruct (PyStr.contains "gender" k);
        [apply buffer_returns_nil|exact Hg''].
Qed.

(** When the conversion returns on every quantity of the stream, the
    exception does not leave [update]. *)
Lemma people_update_returns : forall es s r s',
  quantities_return word_to_num es ->
  TP.update conf word_to_num es s = Some (r, s') ->
  r <> Raises.
Proof.
  intros es s r s' Hes. unfold TP.update, TP.loop.
  pose proof (for_each_returns
                (fun st' => buffer_returns word_to_num (TP.current_group st'))
                _ _ body_returns es (TP.Loop [] false s) Hes
                buffer_returns_nil) as H.
  destruct (for_each _ es _) as [[g lf s1]|s1|s1|];
    cbn [ctl_returns TP.conclude TP.current_group] in *.
  - unfold TP.finish. cbn [TP.current_group TP.self].
    destruct (nonempty g); [|intros [= <- _]; discriminate].
    intros E ->. exact (update_line_returns g s1 s' H E).
  - intros [= <- _]. discriminate.
  - contradiction.
  - discriminate.
Qed.

End QuantitiesReturn.

(** X1. [TrackingPeople.update] is never ill-typed, whatever the stream
    and the prior object: it returns true and utters nothing, or returns
    false after exactly one message, or an exception of the word parser
    other than [ValueError] goes through it, with nothing uttered; it
    returns whenever the conversion returns on the quantity of every
    [passages] entity of the stream. *)
Theorem update_utters_once_on_failure : forall conf word_to_num es s,
  exists r s',
    TP.update conf word_to_num es s = Some (r, s')
    /\ (r = Returns true -> TP.said s' = TP.said s)
    /\ (r = Returns false -> exists m, TP.said s' = TP.said s ++ [m])
    /\ (r = Raises -> TP.said s' = TP.said s)
    /\ (quantities_return word_to_num es -> exists b, r = Returns b).
Proof.
  intros conf w es s.
  destruct (people_update_messages conf w es s) as (r & s' & E & H).
  exists r, s'. split; [exact E|].
  pose proof (fun Hes => people_update_returns conf w es s r s' Hes E) as Hr.
  destruct r as [[|]|]; cbn [outcome_sat] in H;
    repeat split; intros; try discriminate; try assumption; eauto.
  now elim Hr.
Qed.

Lemma lower_ascii_idempotent : forall c,
  PyStr.lower_ascii (PyStr.lower_ascii c) = PyStr.lower_ascii c.
Proof.
  intros [[] [] [] [] [] [] [] []]; reflexivity.
Qed.

Lemma lower_idempotent : forall s, PyStr.lower (PyStr.lower s) = PyStr.lower s.
Proof.
  induction s as [|c s IH]; cbn; [reflexivity|].
  now rewrite lower_ascii_idempotent, IH.
Qed.

Lemma lower_never_equals : forall identifier name,
  PyStr.lower identifier <> identifier ->
  String.eqb (PyStr.lower name) identifier = false.
Proof.
  intros identifier name H. apply String.eqb_neq. intros E.
  apply H. rewrite <- E. apply lower_idempotent.
Qed.

Section LowerCaseFlush.
Variable conf : TP.lines.
Variable word_to_num : string -> parse number.

(** The field that a flush leaves alone when its identifier is not in
    lower case. *)
Lemma update_line_skips : forall (field : TP.fields -> pyval) identifier g s,
  (field = TP.line1_passages /\ identifier = TP.line_1 conf
   \/ field = TP.line2_passages /\ identifier = TP.line_2 conf
   \/ field = TP.line3_passages /\ identifier = TP.line_3 conf
   \/ field = TP.line4_passages /\ identifier = TP.line_4 conf) ->
  PyStr.lower identifier <> identifier ->
  well_typed people_keys g ->
  exists b s', TP.update_line conf word_to_num g s = Some (b, s')
               /\ field (TP.foi s') = field (TP.foi s).
Proof.
  intros field identifier g [f d] Hfield Hid Hg. unfold TP.update_line.
  pose proof (paired_entry_typed _ g "passages" Hg eq_refl) as Hp.
  pose proof (paired_entry_typed _ g "line" Hg eq_refl) as Hl.
  destruct (TP.paired_entry "passages" g) as [p|]; [|congruence].
  destruct (TP.paired_entry "line" g) as [l|]; [|congruence].
  cbn [TP.foi TP.said].
  destruct (match p with
            | Some (adverb, neg) =>
                let (n, d0) := Utils.adverb_to_number word_to_num adverb d in
                (n, neg, d0)
            | None => (Returns (Some (NInt 1)), true, d)
            end) as [[[[n|]|] np] d'].
  2, 3: eexists _, _; split; reflexivity.
  destruct l as [[name nl]|]; [|eexists _, _; split; reflexivity].
  destruct Hfield as [[-> ->]|[[-> ->]|[[-> ->]|[-> ->]]]];
    rewrite (lower_never_equals _ name Hid);
    repeat match goal with
           | |- context [if ?c then _ else _] => destruct c
           end; eexists _, _; split; reflexivity.
Qed.
End LowerCaseFlush.

Section LowerCaseStreams.
Variable conf : TP.lines.
Variable word_to_num : string -> parse number.

Lemma update_skips : forall (field : TP.fields -> pyval) identifier es s,
  (field = TP.line1_passages /\ identifier = TP.line_1 conf
   \/ field = TP.line2_passages /\ identifier = TP.line_2 conf
   \/ field = TP.line3_passages /\ identifier = TP.line_3 conf
   \/ field = TP.line4_passages /\ identifier = TP.line_4 conf) ->
  PyStr.lower identifier <> identifier ->
  exists b s', TP.update conf word_to_num es s = Some (b, s')
               /\ field (TP.foi s') = field (TP.foi s).
Proof.
  intros field identifier es s Hfield Hid.
  set (T := fun s' : TP.tracker => field (TP.foi s') = field (TP.foi s)).
  assert (Hflush : forall g s1, well_typed people_keys g -> T s1 ->
            ctl_sat T T T (TP.flush conf word_to_num g s1)).
  { intros g s1 Hg Hs1. unfold TP.flush.
    destruct (update_line_skips conf word_to_num field identifier g s1
                Hfield Hid Hg) as (b & s' & -> & E).
    unfold T in *. destruct b as [[|]|]; cbn; congruence. }
  destruct (people_update_inv conf word_to_num T T T True
              ltac:(intros ? [f0 d0] _ H; unfold T in *; cbn;
                    destruct Hfield as [[-> _]|[[-> _]|[[-> _]|[-> _]]]];
                    exact H)
              ltac:(intros ? [f0 d0] _ H; unfold T in *; cbn;
                    destruct Hfield as [[-> _]|[[-> _]|[[-> _]|[-> _]]]];
                    exact H)
              ltac:(intros ? [f0 d0] _ H; unfold T in *; cbn;
                    destruct Hfield as [[-> _]|[[-> _]|[[-> _]|[-> _]]]];
                    exact H)
              Hflush es s (all_resolve es) eq_refl) as (b & s' & E & H).
  exists b, s'. split; [exact E|]. destruct b as [[|]|]; exact H.
Qed.

(** X5. A configured identifier that is not in lower case never matches: the
    line name is lower-cased before the comparison and the identifier is
    not, so [update] never writes the field of that line. *)
Theorem identifier_must_be_lower_case : forall es s,
  (PyStr.lower (TP.line_1 conf) <> TP.line_1 conf ->
   exists b s', TP.update conf word_to_num es s = Some (b, s')
     /\ TP.line1_passages (TP.foi s') = TP.line1_passages (TP.foi s))
  /\ (PyStr.lower (TP.line_2 conf) <> TP.line_2 conf ->
      exists b s', TP.update conf word_to_num es s = Some (b, s')
        /\ TP.line2_passages (TP.foi s') = TP.line2_passages (TP.foi s))
  /\ (PyStr.lower (TP.line_3 conf) <> TP.line_3 conf ->
      exists b s', TP.update conf word_to_num es s = Some (b, s')
        /\ TP.line3_passages (TP.foi s') = TP.line3_passages (TP.foi s))
  /\ (PyStr.lower (TP.line_4 conf) <> TP.line_4 conf ->
      exists b s', TP.update conf word_to_num es s = Some (b, s')
        /\ TP.line4_passages (TP.foi s') = TP.line4_passages (TP.foi s)).
Proof.
  intros es s. repeat split; intros H;
    eapply (update_skips _ _ es s); eauto 10.
Qed.
End LowerCaseStreams.

(** A flush writes no attribute field. *)
Lemma flush_keeps_attributes : forall conf word_to_num a g s,
  well_typed people_keys g ->
  (TP.gender (TP.foi s), TP.bag (TP.foi s), TP.hat (TP.foi s)) = a ->
  ctl_sat
    (fun s' => (TP.gender (TP.foi s'), TP.bag (TP.foi s'), TP.hat (TP.foi s'))
               = a)
    (fun s' => (TP.gender (TP.foi s'), TP.bag (TP.foi s'), TP.hat (TP.foi s'))
               = a)
    (fun s' => (TP.gender (TP.foi s'), TP.bag (TP.foi s'), TP.hat (TP.foi s'))
               = a)
    (TP.flush conf word_to_num g s).
Proof.
  intros conf w a g s Hg Hs. unfold TP.flush.
  destruct (update_line_cases conf w (fun _ => True)
              ltac:(auto) ltac:(auto) ltac:(auto) ltac:(auto) g s Hg)
    as (b & s' & -> & _ & Hf & Ht & Hr).
  destruct b as [[|]|]; cbn.
  - destruct (Ht eq_refl) as (_ & -> & -> & ->). exact Hs.
  - destruct (Hf eq_refl) as (-> & _). exact Hs.
  - rewrite (Hr eq_refl). exact Hs.
Qed.

(** X7. A stream with no clothing and no gender entity leaves the gender, bag
    and hat fields as they were, whether [update] returns true or
    false or the exception of the parser goes through it. *)
Theorem line_clauses_keep_attributes : forall conf word_to_num es s,
  Forall (fun e => resolves e = false) es ->
  exists b s',
    TP.update conf word_to_num es s = Some (b, s')
    /\ TP.gender (TP.foi s') = TP.gender (TP.foi s)
    /\ TP.bag (TP.foi s') = TP.bag (TP.foi s)
    /\ TP.hat (TP.foi s') = TP.hat (TP.foi s).
Proof.
  intros conf w es s Hes.
  set (T := fun s' : TP.tracker =>
              (TP.gender (TP.foi s'), TP.bag (TP.foi s'), TP.hat (TP.foi s'))
              = (TP.gender (TP.foi s), TP.bag (TP.foi s), TP.hat (TP.foi s))).
  destruct (people_update_inv conf w T T T False
              ltac:(intros ? ? [])
              ltac:(intros ? ? [])
              ltac:(intros ? ? [])
              ltac:(intros; now apply flush_keeps_attributes)
              es s) as (b & s' & E & H).
  - eapply Forall_impl; [|exact Hes]. cbn. intros e -> [=].
  - reflexivity.
  - exists b, s'. split; [exact E|].
    assert (Hs : T s') by (destruct b as [[|]|]; exact H).
    unfold T in Hs. now inversion Hs.
Qed.

Lemma line_clauses_keep_attributes_witness :
  exists b s',
    TP.update TP.mall_lines no_words
      [negation "not"; passages "twice"; line "beta line"]
      (TP.Self (TP.set_hat (PBool true) TP.initial_foi) [])
    = Some (b, s')
    /\ TP.gender (TP.foi s') = PNone
    /\ TP.bag (TP.foi s') = PNone
    /\ TP.hat (TP.foi s') = PBool true.
Proof.
  apply (line_clauses_keep_attributes TP.mall_lines no_words
           [negation "not"; passages "twice"; line "beta line"]
           (TP.Self (TP.set_hat (PBool true) TP.initial_foi) [])).
  repeat constructor.
Defined.

Lemma identifier_must_be_lower_case_witness :
  (exists b s',
     TP.update (TP.Lines "Alpha line" "Beta line" "Gamma line" "Delta line")
       no_words [line "alpha line"] (TP.Self TP.initial_foi [])
     = Some (b, s')
     /\ TP.line1_passages (TP.foi s') = PNone)
  /\ (exists b s',
        TP.update (TP.Lines "Alpha line" "Beta line" "Gamma line" "Delta line")
          no_words [line "beta line"] (TP.Self TP.initial_foi [])
        = Some (b, s')
        /\ TP.line2_passages (TP.foi s') = PNone)
  /\ (exists b s',
        TP.update (TP.Lines "Alpha line" "Beta line" "Gamma line" "Delta line")
          no_words [line "gamma line"] (TP.Self TP.initial_foi [])
        = Some (b, s')
        /\ TP.line3_passages (TP.foi s') = PNone)
  /\ (exists b s',
        TP.update (TP.Lines "Alpha line" "Beta line" "Gamma line" "Delta line")
          no_words [line "delta line"] (TP.Self TP.initial_foi [])
        = Some (b, s')
        /\ TP.line4_passages (TP.foi s') = PNone).
Proof.
  split; [|split; [|split]].
  - apply (proj1 (identifier_must_be_lower_case
                    (TP.Lines "Alpha line" "Beta line" "Gamma line"
                       "Delta line")
                    no_words [line "alpha line"] (TP.Self TP.initial_foi []))).
    discriminate.
  - apply (proj1 (proj2 (identifier_must_be_lower_case
                    (TP.Lines "Alpha line" "Beta line" "Gamma line"
                       "Delta line")
                    no_words [line "beta line"] (TP.Self TP.initial_foi [])))).
    discriminate.
  - apply (proj1 (proj2 (proj2 (identifier_must_be_lower_case
                    (TP.Lines "Alpha line" "Beta line" "Gamma line"
                       "Delta line")
                    no_words [line "gamma line"]
                    (TP.Self TP.initial_foi []))))).
    discriminate.
  - apply (proj2 (proj2 (proj2 (identifier_must_be_lower_case
                    (TP.Lines "Alpha line" "Beta line" "Gamma line"
                       "Delta line")
                    no_words [line "delta line"]
                    (TP.Self TP.initial_foi []))))).
    discriminate.
Defined.

Section DirectionFacts.
Variable conf : TP.lines.
Variable word_to_num : string -> parse number.

Lemma body_negation_idle : forall word g s,
  has_key "passages" g && has_key "line" g = false ->
  TP.body conf word_to_num (negation word) (TP.Loop g false s)
  = Go (TP.Loop (assign "negation" (Plain word) g) false s).
Proof.
  intros word g s H. unfold TP.body. cbn.
  fold (has_key "passages" (assign "negation" (Plain word) g)).
  fold (has_key "line" (assign "negation" (Plain word) g)).
  rewrite !has_key_assign. cbn. rewrite andb_true_r, H. reflexivity.
Qed.

Lemma only_negation_assign : forall b g word,
  only_negation b g ->
  only_negation true (assign "negation" (Plain word) g).
Proof.
  intros [] g word H; cbn in *.
  - destruct H as [w0 ->]. cbn. eauto.
  - subst g. cbn. eauto.
Qed.

Lemma negations_idle : forall words b g s,
  only_negation b g ->
  exists g',
    for_each (TP.body conf word_to_num) (map negation words)
      (TP.Loop g false s) = Go (TP.Loop g' false s)
    /\ only_negation (b || any_word words) g'.
Proof.
  induction words as [|word words IH]; intros b g s Hg; cbn [map for_each].
  - exists g. now rewrite orb_false_r.
  - rewrite body_negation_idle
      by (destruct b; cbn in Hg; [destruct Hg as [? ->]|subst g]; reflexivity).
    cbn [bind].
    destruct (IH true _ s (only_negation_assign _ _ word Hg)) as (g' & -> & Hg').
    exists g'. split; [reflexivity|]. cbn [any_word orb] in *.
    now rewrite orb_true_r.
Qed.

Lemma negations_deferred : forall words b g s key value polarity,
  String.eqb key "negation" = false ->
  only_negation b g ->
  exists g',
    for_each (TP.body conf word_to_num) (map negation words)
      (TP.Loop ((key, Paired value polarity) :: g) true s)
    = Go (TP.Loop ((key, Paired value polarity) :: g') true s)
    /\ only_negation (b || any_word words) g'.
Proof.
  induction words as [|word words IH]; intros b g s key value pol Hk Hg;
    cbn [map for_each].
  - exists g. now rewrite orb_false_r.
  - rewrite body_negation_deferred.
    + cbn [bind assign]. rewrite Hk.
      destruct (IH true _ s key value pol Hk (only_negation_assign _ _ word Hg))
        as (g' & -> & Hg').
      exists g'. split; [reflexivity|]. cbn [any_word orb] in *.
      now rewrite orb_true_r.
    + unfold has_key. cbn [existsb fst].
      destruct b; cbn in Hg; [destruct Hg as [? ->]|subst g]; cbn;
        (destruct (String.eqb_spec key "passages") as [->|_];
         [reflexivity|destruct (String.eqb key "line"); reflexivity]).
Qed.

End DirectionFacts.

Section Direction.
Variable conf : TP.lines.
Variable word_to_num : string -> parse number.

(** X3. A line threshold is "at least" only when neither the quantity nor
    the line name was negated: negations before the first entity of the
    group and negations between the two both turn it into "less than",
    however many there are, and in either order of the two entities. *)
Theorem threshold_direction_is_conjunction :
  forall before_first adverb before_second name n s,
  Utils.adverb_to_number word_to_num adverb (TP.said s)
  = (Returns (Some n), TP.said s) ->
  PyStr.lower name = TP.line_1 conf ->
  let committed :=
    Some (Returns true,
          TP.with_foi
            (TP.set_line1
               (threshold n (negb (any_word before_first)
                             && negb (any_word before_second)))
               (TP.foi s)) s) in
  TP.update conf word_to_num
    (map negation before_first ++ [passages adverb]
     ++ map negation before_second ++ [line name]) s = committed
  /\ TP.update conf word_to_num
       (map negation before_first ++ [line name]
        ++ map negation before_second ++ [passages adverb]) s = committed.
Proof.
  intros ws1 adverb ws2 name n [f d] Hn Hname. cbn [TP.said TP.foi] in *.
  cbv zeta. unfold TP.update, TP.loop. rewrite !for_each_app.
  destruct (negations_idle conf word_to_num ws1 false [] (TP.Self f d) eq_refl)
    as (g1 & -> & Hg1).
  cbn [bind orb] in *. cbn [app for_each]. split.
  - assert (H1 : TP.body conf word_to_num (passages adverb)
                   (TP.Loop g1 false (TP.Self f d))
                 = Go (TP.Loop [("passages",
                                  Paired adverb (negb (any_word ws1)))]
                         true (TP.Self f d))).
    { destruct (any_word ws1); cbn in Hg1;
        [destruct Hg1 as [w0 ->]|subst g1]; reflexivity. }
    rewrite H1. cbn [bind]. rewrite for_each_app.
    destruct (negations_deferred conf word_to_num ws2 false []
                (TP.Self f d) "passages" adverb (negb (any_word ws1))
                eq_refl eq_refl) as (g2 & -> & Hg2).
    cbn [bind orb for_each] in *.
    assert (H2 : TP.body conf word_to_num (line name)
                   (TP.Loop (("passages", Paired adverb (negb (any_word ws1)))
                             :: g2) true (TP.Self f d))
                 = Go (TP.Loop [] false
                         (TP.Self
                            (TP.set_line1
                               (threshold n (negb (any_word ws1)
                                             && negb (any_word ws2))) f) d))).
    { unfold TP.body, TP.flush, TP.update_line.
      destruct (any_word ws2); cbn in Hg2;
        [destruct Hg2 as [w0 ->]|subst g2]; cbn;
        rewrite Hn, Hname, String.eqb_refl; reflexivity. }
    rewrite H2. reflexivity.
  - assert (H1 : TP.body conf word_to_num (line name)
                   (TP.Loop g1 false (TP.Self f d))
                 = Go (TP.Loop [("line", Paired name (negb (any_word ws1)))]
                         true (TP.Self f d))).
    { destruct (any_word ws1); cbn in Hg1;
        [destruct Hg1 as [w0 ->]|subst g1]; reflexivity. }
    rewrite H1. cbn [bind]. rewrite for_each_app.
    destruct (negations_deferred conf word_to_num ws2 false []
                (TP.Self f d) "line" name (negb (any_word ws1))
                eq_refl eq_refl) as (g2 & -> & Hg2).
    cbn [bind orb for_each] in *.
    assert (H2 : TP.body conf word_to_num (passages adverb)
                   (TP.Loop (("line", Paired name (negb (any_word ws1)))
                             :: g2) true (TP.Self f d))
                 = Go (TP.Loop [] false
                         (TP.Self
                            (TP.set_line1
                               (threshold n (negb (any_word ws1)
                                             && negb (any_word ws2))) f) d))).
    { unfold TP.body, TP.flush, TP.update_line.
      destruct (any_word ws2); cbn in Hg2;
        [destruct Hg2 as [w0 ->]|subst g2]; cbn;
        rewrite Hn, Hname, String.eqb_refl;
        destruct (any_word ws1); reflexivity. }
    rewrite H2. reflexivity.
Qed.

(** X6. Outside a line group, a clothing entity whose item is neither "hat"
    nor "bag" writes no field, yet empties the buffer: a negation that
    was waiting there is used up by it. *)
Theorem unknown_clothing_only_clears_buffer : forall pre item s st,
  TP.loop conf word_to_num pre s = Go st ->
  TP.line_flag st = false ->
  item <> "hat" -> item <> "bag" ->
  TP.loop conf word_to_num (pre ++ [clothing item]) s
  = Go (TP.Loop [] false (TP.self st)).
Proof.
  intros pre item s [g lf s1] Hpre Hlf Hhat Hbag.
  cbn [TP.line_flag TP.self] in *. subst lf.
  destruct (loop_pending_shape _ _ _ _ _ Hpre) as [Hflag _].
  cbn [TP.line_flag TP.current_group] in Hflag.
  assert (Hnone : has_key "passages" g || has_key "line" g = false).
  { destruct (has_key "passages" g || has_key "line" g); [|reflexivity].
    discriminate (Hflag eq_refl). }
  apply orb_false_iff in Hnone. destruct Hnone as [Hp Hl].
  rewrite loop_snoc, Hpre. cbn [bind]. unfold TP.body.
  cbn [clothing entity_key entity_value TP.line_flag TP.current_group TP.self].
  rewrite elem_people.
  cbn [String.eqb Ascii.eqb Bool.eqb andb orb bind forallb
       TP.line_flag TP.current_group TP.self].
  rewrite !has_key_assign.
  cbn [String.eqb Ascii.eqb Bool.eqb andb orb bind negb
       TP.line_flag TP.current_group TP.self].
  rewrite Hp, Hl. cbn [andb bind negb TP.line_flag TP.current_group TP.self].
  replace (PyStr.contains "clothing" "clothing") with true by reflexivity.
  unfold TP.update_clothing.
  apply String.eqb_neq in Hhat, Hbag. rewrite Hhat, Hbag. reflexivity.
Qed.
End Direction.

Lemma threshold_direction_is_conjunction_witness :
  TP.update TP.mall_lines no_words
    (map negation ["not"] ++ [passages "twice"]
     ++ map negation [] ++ [line "Alpha line"])
    (TP.Self TP.initial_foi [])
  = Some (Returns true,
          TP.Self (TP.set_line1 (threshold (NInt 2) false) TP.initial_foi) [])
  /\ TP.update TP.mall_lines no_words
       (map negation ["not"] ++ [line "Alpha line"]
        ++ map negation [] ++ [passages "twice"])
       (TP.Self TP.initial_foi [])
     = Some (Returns true,
             TP.Self (TP.set_line1 (threshold (NInt 2) false) TP.initial_foi)
               []).
Proof.
  exact (threshold_direction_is_conjunction TP.mall_lines no_words
           ["not"] "twice" [] "Alpha line" (NInt 2)
           (TP.Self TP.initial_foi []) eq_refl eq_refl).
Defined.

Lemma unknown_clothing_only_clears_buffer_witness :
  TP.loop TP.mall_lines no_words ([negation "not"] ++ [clothing "scarf"])
    (TP.Self TP.initial_foi [])
  = Go (TP.Loop [] false (TP.Self TP.initial_foi [])).
Proof.
  apply (unknown_clothing_only_clears_buffer TP.mall_lines no_words
           [negation "not"] "scarf" (TP.Self TP.initial_foi [])
           (TP.Loop [("negation", Plain "not")] false
              (TP.Self TP.initial_foi []))).
  - reflexivity.
  - reflexivity.
  - discriminate.
  - discriminate.
Defined.

(** * The interpreter of the groups *)

Section GroupsLoop.
Variable word_to_num : string -> parse number.
Variable py_int : string -> option Z.
Variable py_float : string -> option float.

Lemma body_mark : forall word g s,
  has_key "mark" g = false ->
  TG.body word_to_num py_int py_float (mark word) (TG.Loop g false s)
  = match Utils.word_to_number word_to_num py_int py_float word (TG.said s) with
    | (Returns (Some n), d) =>
        Go (TG.Loop [] false
              (TG.Self (TG.Foi (threshold n (negb (has_key "negation" g)))) d))
    | (Returns None, d) => ReturnFalse (TG.Self (TG.foi s) d)
    | (Raises, d) => Raise (TG.Self (TG.foi s) d)
    end.
Proof.
  intros word g [f d] Hg. unfold TG.body.
  cbn [mark entity_key entity_value TG.score_flag TG.current_group TG.self
       PyStr.elem existsb String.eqb Ascii.eqb Bool.eqb orb andb bind forallb].
  rewrite has_key_assign. cbn [String.eqb Ascii.eqb Bool.eqb orb andb].
  unfold TG.flush, TG.update_score. rewrite lookup_assign_same.
  cbn [TG.said TG.foi].
  destruct (Utils.word_to_number _ _ _ word d) as [[[n|]|] d']; reflexivity.
Qed.

Lemma body_other : forall e g s,
  String.eqb (entity_key e) "mark" = false ->
  has_key "mark" g = false ->
  TG.body word_to_num py_int py_float e (TG.Loop g false s)
  = Go (TG.Loop (assign (entity_key e) (Plain (entity_value e)) g) false s).
Proof.
  intros [k v] g s Hk Hg. cbn [entity_key entity_value] in *. unfold TG.body.
  cbn [entity_key entity_value TG.score_flag TG.current_group TG.self
       PyStr.elem existsb orb andb bind forallb].
  rewrite Hk. cbn [orb andb bind TG.score_flag TG.current_group TG.self].
  rewrite has_key_assign, Hk, Hg. reflexivity.
Qed.

Lemma body_score_idle : forall e st st',
  score_idle st -> TG.body word_to_num py_int py_float e st = Go st' ->
  score_idle st'.
Proof.
  intros e [g lf s] st' [Hlf Hg] H. cbn [TG.score_flag TG.current_group] in *.
  subst lf. destruct (String.eqb (entity_key e) "mark") eqn:Hk.
  - destruct e as [k v]. cbn [entity_key] in Hk.
    apply String.eqb_eq in Hk. subst k.
    change (Entity "mark" v) with (mark v) in H.
    rewrite body_mark in H by exact Hg.
    destruct (Utils.word_to_number _ _ _ v (TG.said s)) as [[[n|]|] d];
      try discriminate. injection H as <-. split; reflexivity.
  - rewrite body_other in H by assumption. injection H as <-.
    split; [reflexivity|]. cbn [TG.current_group].
    now rewrite has_key_assign, Hk.
Qed.

Lemma loop_score_idle : forall es s st,
  TG.loop word_to_num py_int py_float es s = Go st -> score_idle st.
Proof.
  intros es s st H. unfold TG.loop in H.
  eapply for_each_Go_inv in H; [exact H|apply body_score_idle|].
  split; reflexivity.
Qed.

Lemma groups_loop_snoc : forall es x s,
  TG.loop word_to_num py_int py_float (es ++ [x]) s
  = bind (TG.loop word_to_num py_int py_float es s)
      (TG.body word_to_num py_int py_float x).
Proof.
  intros es x s. unfold TG.loop. rewrite for_each_app.
  destruct (for_each _ es _); cbn; [|reflexivity..].
  destruct (TG.body _ _ _ x a); reflexivity.
Qed.

(** A mark flushes in the iteration that reads it: the loop never
    carries a mark from one iteration to the next. *)
Lemma mark_completes_at_once : forall pre word s st,
  TG.loop word_to_num py_int py_float pre s = Go st ->
  TG.loop word_to_num py_int py_float (pre ++ [mark word]) s
  = match
      Utils.word_to_number word_to_num py_int py_float word
        (TG.said (TG.self st))
    with
    | (Returns (Some n), d) =>
        Go (TG.Loop [] false
              (TG.Self
                 (TG.Foi (threshold n
                            (negb (has_key "negation" (TG.current_group st)))))
                 d))
    | (Returns None, d) => ReturnFalse (TG.Self (TG.foi (TG.self st)) d)
    | (Raises, d) => Raise (TG.Self (TG.foi (TG.self st)) d)
    end.
Proof.
  intros pre word s [g lf s1] Hpre.
  destruct (loop_score_idle _ _ _ Hpre) as [Hlf Hg].
  cbn [TG.score_flag TG.current_group TG.self] in *. subst lf.
  rewrite groups_loop_snoc, Hpre. cbn [bind]. now apply body_mark.
Qed.

Lemma finish_without_mark : forall g s,
  has_key "mark" g = false -> nonempty g = true ->
  TG.finish word_to_num py_int py_float (TG.Loop g false s) = Some (Returns false, s).
Proof.
  intros g s Hg Hne. unfold TG.finish. cbn [TG.current_group TG.self].
  rewrite Hne. unfold TG.update_score.
  apply has_key_lookup in Hg. now rewrite Hg.
Qed.

Lemma assign_nonempty : forall (g : group) k v, nonempty (assign k v g) = true.
Proof.
  intros [|[k0 v0] g] k v; cbn; [reflexivity|].
  destruct (String.eqb k0 k); reflexivity.
Qed.

Lemma word_to_number_messages : forall word d,
  match Utils.word_to_number word_to_num py_int py_float word d with
  | (Returns (Some _), d') => d' = d
  | (Returns None, d') => d' = d ++ [Utils.number_message word]
  | (Raises, d') =>
      d' = d /\ ~ word_returns word_to_num py_int py_float word
  end.
Proof.
  intros word d. unfold word_returns, Utils.word_to_number.
  destruct (py_int word); [reflexivity|].
  destruct (py_float word); [reflexivity|].
  destruct (word_to_num word); cbn; auto.
Qed.

Lemma for_each_sat_in {S A X} (P : A -> Prop) (Q E : S -> Prop)
  (body : X -> A -> ctl S A) es :
  (forall e a, In e es -> P a -> ctl_sat P Q E (body e a)) ->
  forall a, P a -> ctl_sat P Q E (for_each body es a).
Proof.
  induction es as [|e es IH]; intros Hbody a Ha; cbn; [exact Ha|].
  eapply bind_sat; [apply Hbody; [now left|exact Ha]|].
  intros a' Ha'. apply IH; [|exact Ha'].
  intros e' a'' Hin. apply Hbody. now right.
Qed.

Lemma marks_return_in : forall es word,
  marks_return word_to_num py_int py_float es ->
  In (mark word) es ->
  word_returns word_to_num py_int py_float word.
Proof.
  intros es word Hes Hin. unfold marks_return in Hes.
  rewrite Forall_forall in Hes. exact (Hes _ Hin eq_refl).
Qed.

(** From an idle state an iteration goes on idle with the same messages,
    or returns False after the one message of a rejected mark, or is
    left by the exception that the parser raises on the word of the
    mark, with the same messages. *)
Lemma body_from_idle : forall d e st,
  score_idle st -> TG.said (TG.self st) = d ->
  ctl_sat (fun st' => score_idle st' /\ TG.said (TG.self st') = d)
    (fun s' => exists m, TG.said s' = d ++ [m])
    (fun s' => TG.said s' = d
               /\ entity_key e = "mark"
               /\ ~ word_returns word_to_num py_int py_float (entity_value e))
    (TG.body word_to_num py_int py_float e st).
Proof.
  intros d e [g lf s] [Hlf Hg] Hd.
  cbn [TG.score_flag TG.current_group TG.self] in *. subst lf.
  destruct (String.eqb (entity_key e) "mark") eqn:Hk.
  - destruct e as [k v]. cbn [entity_key entity_value] in *.
    apply String.eqb_eq in Hk. subst k.
    change (Entity "mark" v) with (mark v). rewrite body_mark by exact Hg.
    pose proof (word_to_number_messages v (TG.said s)) as Hm.
    destruct (Utils.word_to_number _ _ _ v (TG.said s)) as [[[n|]|] d'];
      cbn.
    + subst d'. repeat split. exact Hd.
    + subst d'. rewrite Hd. eauto.
    + destruct Hm as [-> Hm]. auto.
  - rewrite body_other by assumption. cbn. repeat split; [|exact Hd].
    cbn [TG.current_group]. now rewrite has_key_assign, Hk.
Qed.

Lemma loop_from_idle : forall es s,
  ctl_sat (fun st' => score_idle st' /\ TG.said (TG.self st') = TG.said s)
    (fun s' => exists m, TG.said s' = TG.said s ++ [m])
    (fun s' => TG.said s' = TG.said s
               /\ ~ marks_return word_to_num py_int py_float es)
    (TG.loop word_to_num py_int py_float es s).
Proof.
  intros es s. unfold TG.loop.
  apply for_each_sat_in.
  - intros e a Hin [Ha Hd].
    pose proof (body_from_idle (TG.said s) e a Ha Hd) as H.
    destruct (TG.body word_to_num py_int py_float e a); cbn in *; auto.
    destruct H as (Hs & Hk & Hw). split; [exact Hs|].
    intros Hes. apply Hw. destruct e as [k v]. cbn in Hk. subst k.
    exact (marks_return_in es v Hes Hin).
  - repeat split.
Qed.

(** A stream with no mark fills the buffer and writes nothing; the last
    flush then finds no mark. *)
Lemma groups_update_without_mark : forall es s,
  es <> [] ->
  Forall (fun e => entity_key e <> "mark") es ->
  TG.update word_to_num py_int py_float es s = Some (Returns false, s).
Proof.
  intros es s Hne Hes. unfold TG.update, TG.loop.
  assert (H : forall g, has_key "mark" g = false ->
            exists g', for_each (TG.body word_to_num py_int py_float) es
                         (TG.Loop g false s)
                       = Go (TG.Loop g' false s)
                       /\ has_key "mark" g' = false
                       /\ (nonempty g = true \/ es <> [] ->
                           nonempty g' = true)).
  { clear Hne. induction Hes as [|e es He _ IH]; intros g Hg.
    - exists g. cbn. repeat split; [exact Hg|]. intros [H|H]; [exact H|].
      now elim H.
    - apply String.eqb_neq in He. cbn [for_each].
      rewrite body_other by assumption. cbn [bind].
      destruct (IH (assign (entity_key e) (Plain (entity_value e)) g))
        as (g' & -> & Hg' & Hne').
      { now rewrite has_key_assign, He. }
      exists g'. repeat split; [exact Hg'|]. intros _. apply Hne'.
      left. apply assign_nonempty. }
  destruct (H [] eq_refl) as (g' & -> & Hg' & Hne').
  apply finish_without_mark; [exact Hg'|]. apply Hne'. now right.
Qed.

(** X9. [TrackingGroups.update] never returns true when the last entity
    of the stream is not a mark, even if every mark before it was
    committed: it returns false, unless the word parser raises its
    exception on the word of a mark; when the stream has no mark at all
    it returns false without a message and without touching the
    object. *)
Theorem groups_update_needs_final_mark :
  (forall pre e s,
     entity_key e <> "mark" ->
     exists r s',
       TG.update word_to_num py_int py_float (pre ++ [e]) s = Some (r, s')
       /\ r <> Returns true
       /\ (marks_return word_to_num py_int py_float pre ->
           r = Returns false))
  /\ (forall es s,
        es <> [] ->
        Forall (fun e => entity_key e <> "mark") es ->
        TG.update word_to_num py_int py_float es s = Some (Returns false, s)).
Proof.
  split; [|exact groups_update_without_mark].
  intros pre e s He. apply String.eqb_neq in He.
  unfold TG.update. rewrite groups_loop_snoc.
  pose proof (loop_from_idle pre s) as Hpre.
  destruct (TG.loop word_to_num py_int py_float pre s) as [[g lf s1]|s1|s1|];
    cbn [bind ctl_sat] in *.
  - destruct Hpre as [[Hlf Hg] _].
    cbn [TG.score_flag TG.current_group] in *. subst lf.
    rewrite body_other by assumption. exists (Returns false), s1.
    split; [|split; [discriminate|reflexivity]].
    apply finish_without_mark; [|apply assign_nonempty].
    now rewrite has_key_assign, He.
  - exists (Returns false), s1.
    split; [reflexivity|split; [discriminate|reflexivity]].
  - exists Raises, s1. split; [reflexivity|split; [discriminate|]].
    intros H. now destruct Hpre as [_ Hn].
  - contradiction.
Qed.

(** [update] of the groups is never ill-typed and keeps a complete
    score complete; it utters nothing when it returns true, nothing or
    one message when it returns false, and nothing when the exception
    of the parser goes through it, which happens only on the word of a
    mark. *)
Lemma groups_update_cases : forall es s,
  exists r s',
    TG.update word_to_num py_int py_float es s = Some (r, s')
    /\ (group_tracker_ok s -> group_tracker_ok s')
    /\ outcome_sat (fun s' => TG.said s' = TG.said s)
         (fun s' => TG.said s' = TG.said s
                    \/ exists m, TG.said s' = TG.said s ++ [m])
         (fun s' => TG.said s' = TG.said s
                    /\ ~ marks_return word_to_num py_int py_float es) r s'.
Proof.
  intros es s.
  assert (H : exists r s',
            TG.update word_to_num py_int py_float es s = Some (r, s')
            /\ outcome_sat (fun s' => TG.said s' = TG.said s)
                 (fun s' => TG.said s' = TG.said s
                            \/ exists m, TG.said s' = TG.said s ++ [m])
                 (fun s' => TG.said s' = TG.said s
                            /\ ~ marks_return word_to_num py_int py_float es)
                 r s').
  { unfold TG.update.
    pose proof (loop_from_idle es s) as H.
    destruct (TG.loop word_to_num py_int py_float es s) as [[g lf s1]|s1|s1|];
      cbn [ctl_sat] in *.
    - destruct H as [[Hlf Hg] Hd].
      cbn [TG.score_flag TG.current_group TG.self] in *. subst lf.
      unfold TG.finish. cbn [TG.current_group TG.self].
      destruct (nonempty g) eqn:Hne.
      + exists (Returns false), s1. split; [|now left].
        unfold TG.update_score. apply has_key_lookup in Hg. now rewrite Hg.
      + exists (Returns true), s1. split; [reflexivity|exact Hd].
    - exists (Returns false), s1. split; [reflexivity|now right].
    - exists Raises, s1. split; [reflexivity|exact H].
    - contradiction. }
  destruct H as (b & s' & E & Hm). exists b, s'.
  split; [exact E|]. split; [|exact Hm].
  intros Hs.
  destruct (group_update_ok word_to_num py_int py_float es s Hs)
    as (b2 & s2 & E2 & Hok).
  rewrite E in E2. now injection E2 as <- <-.
Qed.

(** X10. [TrackingGroups.update] is never ill-typed and utters at most
    one message: nothing when it returns true, nothing or one message
    when it returns false, and nothing when an exception of the word
    parser other than [ValueError] goes through it, which happens only
    when the parser raises it on the word of a mark of the stream. *)
Theorem groups_update_utters_at_most_once : forall es s,
  exists r s',
    TG.update word_to_num py_int py_float es s = Some (r, s')
    /\ (r = Returns true -> TG.said s' = TG.said s)
    /\ (r = Returns false ->
        TG.said s' = TG.said s \/ exists m, TG.said s' = TG.said s ++ [m])
    /\ (r = Raises -> TG.said s' = TG.said s)
    /\ (marks_return word_to_num py_int py_float es ->
        exists b, r = Returns b).
Proof.
  intros es s.
  destruct (groups_update_cases es s) as (r & s' & E & _ & Hm).
  exists r, s'. split; [exact E|].
  destruct r as [[|]|]; cbn [outcome_sat] in Hm;
    repeat split; intros; try discriminate; try assumption; eauto.
  - apply Hm.
  - now destruct Hm.
Qed.

Lemma parsed_number_spec : forall word d n,
  parsed_number word_to_num py_int py_float word = Some n ->
  Utils.word_to_number word_to_num py_int py_float word d
  = (Returns (Some n), d).
Proof.
  intros word d n. unfold parsed_number, Utils.word_to_number.
  destruct (py_int word); [cbn; congruence|].
  destruct (py_float word); [cbn; congruence|].
  destruct (word_to_num word); cbn; congruence.
Qed.

Lemma pending_negation_snoc : forall es e,
  pending_negation (es ++ [e])
  = if String.eqb (entity_key e) "mark" then false
    else pending_negation es || String.eqb (entity_key e) "negation".
Proof.
  intros es e. unfold pending_negation. now rewrite fold_left_app.
Qed.

(** While every mark converts, the loop goes on with the messages
    intact, and its buffer holds a negation exactly when one came after
    the last mark. *)
Lemma loop_pending_negation : forall es s,
  Forall (fun e => entity_key e = "mark" ->
                   parsed_number word_to_num py_int py_float (entity_value e)
                   <> None) es ->
  exists g f,
    TG.loop word_to_num py_int py_float es s
    = Go (TG.Loop g false (TG.Self f (TG.said s)))
    /\ has_key "mark" g = false
    /\ has_key "negation" g = pending_negation es.
Proof.
  induction es as [|e es IH] using rev_ind; intros s Hes.
  - exists [], (TG.foi s). destruct s. repeat split.
  - apply Forall_app in Hes. destruct Hes as [Hes He].
    inversion He as [|? ? He' _]; subst.
    destruct (IH s Hes) as (g & f & Hl & Hm & Hn).
    rewrite groups_loop_snoc, Hl. cbn [bind].
    rewrite pending_negation_snoc.
    destruct (String.eqb (entity_key e) "mark") eqn:Hk.
    + apply String.eqb_eq in Hk. specialize (He' Hk).
      destruct e as [k v]. cbn [entity_key entity_value] in *. subst k.
      change (Entity "mark" v) with (mark v). rewrite body_mark by exact Hm.
      cbn [TG.said].
      destruct (parsed_number word_to_num py_int py_float v) as [n|] eqn:En;
        [|congruence].
      rewrite (parsed_number_spec v (TG.said s) n En).
      eexists [], _. repeat split.
    + rewrite body_other by assumption.
      eexists _, f. split; [reflexivity|].
      rewrite !has_key_assign, Hk, Hm, Hn.
      split; [reflexivity|]. apply orb_comm.
Qed.

(** X11. When every mark of the stream converts and the stream ends with a
    mark, [TrackingGroups.update] returns true without a message and the
    score is the threshold of the last mark alone: earlier marks are
    overwritten, and the direction is "less than" exactly when a negation
    came after the mark before it. *)
Theorem groups_last_mark_wins : forall pre word n s,
  Forall (fun e => entity_key e = "mark" ->
                   parsed_number word_to_num py_int py_float (entity_value e)
                   <> None) pre ->
  parsed_number word_to_num py_int py_float word = Some n ->
  TG.update word_to_num py_int py_float (pre ++ [mark word]) s
  = Some (Returns true,
          TG.Self (TG.Foi (threshold n (negb (pending_negation pre))))
            (TG.said s)).
Proof.
  intros pre word n s Hpre Hn.
  destruct (loop_pending_negation pre s Hpre) as (g & f & Hl & Hm & Hg).
  unfold TG.update.
  rewrite (mark_completes_at_once pre word s _ Hl).
  cbn [TG.self TG.said TG.current_group].
  rewrite (parsed_number_spec word (TG.said s) n Hn), Hg. reflexivity.
Qed.
End GroupsLoop.

Lemma groups_update_needs_final_mark_witness :
  (exists r s',
     TG.update no_words (fun _ => None) (fun _ => None)
       ([mark "seven"] ++ [negation "not"]) (TG.Self TG.initial_foi [])
     = Some (r, s')
     /\ r <> Returns true
     /\ (marks_return no_words (fun _ => None) (fun _ => None)
           [mark "seven"] -> r = Returns false))
  /\ TG.update five_only (fun _ => None) (fun _ => None)
       [negation "not"] (TG.Self TG.initial_foi [])
     = Some (Returns false, TG.Self TG.initial_foi []).
Proof.
  split.
  - apply (proj1 (groups_update_needs_final_mark no_words
                    (fun _ => None) (fun _ => None))).
    discriminate.
  - apply (proj2 (groups_update_needs_final_mark five_only
                    (fun _ => None) (fun _ => None))).
    + discriminate.
    + repeat constructor. discriminate.
Defined.

(** The exception does go through: on a mark whose word makes the
    parser raise, after an earlier mark was committed. *)
Lemma groups_update_can_raise :
  TG.update (fun text => if String.eqb text "five" then Parsed (NInt 5)
                         else brittle text)
    (fun _ => None) (fun _ => None)
    [mark "five"; mark "thousand five"; negation "not"]
    (TG.Self TG.initial_foi [])
  = Some (Raises, TG.Self (TG.Foi (threshold (NInt 5) true)) []).
Proof. reflexivity. Qed.

Lemma groups_last_mark_wins_witness :
  TG.update five_only (fun _ => None) (fun _ => None)
    ([negation "not"; mark "5"; gender "male"] ++ [mark "5"])
    (TG.Self TG.initial_foi [])
  = Some (Returns true, TG.Self (TG.Foi (threshold (NInt 5) true)) []).
Proof.
  apply (groups_last_mark_wins five_only (fun _ => None) (fun _ => None)
           [negation "not"; mark "5"; gender "male"] "5" (NInt 5)
           (TG.Self TG.initial_foi [])).
  - repeat (apply Forall_cons || apply Forall_nil);
      cbn; intros H; try discriminate H; discriminate.
  - reflexivity.
Defined.

(** * The two evaluators *)

Lemma filter_complement_permutation {A} (p : A -> bool) xs :
  Permutation (filter p xs ++ filter (fun x => negb (p x)) xs) xs.
Proof.
  induction xs as [|x xs IH]; cbn; [constructor|].
  destruct (p x); cbn.
  - now constructor.
  - symmetry. apply Permutation_cons_app. now symmetry.
Qed.

Lemma filter_all {A} (xs : list A) : filter (fun _ => true) xs = xs.
Proof.
  induction xs as [|x xs IH]; cbn; [reflexivity|]. now rewrite IH.
Qed.

Lemma filter_nothing {A} (f : A -> bool) (xs : list A) :
  (forall x, f x = false) -> filter f xs = [].
Proof.
  intros H. induction xs as [|x xs IH]; cbn; [reflexivity|].
  now rewrite H.
Qed.

Lemma groups_filteringJSON_filter : forall groups f,
  group_threshold_ok f ->
  TG.filteringJSON groups f
  = Some (filter (fun g => score_met (TG.group_score g) (TG.score f)) groups).
Proof.
  intros groups [v] [Hv | (bound & dir & Hv)]; cbn in Hv; subst v.
  - cbn. now rewrite filter_all.
  - unfold TG.filteringJSON. cbn [TG.items TG.score TP.slice TP.not_none
      firstn skipn Nat.sub filter snd is_none threshold negb nonempty].
    apply keep_if_filter. intros g _. cbn.
    unfold number_ge, number_lt. cbn [as_number].
    destruct dir; cbn;
      [destruct (num_le bound (TG.group_score g))
      |destruct (num_lt (TG.group_score g) bound)]; reflexivity.
Qed.

(** Away from nan, [a < b] is the negation of [b <= a]. *)
Lemma num_lt_negb : forall a b,
  is_nan a = false -> is_nan b = false -> num_lt a b = negb (num_le b a).
Proof.
  intros [x|[p|u|]] [y|[q|v|]] Ha Hb; try discriminate; reflexivity.
Qed.

Lemma nan_bound_matches_no_group : forall groups,
  TG.filteringJSON groups (TG.Foi (threshold (NFloat NaN) true)) = Some []
  /\ TG.filteringJSON groups (TG.Foi (threshold (NFloat NaN) false))
     = Some [].
Proof.
  intros groups.
  rewrite !groups_filteringJSON_filter
    by (right; eexists _, _; reflexivity).
  cbn [TG.score threshold score_met].
  split; f_equal; apply filter_nothing; intros g; apply num_nan.
Qed.

(** X12. The "at least" query for a bound returns the groups whose score
    is at least the bound and the "less than" query those whose score is
    below it, in dataset order.  When neither the bound nor a score is a
    nan the two split the ranking: each group is returned by exactly one
    of them.  A nan bound, which [float] reads from the mark "nan",
    makes both queries return nothing.  With no threshold set the whole
    ranking is returned. *)
Theorem groups_directions_split_the_ranking : forall groups bound,
  exists above below,
    TG.filteringJSON groups (TG.Foi (threshold bound true)) = Some above
    /\ TG.filteringJSON groups (TG.Foi (threshold bound false)) = Some below
    /\ above = filter (fun g => num_le bound (TG.group_score g)) groups
    /\ below = filter (fun g => num_lt (TG.group_score g) bound) groups
    /\ (is_nan bound = false ->
        Forall (fun g => is_nan (TG.group_score g) = false) groups ->
        Permutation (above ++ below) groups)
    /\ (is_nan bound = true -> above = [] /\ below = [])
    /\ TG.filteringJSON groups TG.initial_foi = Some groups.
Proof.
  intros groups bound.
  eexists _, _.
  rewrite !groups_filteringJSON_filter
    by (try (left; reflexivity); right; eexists _, _; reflexivity).
  split; [reflexivity|]. split; [reflexivity|].
  split; [reflexivity|]. split; [reflexivity|].
  cbn [TG.score threshold score_met].
  split; [|split].
  - intros Hb Hg.
    rewrite (filter_ext_in (fun g => num_lt (TG.group_score g) bound)
               (fun g => negb (num_le bound (TG.group_score g)))).
    + apply filter_complement_permutation.
    + intros g Hin. rewrite Forall_forall in Hg.
      apply num_lt_negb; [now apply Hg|exact Hb].
  - intros Hb. destruct bound as [z|[q|u|]]; try discriminate Hb.
    split; apply filter_nothing; intros g; apply num_nan.
  - cbn. now rewrite filter_all.
Qed.

Lemma retained_set_line : forall set i f v p,
  In (set, i) line_setters ->
  retained (set v f) p
  = retained (set PNone f) p && threshold_met (occurrences i p) v.
Proof.
  intros set i [g b h l1 l2 l3 l4] v p Hin. unfold retained.
  cbn in Hin.
  destruct Hin as [[= <- <-]|[[= <- <-]|[[= <- <-]|[[= <- <-]|[]]]]];
    cbn [TP.set_line1 TP.set_line2 TP.set_line3 TP.set_line4
         TP.gender TP.bag TP.hat TP.line1_passages TP.line2_passages
         TP.line3_passages TP.line4_passages threshold_met];
    repeat match goal with
           | |- context [attribute_met ?a ?b] =>
               generalize (attribute_met a b); intro
           | |- context [threshold_met ?a ?b] =>
               generalize (threshold_met a b); intro
           end;
    repeat match goal with b : bool |- _ => destruct b end; reflexivity.
Qed.

Lemma set_line_ok : forall set i f v,
  In (set, i) line_setters ->
  people_thresholds_ok f -> threshold_ok v ->
  people_thresholds_ok (set v f).
Proof.
  intros set i [g b h l1 l2 l3 l4] v Hin (H1 & H2 & H3 & H4) Hv.
  cbn in Hin.
  destruct Hin as [[= <- <-]|[[= <- <-]|[[= <- <-]|[[= <- <-]|[]]]]];
    repeat split; assumption.
Qed.

(** X13. Setting the threshold of a line narrows the matches of the same
    query without it: "at least" keeps the matches whose count of the
    line is at least the bound, "less than" those whose count is below
    it, in dataset order; and the two directions of one bound split
    those matches, each being returned by exactly one of them, for
    every bound that is a number; a nan bound, which no quantity
    converts to, compares false both ways and makes both directions
    return nothing. *)
Theorem line_directions_split_the_matches :
  forall people f bound set i,
  people_thresholds_ok f ->
  In (set, i) line_setters ->
  exists base above below,
    TP.filteringJSON people (set PNone f) = Some base
    /\ TP.filteringJSON people (set (threshold bound true) f) = Some above
    /\ TP.filteringJSON people (set (threshold bound false) f) = Some below
    /\ above
       = filter (fun c => num_le bound (NInt (occurrences i (TP.who c)))) base
    /\ below
       = filter (fun c => num_lt (NInt (occurrences i (TP.who c))) bound) base
    /\ (is_nan bound = false -> Permutation (above ++ below) base)
    /\ (is_nan bound = true -> above = [] /\ below = []).
Proof.
  intros people f bound set i Hf Hin.
  eexists _, _, _.
  rewrite !filteringJSON_retains
    by (eapply set_line_ok; eauto; try (left; reflexivity);
        right; eexists _, _; reflexivity).
  split; [reflexivity|]. split; [reflexivity|]. split; [reflexivity|].
  assert (E : forall d,
    map with_counts
      (filter (retained (set (threshold bound d) f)) people)
    = filter (fun c => if d
                       then num_le bound (NInt (occurrences i (TP.who c)))
                       else num_lt (NInt (occurrences i (TP.who c))) bound)
        (map with_counts (filter (retained (set PNone f)) people))).
  { intros d. rewrite filter_map_comm, filter_filter. f_equal.
    apply filter_ext. intros p.
    rewrite (retained_set_line set i f (threshold bound d) p Hin).
    destruct d; reflexivity. }
  rewrite (E true), (E false).
  split; [reflexivity|]. split; [reflexivity|]. split.
  - intros Hb.
    rewrite (filter_ext
               (fun c => num_lt (NInt (occurrences i (TP.who c))) bound)
               (fun c => negb (num_le bound
                                 (NInt (occurrences i (TP.who c)))))).
    + apply filter_complement_permutation.
    + intros c. apply num_lt_negb; [reflexivity|exact Hb].
  - intros Hb. destruct bound as [z|[q|u|]]; try discriminate Hb.
    split; apply filter_nothing; intros c; apply num_nan.
Qed.

Lemma line_directions_split_the_matches_witness :
  exists base above below,
    TP.filteringJSON [man; woman; regular]
      (TP.set_line1 PNone (TP.set_hat (PBool false) TP.initial_foi))
    = Some base
    /\ TP.filteringJSON [man; woman; regular]
         (TP.set_line1 (threshold (NInt 2) true)
            (TP.set_hat (PBool false) TP.initial_foi))
       = Some above
    /\ TP.filteringJSON [man; woman; regular]
         (TP.set_line1 (threshold (NInt 2) false)
            (TP.set_hat (PBool false) TP.initial_foi))
       = Some below
    /\ above
       = filter (fun c => num_le (NInt 2) (NInt (occurrences 1 (TP.who c))))
           base
    /\ below
       = filter (fun c => num_lt (NInt (occurrences 1 (TP.who c))) (NInt 2))
           base
    /\ (is_nan (NInt 2) = false -> Permutation (above ++ below) base)
    /\ (is_nan (NInt 2) = true -> above = [] /\ below = []).
Proof.
  apply (line_directions_split_the_matches [man; woman; regular]
           (TP.set_hat (PBool false) TP.initial_foi) (NInt 2)
           TP.set_line1 1%Z).
  - repeat split; left; reflexivity.
  - left. reflexivity.
Defined.

(** * The narrator and the normaliser *)

Lemma spaceless_uint : forall d, spaceless (NilZero.string_of_uint d) = true.
Proof.
  assert (H : forall d, spaceless (NilEmpty.string_of_uint d) = true)
    by (induction d; cbn; auto).
  intros [| | | | | | | | | |]; cbn; auto.
Qed.

Lemma spaceless_str_int : forall z, spaceless (str_int z) = true.
Proof.
  intros z. unfold str_int, NilZero.string_of_int.
  destruct (Z.to_int z); cbn; apply spaceless_uint.
Qed.

Lemma spaceless_contains : forall s,
  spaceless s = true -> PyStr.contains " times" s = false.
Proof.
  induction s as [|c s IH]; intros H; [reflexivity|].
  cbn [spaceless] in H. apply andb_true_iff in H. destruct H as [Hc Hs].
  cbn [PyStr.contains String.prefix].
  destruct (ascii_dec " " c) as [<-|_]; [discriminate Hc|].
  now rewrite IH.
Qed.

Lemma times_is_no_literal : forall s,
  String.eqb (s ++ " times") "once" = false
  /\ String.eqb (s ++ " times") "one time" = false
  /\ String.eqb (s ++ " times") "twice" = false.
Proof.
  intros s.
  repeat split; apply String.eqb_neq; intros E;
    pose proof (endswith_app " times" s) as H; rewrite E in H;
    discriminate H.
Qed.

Lemma num_eq_int : forall a b, num_eq (NInt a) (NInt b) = (a =? b)%Z.
Proof.
  intros a b.
  change (num_eq (NInt a) (NInt b))
    with (num_le (NInt a) (NInt b) && num_le (NInt b) (NInt a)).
  rewrite !num_le_int.
  destruct (Z.eqb_spec a b) as [->|Hne].
  - now rewrite Z.leb_refl.
  - destruct (Z.leb_spec a b), (Z.leb_spec b a); try reflexivity. lia.
Qed.

Section RoundTrip.
Variable word_to_num : string -> parse number.
Variable float_str : float -> string.

(** X14. The quantity text that the narrator prints for an integer bound
    converts back to that bound: "once" and "twice" for 1 and 2, and
    otherwise the decimal digits followed by " times", which the adverb
    conversion hands to the word parser unchanged. *)
Theorem narrated_quantity_converts_back : forall z d,
  (z <> 1%Z -> z <> 2%Z -> word_to_num (str_int z) = Parsed (NInt z)) ->
  exists text,
    TP.passages_string float_str (PNum (NInt z)) = Some text
    /\ Utils.adverb_to_number word_to_num text d
       = (Returns (Some (NInt z)), d).
Proof.
  intros z d Hw. unfold TP.passages_string.
  cbn [Py.eqb as_number].
  destruct (Z.eq_dec z 1) as [->|H1]; [exists "once"; split; reflexivity|].
  destruct (Z.eq_dec z 2) as [->|H2]; [exists "twice"; split; reflexivity|].
  rewrite !num_eq_int.
  destruct (Z.eqb_spec z 1) as [|_]; [contradiction|].
  destruct (Z.eqb_spec z 2) as [|_]; [contradiction|].
  cbn [format str_number].
  eexists. split; [reflexivity|].
  unfold Utils.adverb_to_number.
  destruct (times_is_no_literal (str_int z)) as (-> & -> & ->).
  cbn [orb]. rewrite endswith_app.
  rewrite split_head_times
    by (apply spaceless_contains, spaceless_str_int).
  now rewrite (Hw H1 H2).
Qed.
End RoundTrip.

Lemma narrated_quantity_converts_back_witness :
  exists text,
    TP.passages_string (fun _ => "") (PNum (NInt 5)) = Some text
    /\ Utils.adverb_to_number five_only text []
       = (Returns (Some (NInt 5)), []).
Proof.
  apply (narrated_quantity_converts_back five_only (fun _ => "") 5 []).
  intros _ _. reflexivity.
Defined.

(** * The actions *)

(** X15. Every value that [ValidateFindPersonForm.validate_gender] accepts is
    "male" or "female"; it accepts without a message, never under the
    intent "doubt", and accepts its own result again unchanged; the
    letter case of the value does not matter. *)
Theorem validate_gender_normalises :
  (forall value intent d g d',
     Actions.validate_gender value intent d = (PStr g, d') ->
     (g = "male" \/ g = "female") /\ d' = d /\ intent <> "doubt"
     /\ forall d2, Actions.validate_gender (Some g) intent d2 = (PStr g, d2))
  /\ (forall value1 value2 intent d,
        PyStr.lower value1 = PyStr.lower value2 ->
        Actions.validate_gender (Some value1) intent d
        = Actions.validate_gender (Some value2) intent d).
Proof.
  split.
  - intros value intent d g d' H. unfold Actions.validate_gender in *.
    destruct value as [value|].
    + destruct (String.eqb_spec intent "doubt") as [->|Hi];
        cbn [negb] in *; [discriminate|].
      destruct (PyStr.elem (PyStr.lower value) ["male"; "m"]).
      * injection H as <- <-. repeat split; auto.
      * destruct (PyStr.elem (PyStr.lower value) ["female"; "f"]);
          [|discriminate].
        injection H as <- <-. repeat split; auto.
    + destruct (String.eqb intent "doubt"); discriminate.
  - intros value1 value2 intent d H. unfold Actions.validate_gender.
    now rewrite H.
Qed.

Lemma validate_gender_normalises_witness :
  ("male" = "male" \/ "male" = "female") /\ [] = @nil string
  /\ "inform" <> "doubt"
  /\ (forall d2, Actions.validate_gender (Some "male") "inform" d2
                 = (PStr "male", d2)).
Proof.
  apply (proj1 validate_gender_normalises (Some "M") "inform" [] "male" []).
  reflexivity.
Defined.

(** X16. With two or more entities [ActionResetOldSlot.run] looks at the
    entity values only: it returns no event exactly when there are two
    entities, one with the value "negation" and one with the value
    "mark", and otherwise reports "more than one"; so a negation and a
    mark as the NLU tags them, with other values, are reported as more
    than one. *)
Theorem several_entities_are_judged_by_value :
  (forall slots es,
     (2 <= List.length es)%nat ->
     (Actions.reset_old_slot_run slots es = [] <->
      List.length es = 2%nat
      /\ (exists e, In e es /\ entity_value e = "negation")
      /\ (exists e, In e es /\ entity_value e = "mark"))
     /\ (Actions.reset_old_slot_run slots es <> [] ->
         Actions.reset_old_slot_run slots es
         = [last_updated "more than one"]))
  /\ (forall slots word bound,
        word <> "negation" -> bound <> "negation" ->
        Actions.reset_old_slot_run slots [negation word; mark bound]
        = [last_updated "more than one"]).
Proof.
  split.
  - intros slots es Hn. unfold Actions.reset_old_slot_run.
    destruct (Nat.eqb_spec (List.length es) 0) as [E0|_]; [lia|].
    cbn [andb].
    destruct (Nat.ltb_spec 1 (List.length es)) as [_|]; [|lia].
    destruct (Nat.eqb_spec (List.length es) 2) as [E2|N2]; cbn [andb].
    + destruct (existsb (fun e => String.eqb (entity_value e) "negation") es)
        eqn:Hneg; cbn [andb].
      * destruct (existsb (fun e => String.eqb (entity_value e) "mark") es)
          eqn:Hmark.
        -- split; [|intros H; now elim H].
           split; [|reflexivity]. intros _.
           apply existsb_exists in Hneg, Hmark.
           destruct Hneg as (e1 & H1 & K1), Hmark as (e2 & H2 & K2).
           apply String.eqb_eq in K1, K2. eauto 10.
        -- split; [|reflexivity]. split; [discriminate|].
           intros (_ & _ & e & He & Ke).
           assert (existsb (fun e => String.eqb (entity_value e) "mark") es
                   = true).
           { apply existsb_exists. exists e. split; [exact He|].
             now apply String.eqb_eq. }
           congruence.
      * split; [|reflexivity]. split; [discriminate|].
        intros (_ & (e & He & Ke) & _).
        assert (existsb (fun e => String.eqb (entity_value e) "negation") es
                = true).
        { apply existsb_exists. exists e. split; [exact He|].
          now apply String.eqb_eq. }
        congruence.
    + split; [|reflexivity]. split; [discriminate|]. intros (E & _). lia.
  - intros slots word bound Hw Hb. unfold Actions.reset_old_slot_run.
    cbn [List.length Nat.eqb andb existsb negation mark entity_value orb].
    apply String.eqb_neq in Hw, Hb. rewrite Hw, Hb. reflexivity.
Qed.

Lemma several_entities_are_judged_by_value_witness :
  (Actions.reset_old_slot_run [] [negation "negation"; mark "mark"] = [] <->
   List.length [negation "negation"; mark "mark"] = 2%nat
   /\ (exists e, In e [negation "negation"; mark "mark"]
                 /\ entity_value e = "negation")
   /\ (exists e, In e [negation "negation"; mark "mark"]
                 /\ entity_value e = "mark"))
  /\ Actions.reset_old_slot_run [] [negation "not"; mark "5"]
     = [last_updated "more than one"].
Proof.
  split.
  - apply (proj1 (proj1 several_entities_are_judged_by_value []
                    [negation "negation"; mark "mark"] (le_n 2))).
  - apply (proj2 several_entities_are_judged_by_value [] "not" "5");
      discriminate.
Defined.

(** *** The slot mapping *)

Lemma In_assign_other {V} : forall (d : dict V) k v k' v',
  String.eqb k k' = false ->
  In (k', v') (assign k v d) <-> In (k', v') d.
Proof.
  intros d k v k' v' Hne. apply String.eqb_neq in Hne.
  induction d as [|[k0 v0] d IH]; cbn.
  - split; [intros [[= -> _]|[]]; now elim Hne|intros []].
  - destruct (String.eqb_spec k0 k) as [->|_]; cbn.
    + split; (intros [[= <- _]|H]; [now elim Hne|now right]).
    + rewrite IH. reflexivity.
Qed.

Lemma slot_mapping_body_keeps : forall st e key value,
  attribute_slot key = false ->
  In (key, value) (snd (Actions.slot_mapping_body st e))
  <-> In (key, value) (snd st).
Proof.
  intros [g slots] [k v] key value Hkey.
  unfold attribute_slot, PyStr.elem in Hkey. cbn [existsb] in Hkey.
  rewrite orb_false_r in Hkey.
  apply orb_false_iff in Hkey. destruct Hkey as [Hg Hkey].
  apply orb_false_iff in Hkey. destruct Hkey as [Hh Hb].
  unfold Actions.slot_mapping_body. cbn [entity_key entity_value fst snd].
  assert (Hc : In (key, value)
                 (if PyStr.elem v ["hat"; "bag"]
                  then assign v (Actions.Scalar
                         (PBool (negb (has_key "negation"
                                         (assign k (Plain v) g))))) slots
                  else slots)
               <-> In (key, value) slots).
  { unfold PyStr.elem. cbn [existsb]. rewrite orb_false_r.
    destruct (String.eqb_spec v "hat") as [->|_]; cbn [orb].
    - apply In_assign_other. now rewrite String.eqb_sym.
    - destruct (String.eqb_spec v "bag") as [->|_]; cbn [orb];
        [|reflexivity].
      apply In_assign_other. now rewrite String.eqb_sym. }
  destruct (PyStr.contains "clothing" k); cbn [fst snd];
    destruct (PyStr.contains "gender" k); cbn [fst snd];
    rewrite ?In_assign_other by (now rewrite String.eqb_sym);
    try exact Hc; reflexivity.
Qed.

Lemma slot_mapping_loop_keeps : forall es st key value,
  attribute_slot key = false ->
  In (key, value) (snd (fold_left Actions.slot_mapping_body es st))
  <-> In (key, value) (snd st).
Proof.
  induction es as [|e es IH]; intros st key value Hkey; cbn [fold_left].
  - reflexivity.
  - rewrite IH by exact Hkey. now apply slot_mapping_body_keeps.
Qed.

(** X17. [ActionSlotMapping.run] sets every slot other than gender, hat and
    bag to the value it had, or to None for the intent
    "finding_someone", whatever the entities are. *)
Theorem slot_mapping_keeps_other_slots : forall intent slots es key value,
  attribute_slot key = false ->
  In (Actions.SlotSet key value) (Actions.slot_mapping_run intent slots es)
  <-> In (key, value)
        (if String.eqb intent "finding_someone"
         then map (fun kv => (fst kv, Actions.Scalar PNone)) slots
         else slots).
Proof.
  intros intent slots es key value Hkey. unfold Actions.slot_mapping_run.
  cbv zeta. rewrite in_map_iff. unfold Actions.slot_mapping_loop.
  split.
  - intros ([k v] & [= -> ->] & H).
    now apply slot_mapping_loop_keeps in H.
  - intros H. exists (key, value). split; [reflexivity|].
    now apply slot_mapping_loop_keeps.
Qed.

Lemma slot_mapping_keeps_other_slots_witness :
  In (Actions.SlotSet "score" (Actions.Scalar (PStr "eight")))
    (Actions.slot_mapping_run "inform"
       [("score", Actions.Scalar (PStr "eight"))]
       [negation "not"; clothing "hat"; gender "male"]).
Proof.
  apply (proj2 (slot_mapping_keeps_other_slots "inform"
                  [("score", Actions.Scalar (PStr "eight"))]
                  [negation "not"; clothing "hat"; gender "male"]
                  "score" (Actions.Scalar (PStr "eight")) eq_refl)).
  left. reflexivity.
Defined.

Lemma slot_get_assign : forall (d : dict Actions.slot) k v k',
  Actions.slot_get k' (assign k v d)
  = if String.eqb k k' then v else Actions.slot_get k' d.
Proof.
  intros d k v k'. unfold Actions.slot_get.
  induction d as [|[k0 v0] d IH]; cbn.
  - destruct (String.eqb k k'); reflexivity.
  - destruct (String.eqb_spec k0 k) as [->|Hne]; cbn.
    + destruct (String.eqb k k'); reflexivity.
    + destruct (String.eqb_spec k0 k') as [->|_].
      * apply String.eqb_neq in Hne. rewrite String.eqb_sym in Hne.
        now rewrite Hne.
      * exact IH.
Qed.

Section SlotMapping.
Variable conf : TP.lines.
Variable word_to_num : string -> parse number.

(** Outside a line group, on an attribute entity, the two loops keep
    the same buffer and write the same attribute. *)
Lemma slot_mapping_body_agrees : forall e g slots s,
  attribute_entity e = true ->
  has_key "passages" g = false -> has_key "line" g = false ->
  attribute_slots_agree slots (TP.foi s) ->
  exists s',
    TP.body conf word_to_num e (TP.Loop g false s)
    = Go (TP.Loop (fst (Actions.slot_mapping_body (g, slots) e)) false s')
    /\ has_key "passages" (fst (Actions.slot_mapping_body (g, slots) e))
       = false
    /\ has_key "line" (fst (Actions.slot_mapping_body (g, slots) e)) = false
    /\ attribute_slots_agree (snd (Actions.slot_mapping_body (g, slots) e))
         (TP.foi s').
Proof.
  intros [k v] g slots [f d] He Hp Hl (Hg & Hb & Hh).
  cbn [TP.foi] in Hg, Hb, Hh.
  unfold attribute_entity, grouped in He. cbn [entity_key] in He.
  apply andb_true_iff in He. destruct He as [Hk Hboth].
  apply negb_true_iff in Hk, Hboth.
  pose proof Hk as Hk'. rewrite elem_people in Hk'.
  apply orb_false_iff in Hk'. destruct Hk' as [Hk1 Hk2].
  unfold TP.body, Actions.slot_mapping_body.
  cbn [entity_key entity_value fst snd]. rewrite Hk.
  cbn [TP.line_flag TP.current_group TP.self andb bind forallb].
  rewrite !has_key_assign, Hk1, Hk2, Hp, Hl.
  cbn [orb andb negb TP.line_flag TP.current_group TP.self bind].
  destruct (PyStr.contains "clothing" k) eqn:Ec; cbn [andb] in Hboth.
  - rewrite Hboth. cbn [fst snd]. eexists. split; [reflexivity|].
    split; [reflexivity|]. split; [reflexivity|].
    unfold TP.update_clothing, PyStr.elem. cbn [existsb TP.foi].
    rewrite has_key_assign, orb_false_r.
    destruct (String.eqb_spec v "hat") as [->|Hhat]; cbn [orb].
    + repeat split; cbn; rewrite slot_get_assign; cbn;
        (assumption || reflexivity).
    + destruct (String.eqb_spec v "bag") as [->|Hbag]; cbn [orb].
      * repeat split; cbn; rewrite slot_get_assign; cbn;
          (assumption || reflexivity).
      * repeat split; assumption.
  - destruct (PyStr.contains "gender" k) eqn:Eg; cbn [fst snd].
    + eexists. split; [reflexivity|].
      split; [reflexivity|]. split; [reflexivity|].
      unfold TP.update_gender. cbn [TP.foi].
      rewrite has_key_assign.
      repeat split; cbn; rewrite slot_get_assign; cbn; try assumption.
      reflexivity.
    + eexists. split; [reflexivity|].
      rewrite !has_key_assign, Hk1, Hk2, Hp, Hl.
      repeat split; assumption.
Qed.

Lemma slot_mapping_loop_agrees : forall es g slots s,
  Forall (fun e => attribute_entity e = true) es ->
  has_key "passages" g = false -> has_key "line" g = false ->
  attribute_slots_agree slots (TP.foi s) ->
  exists g' s',
    for_each (TP.body conf word_to_num) es (TP.Loop g false s)
    = Go (TP.Loop g' false s')
    /\ has_key "passages" g' = false /\ has_key "line" g' = false
    /\ attribute_slots_agree
         (snd (fold_left Actions.slot_mapping_body es (g, slots)))
         (TP.foi s').
Proof.
  induction es as [|e es IH]; intros g slots s Hes Hp Hl Ha.
  - exists g, s. cbn. auto.
  - inversion Hes as [|? ? He Hes']; subst.
    destruct (slot_mapping_body_agrees e g slots s He Hp Hl Ha)
      as (s1 & E1 & Hp1 & Hl1 & Ha1).
    cbn [for_each fold_left]. rewrite E1. cbn [bind].
    destruct (Actions.slot_mapping_body (g, slots) e) as [g1 slots1].
    cbn [fst snd] in *. now apply IH.
Qed.

(** X18. On a stream of attribute entities [ActionSlotMapping.run] and
    [TrackingPeople.update] resolve gender, bag and hat alike: slots that
    agree with the fields before the two loops agree with them
    afterwards, whatever [update] returns. *)
Theorem slot_mapping_agrees_with_update : forall es slots s,
  Forall (fun e => attribute_entity e = true) es ->
  attribute_slots_agree slots (TP.foi s) ->
  exists b s',
    TP.update conf word_to_num es s = Some (b, s')
    /\ attribute_slots_agree (snd (Actions.slot_mapping_loop es slots))
         (TP.foi s').
Proof.
  intros es slots s Hes Ha.
  destruct (slot_mapping_loop_agrees es [] slots s Hes eq_refl eq_refl Ha)
    as (g & s1 & E & Hp & Hl & Ha1).
  unfold TP.update, TP.loop, Actions.slot_mapping_loop. rewrite E.
  cbn [TP.conclude]. unfold TP.finish. cbn [TP.current_group TP.self].
  destruct (nonempty g); [|eauto].
  unfold TP.update_line, TP.paired_entry.
  apply has_key_lookup in Hp, Hl. rewrite Hp, Hl.
  eexists _, _. split; [reflexivity|]. destruct s1. exact Ha1.
Qed.
End SlotMapping.

Lemma slot_mapping_agrees_with_update_witness :
  exists b s',
    TP.update TP.mall_lines no_words
      [negation "not"; clothing "hat"; gender "male"]
      (TP.Self TP.initial_foi [])
    = Some (b, s')
    /\ attribute_slots_agree
         (snd (Actions.slot_mapping_loop
                 [negation "not"; clothing "hat"; gender "male"] []))
         (TP.foi s').
Proof.
  apply (slot_mapping_agrees_with_update TP.mall_lines no_words
           [negation "not"; clothing "hat"; gender "male"] []
           (TP.Self TP.initial_foi [])).
  - repeat constructor.
  - repeat split.
Defined.

(** * The interpreter on two prior objects *)

Lemma bind_rel {S A B} (R : A -> A -> Prop) (R' : B -> B -> Prop)
  (Q : S -> S -> Prop) (m1 m2 : ctl S A) (k1 k2 : A -> ctl S B) :
  ctl_rel R Q m1 m2 ->
  (forall a1 a2, R a1 a2 -> ctl_rel R' Q (k1 a1) (k2 a2)) ->
  ctl_rel R' Q (bind m1 k1) (bind m2 k2).
Proof. destruct m1, m2; cbn; auto; contradiction. Qed.

Lemma for_each_rel {S A E} (R : A -> A -> Prop) (Q : S -> S -> Prop)
  (body : E -> A -> ctl S A) :
  (forall e a1 a2, R a1 a2 -> ctl_rel R Q (body e a1) (body e a2)) ->
  forall es a1 a2, R a1 a2 ->
  ctl_rel R Q (for_each body es a1) (for_each body es a2).
Proof.
  intros Hbody es. induction es as [|e es IH]; intros a1 a2 Ha; cbn.
  - exact Ha.
  - eapply bind_rel; [apply Hbody, Ha|]. exact IH.
Qed.

Lemma adverb_to_number_frame : forall word_to_num adverb d d1,
  Utils.adverb_to_number word_to_num adverb (d ++ d1)
  = (fst (Utils.adverb_to_number word_to_num adverb d1),
     d ++ snd (Utils.adverb_to_number word_to_num adverb d1)).
Proof.
  intros w adverb d d1. unfold Utils.adverb_to_number, utter_message.
  repeat match goal with
         | |- context [if ?c then _ else _] => destruct c
         | |- context [match ?c with Parsed _ => _ | _ => _ end] => destruct c
         end; cbn; now rewrite ?app_assoc.
Qed.

Section TwoPriors.
Variable conf : TP.lines.
Variable word_to_num : string -> parse number.
Variable f : TP.fields.
Variable d : dispatcher.

Lemma update_line_rel : forall g s1 s2,
  well_typed people_keys g ->
  over_prior f d s1 s2 ->
  exists b s1' s2',
    TP.update_line conf word_to_num g s1 = Some (b, s1')
    /\ TP.update_line conf word_to_num g s2 = Some (b, s2')
    /\ over_prior f d s1' s2'.
Proof.
  intros g [o d1] [f2 d2] Hg [Hf Hd]. cbn [TP.foi TP.said] in Hf, Hd.
  subst f2 d2. unfold TP.update_line.
  pose proof (paired_entry_typed _ g "passages" Hg eq_refl) as Hp.
  pose proof (paired_entry_typed _ g "line" Hg eq_refl) as Hl.
  destruct (TP.paired_entry "passages" g) as [p|]; [|congruence].
  destruct (TP.paired_entry "line" g) as [l|]; [|congruence].
  cbn [TP.foi TP.said].
  assert (Hrest : forall n np d1',
    exists b s1' s2',
      match (n, np, d1') with
      | (Returns (Some n), neg_passages, d0) =>
          match l with
          | Some (line, neg_line) =>
              let v := PTuple [PNum n; PBool (neg_passages && neg_line)] in
              if String.eqb (PyStr.lower line) (TP.line_1 conf) then
                Some (Returns true, TP.with_foi (TP.set_line1 v o) (TP.Self o d0))
              else if String.eqb (PyStr.lower line) (TP.line_2 conf) then
                Some (Returns true, TP.with_foi (TP.set_line2 v o) (TP.Self o d0))
              else if String.eqb (PyStr.lower line) (TP.line_3 conf) then
                Some (Returns true, TP.with_foi (TP.set_line3 v o) (TP.Self o d0))
              else if String.eqb (PyStr.lower line) (TP.line_4 conf) then
                Some (Returns true, TP.with_foi (TP.set_line4 v o) (TP.Self o d0))
              else
                Some (Returns false,
                      TP.utter (TP.unknown_line_message conf line)
                        (TP.Self o d0))
          | None =>
              Some (Returns false,
                    TP.utter (TP.missing_line_message conf) (TP.Self o d0))
          end
      | (Returns None, _, d0) => Some (Returns false, TP.Self o d0)
      | (Raises, _, d0) => Some (Raises, TP.Self o d0)
      end = Some (b, s1')
      /\ match (n, np, d ++ d1') with
         | (Returns (Some n), neg_passages, d0) =>
             match l with
             | Some (line, neg_line) =>
                 let v := PTuple [PNum n; PBool (neg_passages && neg_line)] in
                 if String.eqb (PyStr.lower line) (TP.line_1 conf) then
                   Some (Returns true,
                         TP.with_foi (TP.set_line1 v (overwrite o f))
                           (TP.Self (overwrite o f) d0))
                 else if String.eqb (PyStr.lower line) (TP.line_2 conf) then
                   Some (Returns true,
                         TP.with_foi (TP.set_line2 v (overwrite o f))
                           (TP.Self (overwrite o f) d0))
                 else if String.eqb (PyStr.lower line) (TP.line_3 conf) then
                   Some (Returns true,
                         TP.with_foi (TP.set_line3 v (overwrite o f))
                           (TP.Self (overwrite o f) d0))
                 else if String.eqb (PyStr.lower line) (TP.line_4 conf) then
                   Some (Returns true,
                         TP.with_foi (TP.set_line4 v (overwrite o f))
                           (TP.Self (overwrite o f) d0))
                 else
                   Some (Returns false,
                         TP.utter (TP.unknown_line_message conf line)
                           (TP.Self (overwrite o f) d0))
             | None =>
                 Some (Returns false,
                       TP.utter (TP.missing_line_message conf)
                         (TP.Self (overwrite o f) d0))
             end
         | (Returns None, _, d0) =>
             Some (Returns false, TP.Self (overwrite o f) d0)
         | (Raises, _, d0) => Some (Raises, TP.Self (overwrite o f) d0)
         end = Some (b, s2')
      /\ over_prior f d s1' s2').
  { intros [[n|]|] np d1'; [|eexists _, _, _; repeat split..].
    destruct l as [[name nl]|]; cbv zeta.
    - unfold TP.with_foi, TP.utter, utter_message. cbn [TP.foi TP.said].
      repeat match goal with
             | |- context [if ?c then _ else _] => destruct c
             end;
        eexists _, _, _;
        (split; [reflexivity|]; split; [reflexivity|]; split;
         cbn [TP.foi TP.said]; [destruct o; reflexivity|];
         now rewrite ?app_assoc).
    - unfold TP.utter, utter_message. cbn [TP.foi TP.said].
      eexists _, _, _. split; [reflexivity|]. split; [reflexivity|].
      split; cbn [TP.foi TP.said]; [reflexivity|now rewrite app_assoc]. }
  destruct p as [[adverb np]|].
  - rewrite adverb_to_number_frame.
    destruct (Utils.adverb_to_number word_to_num adverb d1) as [n d1'].
    cbn [fst snd]. apply Hrest.
  - apply (Hrest (Returns (Some (NInt 1))) true d1).
Qed.

Lemma flush_rel : forall g s1 s2,
  well_typed people_keys g ->
  over_prior f d s1 s2 ->
  ctl_rel (over_prior f d) (over_prior f d)
    (TP.flush conf word_to_num g s1) (TP.flush conf word_to_num g s2).
Proof.
  intros g s1 s2 Hg Hs. unfold TP.flush.
  destruct (update_line_rel g s1 s2 Hg Hs) as (b & s1' & s2' & -> & -> & H).
  destruct b as [[|]|]; exact H.
Qed.

Lemma people_loop_rel_intro : forall g lf s1 s2,
  well_typed people_keys g -> over_prior f d s1 s2 ->
  people_loop_rel (over_prior f d) (TP.Loop g lf s1) (TP.Loop g lf s2).
Proof. intros. repeat (split; [reflexivity|]). split; assumption. Qed.

Lemma people_body_rel : forall e st1 st2,
  people_loop_rel (over_prior f d) st1 st2 ->
  ctl_rel (people_loop_rel (over_prior f d)) (over_prior f d)
    (TP.body conf word_to_num e st1) (TP.body conf word_to_num e st2).
Proof.
  intros [k v] [g lf s1] [g2 lf2 s2] (Eg & El & Hg & Hs).
  cbn [TP.line_flag TP.current_group TP.self] in Eg, El, Hg, Hs.
  subst g2 lf2. unfold TP.body. cbn [entity_key entity_value].
  eapply bind_rel with (R := people_loop_rel (over_prior f d)).
  - destruct (PyStr.elem k ["passages"; "line"]) eqn:Hk.
    + eapply bind_rel with (R := people_loop_rel (over_prior f d)).
      * cbn [TP.line_flag TP.current_group TP.self].
        destruct (lf && has_key k g) eqn:Hc;
          [|now apply people_loop_rel_intro].
        eapply bind_rel; [apply flush_rel; assumption|].
        intros s1' s2' Hs'. apply andb_prop in Hc. destruct Hc as [_ Hc].
        pose proof (last_item_has_key g k Hc) as Hl.
        destruct (last_item g) as [[key value]|] eqn:El; [|congruence].
        apply people_loop_rel_intro; [|exact Hs'].
        destruct (String.eqb key "negation"); [|constructor].
        repeat constructor. eapply last_item_typed; eauto.
      * intros [g1 lf1 s1'] [g2 lf2 s2'] (Eg & El & Hg' & Hs').
        cbn [TP.line_flag TP.current_group TP.self] in *. subst g2 lf2.
        apply people_loop_rel_intro; [|exact Hs'].
        apply assign_typed; [|exact I].
        destruct (has_key "negation" g1); cbn [negb];
          [apply remove_typed|]; assumption.
    + eapply bind_rel with (R := people_loop_rel (over_prior f d)).
      * cbn [TP.line_flag TP.current_group TP.self].
        destruct (lf && String.eqb k "negation");
          [now apply people_loop_rel_intro|].
        eapply bind_rel with (R := people_loop_rel (over_prior f d)).
        -- destruct (lf && negb (String.eqb k "negation"));
             [|now apply people_loop_rel_intro].
           eapply bind_rel; [apply flush_rel; assumption|].
           intros s1' s2' Hs'.
           apply people_loop_rel_intro; [constructor|exact Hs'].
        -- intros [g1 lf1 s1'] [g2 lf2 s2'] (Eg & El & Hg' & Hs').
           cbn [TP.line_flag TP.current_group TP.self] in *. subst g2 lf2.
           now apply people_loop_rel_intro.
      * intros [g1 lf1 s1'] [g2 lf2 s2'] (Eg & El & Hg' & Hs').
        cbn [TP.line_flag TP.current_group TP.self] in *. subst g2 lf2.
        apply people_loop_rel_intro; [|exact Hs'].
        apply assign_typed; [assumption|exact Hk].
  - intros [g1 lf1 s1'] [g2 lf2 s2'] (Eg & El & Hg' & Hs').
    cbn [TP.line_flag TP.current_group TP.self] in *. subst g2 lf2.
    eapply bind_rel with (R := people_loop_rel (over_prior f d)).
    + cbn [TP.line_flag TP.current_group TP.self].
      destruct (forallb _ _); [|now apply people_loop_rel_intro].
      eapply bind_rel; [apply flush_rel; assumption|].
      intros s1'' s2'' Hs''.
      apply people_loop_rel_intro; [constructor|exact Hs''].
    + intros [g1' lf1' s1''] [g2 lf2 s2''] (Eg & El & Hg'' & Hs'').
      cbn [TP.line_flag TP.current_group TP.self] in *. subst g2 lf2.
      destruct (negb lf1'); [|now apply people_loop_rel_intro].
      destruct s1'' as [o d1], s2'' as [f2 d2].
      pose proof Hs'' as [Hf Hd]. cbn [TP.foi TP.said] in Hf, Hd.
      subst f2 d2.
      destruct (PyStr.contains "clothing" k).
      * apply people_loop_rel_intro; [constructor|].
        unfold TP.update_clothing.
        destruct (String.eqb v "hat");
          [split; [destruct o; reflexivity|reflexivity]|].
        destruct (String.eqb v "bag");
          split; try reflexivity; destruct o; reflexivity.
      * destruct (PyStr.contains "gender" k);
          [|now apply people_loop_rel_intro].
        apply people_loop_rel_intro; [constructor|].
        unfold TP.update_gender.
        split; [destruct o; reflexivity|reflexivity].
Qed.

Lemma overwrite_initial : forall f0, overwrite TP.initial_foi f0 = f0.
Proof. intros []; reflexivity. Qed.

(** The run on the prior object [(f, d)] follows the run on a fresh
    object. *)
Lemma people_update_rel : forall es,
  exists b o ms,
    TP.update conf word_to_num es (TP.Self TP.initial_foi [])
    = Some (b, TP.Self o ms)
    /\ TP.update conf word_to_num es (TP.Self f d)
       = Some (b, TP.Self (overwrite o f) (d ++ ms)).
Proof.
  intros es.
  assert (H0 : people_loop_rel (over_prior f d)
                 (TP.Loop [] false (TP.Self TP.initial_foi []))
                 (TP.Loop [] false (TP.Self f d))).
  { apply people_loop_rel_intro; [constructor|].
    split; cbn; [now rewrite overwrite_initial|now rewrite app_nil_r]. }
  pose proof (for_each_rel _ _ _ (people_body_rel) es _ _ H0) as H.
  unfold TP.update, TP.loop.
  destruct (for_each _ es (TP.Loop [] false (TP.Self TP.initial_foi [])))
    as [[g lf s1]|s1|s1|],
    (for_each _ es (TP.Loop [] false (TP.Self f d))) as [[g2 lf2 s2]|s2|s2|];
    cbn [ctl_rel TP.conclude] in *; try contradiction.
  - destruct H as (Eg & El & Hg & Hs).
    cbn [TP.line_flag TP.current_group TP.self] in *. subst g2 lf2.
    unfold TP.finish. cbn [TP.current_group TP.self].
    destruct (nonempty g).
    + destruct (update_line_rel g s1 s2 Hg Hs)
        as (b & [o ms] & [f2 d2] & -> & -> & [Hf Hd]).
      cbn [TP.foi TP.said] in Hf, Hd. subst. eauto.
    + destruct s1 as [o ms], s2 as [f2 d2]. destruct Hs as [Hf Hd].
      cbn [TP.foi TP.said] in Hf, Hd. subst. eauto.
  - destruct s1 as [o ms], s2 as [f2 d2]. destruct H as [Hf Hd].
    cbn [TP.foi TP.said] in Hf, Hd. subst. eauto.
  - destruct s1 as [o ms], s2 as [f2 d2]. destruct H as [Hf Hd].
    cbn [TP.foi TP.said] in Hf, Hd. subst. eauto.
Qed.
End TwoPriors.

Lemma overwrite_idempotent : forall o f,
  overwrite o (overwrite o f) = overwrite o f.
Proof.
  intros [g b h l1 l2 l3 l4] [g' b' h' l1' l2' l3' l4']. unfold overwrite.
  cbn [TP.gender TP.bag TP.hat TP.line1_passages TP.line2_passages
       TP.line3_passages TP.line4_passages].
  f_equal;
    match goal with |- context [is_none ?x] => destruct (is_none x) end;
    reflexivity.
Qed.

(** X8. What [TrackingPeople.update] does to a prior object is fixed by the
    stream: it returns what it returns on a fresh object (or is left by
    the exception of the parser as it is there), writes the
    fields that it sets on a fresh object over the prior ones, leaves
    every other field as it was and appends the same messages; so a
    successful update can be run again with no effect. *)
Theorem update_overwrites_prior : forall conf word_to_num es,
  (forall f d,
     exists b o ms,
       TP.update conf word_to_num es (TP.Self TP.initial_foi [])
       = Some (b, TP.Self o ms)
       /\ TP.update conf word_to_num es (TP.Self f d)
          = Some (b, TP.Self (overwrite o f) (d ++ ms)))
  /\ (forall s s',
        TP.update conf word_to_num es s = Some (Returns true, s') ->
        TP.update conf word_to_num es s' = Some (Returns true, s')).
Proof.
  intros conf w es. split; [intros f d; apply people_update_rel|].
  intros [f d] s' H.
  destruct (people_update_rel conf w f d es) as (b & o & ms & E0 & E).
  rewrite E in H. injection H as -> <-.
  destruct (people_update_messages conf w es (TP.Self TP.initial_foi []))
    as (b' & s0 & E0' & Hm).
  rewrite E0 in E0'. injection E0' as <- <-. cbn in Hm. subst ms.
  destruct (people_update_rel conf w (overwrite o f) (d ++ []) es)
    as (b1 & o1 & ms1 & E1 & E2).
  rewrite E0 in E1. injection E1 as <- <- <-.
  rewrite E2. now rewrite overwrite_idempotent, app_nil_r.
Qed.

Lemma update_overwrites_prior_witness :
  TP.update TP.mall_lines no_words
    [negation "not"; clothing "hat"; line "beta line"]
    (TP.Self
       (TP.set_hat (PBool false)
          (TP.set_line2 (threshold (NInt 1) true)
             (TP.set_gender (PStr "female") TP.initial_foi))) [])
  = Some (Returns true,
          TP.Self
            (TP.set_hat (PBool false)
               (TP.set_line2 (threshold (NInt 1) true)
                  (TP.set_gender (PStr "female") TP.initial_foi))) []).
Proof.
  apply (proj2 (update_overwrites_prior TP.mall_lines no_words
                  [negation "not"; clothing "hat"; line "beta line"])
           (TP.Self (TP.set_gender (PStr "female") TP.initial_foi) [])).
  reflexivity.
Defined.

(** * The counting actions *)

Lemma coerce_threshold : forall v,
  threshold_slot v -> threshold_ok (Actions.coerce v).
Proof.
  intros v [->|[->|(bound & direction & ->)]]; cbn.
  - now left.
  - now left.
  - right. eexists _, _. reflexivity.
Qed.

Lemma coerce_gender : forall v,
  gender_slot v ->
  Actions.coerce v = PNone \/ exists g, Actions.coerce v = PStr g.
Proof.
  intros v [->|(g & ->)]; cbn; [now left|].
  destruct (String.eqb g "None"); [now left|right; eauto].
Qed.

Lemma load_people_ok : forall slots f,
  people_slots_ok slots -> people_fields_ok f ->
  people_fields_ok (Actions.load_people slots f).
Proof.
  unfold Actions.load_people.
  induction slots as [|[k v] slots IH]; intros f Hs Hf; [exact Hf|].
  inversion Hs as [|? ? [Hline Hgender] Hs']; subst.
  cbn [fold_left fst snd] in *. apply IH; [exact Hs'|].
  destruct (Actions.people_key k) eqn:Hk; [|exact Hf].
  destruct Hf as [(H1 & H2 & H3 & H4) Hg].
  unfold Actions.people_setitem.
  destruct (String.eqb_spec k "gender") as [->|_].
  { split; [repeat split; assumption|]. now apply coerce_gender, Hgender. }
  destruct (String.eqb_spec k "bag") as [->|_];
    [split; [repeat split; assumption|exact Hg]|].
  destruct (String.eqb_spec k "hat") as [->|_];
    [split; [repeat split; assumption|exact Hg]|].
  repeat match goal with
         | |- context [String.eqb k ?x] =>
             destruct (String.eqb_spec k x) as [->|_];
               [split; [repeat split; try assumption;
                        now apply coerce_threshold, Hline|exact Hg]|]
         end.
  split; [repeat split; assumption|exact Hg].
Qed.


Section Narrators.
Variable conf : TP.lines.
Variable float_str : float -> string.

Lemma line_items_total : forall v name,
  threshold_ok v ->
  exists items, TP.line_items float_str v name = Some items.
Proof.
  intros v name [->|(bound & direction & ->)]; [eexists; reflexivity|].
  unfold TP.line_items, threshold, TP.passages_string.
  cbn [truthy getitem nth_error format].
  destruct (Py.eqb (PNum bound) (PNum (NInt 1)));
    [|destruct (Py.eqb (PNum bound) (PNum (NInt 2)))];
    destruct direction; eexists; reflexivity.
Qed.

(** The narrator of the people never raises on a map whose threshold
    fields are complete and whose gender is unset or a text. *)
Lemma people_str_total : forall f nop,
  people_fields_ok f ->
  exists text, TP.str conf float_str f nop = Some text.
Proof.
  intros f nop [(H1 & H2 & H3 & H4) Hg]. unfold TP.str.
  destruct (line_items_total _ (TP.line_1 conf) H1) as (l1 & ->).
  destruct (line_items_total _ (TP.line_2 conf) H2) as (l2 & ->).
  destruct (line_items_total _ (TP.line_3 conf) H3) as (l3 & ->).
  destruct (line_items_total _ (TP.line_4 conf) H4) as (l4 & ->).
  destruct Hg as [->|(g & ->)]; eexists; reflexivity.
Qed.

End Narrators.

Lemma fields_ok_kept : forall f,
  people_fields_ok f ->
  (forall n b, people_fields_ok (TP.set_line1 (threshold n b) f)
               /\ people_fields_ok (TP.set_line2 (threshold n b) f)
               /\ people_fields_ok (TP.set_line3 (threshold n b) f)
               /\ people_fields_ok (TP.set_line4 (threshold n b) f))
  /\ (forall b, people_fields_ok (TP.set_hat (PBool b) f)
                /\ people_fields_ok (TP.set_bag (PBool b) f))
  /\ (forall v, people_fields_ok (TP.set_gender (PStr v) f)).
Proof.
  intros f [Ht Hg]. split; [|split].
  - intros n b. destruct (thresholds_kept_by_line f n b Ht) as (? & ? & ? & ?).
    repeat (split; [split; [assumption|exact Hg]|]).
    split; [assumption|exact Hg].
  - intros b. split; (split; [exact Ht|exact Hg]).
  - intros v. split; [exact Ht|]. right. eexists. reflexivity.
Qed.

Section Runs.
Variable word_to_num : string -> parse number.
Variable py_int : string -> option Z.
Variable py_float : string -> option float.
Variable float_str : float -> string.

(** [update] keeps a well-formed map well formed, with the messages of
    its result. *)
Lemma people_update_fields_ok : forall conf es s,
  people_fields_ok (TP.foi s) ->
  exists r s',
    TP.update conf word_to_num es s = Some (r, s')
    /\ people_fields_ok (TP.foi s')
    /\ outcome_sat (fun s' => TP.said s' = TP.said s)
         (fun s' => exists m, TP.said s' = TP.said s ++ [m])
         (fun s' => TP.said s' = TP.said s) r s'.
Proof.
  intros conf es s Hs.
  destruct (people_update_inv conf word_to_num
              (fun s' => people_fields_ok (TP.foi s')
                         /\ TP.said s' = TP.said s)
              (fun s' => people_fields_ok (TP.foi s')
                         /\ exists m, TP.said s' = TP.said s ++ [m])
              (fun s' => people_fields_ok (TP.foi s')
                         /\ TP.said s' = TP.said s)
              True) with (es := es) (s := s) as (b & s' & E & H).
  - intros b0 [f0 d0] _ [Hf Hd]. split; [|exact Hd].
    apply (fields_ok_kept f0 Hf).
  - intros b0 [f0 d0] _ [Hf Hd]. split; [|exact Hd].
    apply (fields_ok_kept f0 Hf).
  - intros v [f0 d0] _ [Hf Hd]. split; [|exact Hd].
    apply (fields_ok_kept f0 Hf).
  - intros g s1 Hg [Hf Hd]. unfold TP.flush.
    destruct (update_line_cases conf word_to_num people_fields_ok
                ltac:(intros f0 n b0 H0; apply (fields_ok_kept f0 H0))
                ltac:(intros f0 n b0 H0; apply (fields_ok_kept f0 H0))
                ltac:(intros f0 n b0 H0; apply (fields_ok_kept f0 H0))
                ltac:(intros f0 n b0 H0; apply (fields_ok_kept f0 H0))
                g s1 Hg)
      as (b & s' & -> & Hok & Hfalse & Htrue & Hraise).
    destruct b as [[|]|]; cbn.
    + split; [auto|]. rewrite <- Hd. now apply Htrue.
    + split; [auto|]. rewrite <- Hd. now apply Hfalse.
    + rewrite (Hraise eq_refl). auto.
  - apply all_resolve.
  - split; [exact Hs|reflexivity].
  - exists b, s'. split; [exact E|].
    destruct b as [[|]|]; cbn [outcome_sat] in *; destruct H; auto.
Qed.

(** X19. On slots of the shape that the tracker stores,
    [ActionCountPeople.run] is never ill-typed.  It utters exactly one
    message, the description of the matches or the clarification of a
    failed update, and returns the seven fields as slot events, the
    threshold fields complete; or an exception of the word parser other
    than [ValueError] goes through it, with nothing uttered, which
    happens only when the conversion does not return on the quantity of
    a [passages] entity of the stream. *)
Theorem count_people_run_utters_once : forall people slots es d,
  people_slots_ok slots ->
  (exists f message,
     Actions.count_people_run word_to_num float_str people slots es d
     = Some (Returns (Actions.slot_events (TP.items f)), d ++ [message])
     /\ people_fields_ok f)
  \/ (Actions.count_people_run word_to_num float_str people slots es d
      = Some (Raises, d)
      /\ ~ quantities_return word_to_num es).
Proof.
  intros people slots es d Hslots. unfold Actions.count_people_run.
  cbv zeta.
  assert (H0 : people_fields_ok
                 (Actions.load_people slots TP.initial_foi)).
  { apply load_people_ok; [exact Hslots|].
    split; [repeat split; left; reflexivity|now left]. }
  destruct (people_update_fields_ok TP.mall_lines es
              (TP.Self (Actions.load_people slots TP.initial_foi) d) H0)
    as (b & [f' d'] & E & Hf & Hm).
  pose proof (fun Hes => people_update_returns TP.mall_lines word_to_num
                           es _ _ _ Hes E) as Hr.
  rewrite E.
  cbn [TP.foi TP.said] in *.
  destruct b as [[|]|]; cbn [outcome_sat TP.said] in Hm.
  - left. subst d'. rewrite filteringJSON_retains by apply Hf.
    destruct (people_str_total TP.mall_lines float_str f'
                (Z.of_nat (List.length
                   (map with_counts (filter (retained f') people))))
                Hf) as (text & ->).
    exists f', text. split; [reflexivity|exact Hf].
  - left. destruct Hm as (m & ->). exists f', m.
    split; [reflexivity|exact Hf].
  - right. subst d'. split; [reflexivity|].
    intros Hes. now elim (Hr Hes).
Qed.

End Runs.

Lemma count_people_run_utters_once_witness :
  (exists f message,
     Actions.count_people_run no_words no_floats [man; woman; regular]
       [("gender", Actions.Scalar (PStr "None"));
        ("line1_passages", Actions.Listed [PNum (NInt 2); PBool true])]
       [negation "not"; clothing "hat"] []
     = Some (Returns (Actions.slot_events (TP.items f)), [] ++ [message])
     /\ people_fields_ok f)
  \/ (Actions.count_people_run no_words no_floats [man; woman; regular]
        [("gender", Actions.Scalar (PStr "None"));
         ("line1_passages", Actions.Listed [PNum (NInt 2); PBool true])]
        [negation "not"; clothing "hat"] []
      = Some (Raises, [])
      /\ ~ quantities_return no_words [negation "not"; clothing "hat"]).
Proof.
  apply (count_people_run_utters_once no_words no_floats
           [man; woman; regular]
           [("gender", Actions.Scalar (PStr "None"));
            ("line1_passages", Actions.Listed [PNum (NInt 2); PBool true])]
           [negation "not"; clothing "hat"] []).
  apply Forall_cons; [|apply Forall_cons; [|apply Forall_nil]]; split; cbn.
  - discriminate.
  - intros _. right. eexists. reflexivity.
  - intros _. right. right. eexists _, _. reflexivity.
  - discriminate.
Defined.


(** * What no stream can undo *)

Lemma overwrite_keeps_set : forall o f get,
  In get people_getters -> get f <> PNone -> get (overwrite o f) <> PNone.
Proof.
  intros [g b h l1 l2 l3 l4] [g' b' h' l1' l2' l3' l4'] get Hin Hset.
  cbn in Hin.
  destruct Hin as [<-|[<-|[<-|[<-|[<-|[<-|[<-|[]]]]]]]];
    cbn [overwrite TP.gender TP.bag TP.hat TP.line1_passages
         TP.line2_passages TP.line3_passages TP.line4_passages] in *;
    match goal with
    | |- (if is_none ?x then _ else _) <> _ => destruct x
    end; cbn [is_none]; (assumption || discriminate).
Qed.

Section GroupsScore.
Variable word_to_num : string -> parse number.
Variable py_int : string -> option Z.
Variable py_float : string -> option float.

(** The score is the prior one or a complete pair. *)
Lemma groups_body_score : forall (f : TG.fields) e st,
  score_idle st ->
  (TG.foi (TG.self st) = f
   \/ exists n dir, TG.foi (TG.self st) = TG.Foi (threshold n dir)) ->
  ctl_sat
    (fun st' => score_idle st'
                /\ (TG.foi (TG.self st') = f
                    \/ exists n dir,
                         TG.foi (TG.self st') = TG.Foi (threshold n dir)))
    (fun s' => TG.foi s' = f
               \/ exists n dir, TG.foi s' = TG.Foi (threshold n dir))
    (fun s' => TG.foi s' = f
               \/ exists n dir, TG.foi s' = TG.Foi (threshold n dir))
    (TG.body word_to_num py_int py_float e st).
Proof.
  intros f e [g lf s] [Hlf Hg] Hf.
  cbn [TG.score_flag TG.current_group TG.self] in *. subst lf.
  destruct (String.eqb (entity_key e) "mark") eqn:Hk.
  - destruct e as [k v]. cbn [entity_key] in Hk.
    apply String.eqb_eq in Hk. subst k.
    change (Entity "mark" v) with (mark v). rewrite body_mark by exact Hg.
    destruct (Utils.word_to_number _ _ _ v (TG.said s)) as [[[n|]|] d'];
      cbn.
    + split; [split; reflexivity|]. right. eauto.
    + exact Hf.
    + exact Hf.
  - rewrite body_other by assumption. cbn. split; [|exact Hf].
    split; [reflexivity|]. cbn [TG.current_group].
    now rewrite has_key_assign, Hk.
Qed.

Lemma groups_update_score : forall es s,
  exists b s',
    TG.update word_to_num py_int py_float es s = Some (b, s')
    /\ (TG.foi s' = TG.foi s
        \/ exists n dir, TG.foi s' = TG.Foi (threshold n dir)).
Proof.
  intros es s. unfold TG.update, TG.loop.
  pose proof (for_each_sat _ _ _ _
                (fun e st H => groups_body_score (TG.foi s) e st
                                 (proj1 H) (proj2 H))
                es (TG.Loop [] false s)
                (conj (conj eq_refl eq_refl) (or_introl eq_refl))) as H.
  destruct (for_each _ es _) as [[g lf s1]|s1|s1|]; cbn [ctl_sat] in H.
  - destruct H as [[Hlf Hg] Hf].
    cbn [TG.score_flag TG.current_group TG.self] in *. subst lf.
    unfold TG.finish. cbn [TG.current_group TG.self].
    destruct (nonempty g).
    + unfold TG.update_score. apply has_key_lookup in Hg. rewrite Hg. eauto.
    + eauto.
  - eauto.
  - eauto.
  - contradiction.
Qed.
End GroupsScore.

(** X21. The interpreters never unset a field: whatever the stream, and
    whether [update] returns true or false or is left by the exception
    of the parser, a field of the map of the
    people that was set is still set afterwards, and so is the score of
    the groups. *)
Theorem update_never_unsets :
  (forall conf word_to_num es s,
     exists b s',
       TP.update conf word_to_num es s = Some (b, s')
       /\ forall get,
            In get people_getters ->
            get (TP.foi s) <> PNone -> get (TP.foi s') <> PNone)
  /\ (forall word_to_num py_int py_float es s,
        exists b s',
          TG.update word_to_num py_int py_float es s = Some (b, s')
          /\ (TG.score (TG.foi s) <> PNone ->
              TG.score (TG.foi s') <> PNone)).
Proof.
  split.
  - intros conf w es [f d].
    destruct (people_update_rel conf w f d es) as (b & o & ms & _ & E).
    eexists _, _. split; [exact E|].
    intros get Hin Hset. now apply overwrite_keeps_set.
  - intros w i fl es s.
    destruct (groups_update_score w i fl es s) as (b & s' & E & Hf).
    exists b, s'. split; [exact E|].
    destruct Hf as [->|(n & dir & ->)]; [auto|discriminate].
Qed.

(** * The letter case of line names *)

Lemma for_each_rel2 {S A E} (RE : E -> E -> Prop) (R : A -> A -> Prop)
  (Q : S -> S -> Prop) (body : E -> A -> ctl S A) :
  (forall e1 e2 a1 a2, RE e1 e2 -> R a1 a2 ->
     ctl_rel R Q (body e1 a1) (body e2 a2)) ->
  forall es1 es2, Forall2 RE es1 es2 ->
  forall a1 a2, R a1 a2 ->
  ctl_rel R Q (for_each body es1 a1) (for_each body es2 a2).
Proof.
  intros Hbody es1 es2 Hes.
  induction Hes as [|e1 e2 es1 es2 He _ IH]; intros a1 a2 Ha; cbn.
  - exact Ha.
  - eapply bind_rel; [apply Hbody; eassumption|]. exact IH.
Qed.

Lemma same_group_has_key : forall g1 g2 k,
  same_group g1 g2 -> has_key k g1 = has_key k g2.
Proof.
  intros g1 g2 k H. unfold has_key.
  induction H as [|[k1 v1] [k2 v2] g1 g2 [Hk _] _ IH]; [reflexivity|].
  cbn in *. subst k2. now rewrite IH.
Qed.

Lemma same_group_lookup : forall g1 g2 k,
  same_group g1 g2 ->
  match lookup k g1, lookup k g2 with
  | Some v1, Some v2 => same_entry (k, v1) (k, v2)
  | None, None => True
  | _, _ => False
  end.
Proof.
  intros g1 g2 k H.
  induction H as [|[k1 v1] [k2 v2] g1 g2 [Hk Hv] _ IH]; [exact I|].
  cbn in *. subst k2.
  destruct (String.eqb_spec k1 k) as [->|_]; [|exact IH].
  split; [reflexivity|exact Hv].
Qed.

Lemma same_group_assign : forall g1 g2 k v1 v2,
  same_group g1 g2 -> same_entry (k, v1) (k, v2) ->
  same_group (assign k v1 g1) (assign k v2 g2).
Proof.
  intros g1 g2 k v1 v2 H Hv.
  induction H as [|[k1 w1] [k2 w2] g1 g2 [Hk Hw] Hg IH]; cbn.
  - constructor; [exact Hv|constructor].
  - cbn in Hk. subst k2.
    destruct (String.eqb_spec k1 k) as [->|_].
    + constructor; [exact Hv|exact Hg].
    + constructor; [split; [reflexivity|exact Hw]|exact IH].
Qed.

Lemma same_group_remove : forall g1 g2 k,
  same_group g1 g2 -> same_group (remove k g1) (remove k g2).
Proof.
  intros g1 g2 k H. unfold remove.
  induction H as [|[k1 w1] [k2 w2] g1 g2 [Hk Hw] Hg IH]; cbn;
    [constructor|].
  cbn in Hk. subst k2.
  destruct (String.eqb k1 k); cbn; [exact IH|].
  constructor; [split; [reflexivity|exact Hw]|exact IH].
Qed.

Lemma Forall2_rev {A B} (R : A -> B -> Prop) l1 l2 :
  Forall2 R l1 l2 -> Forall2 R (rev l1) (rev l2).
Proof.
  induction 1 as [|x y l1 l2 Hxy _ IH]; cbn; [constructor|].
  apply Forall2_app; [exact IH|]. constructor; [exact Hxy|constructor].
Qed.

Lemma same_group_last_item : forall g1 g2,
  same_group g1 g2 ->
  match last_item g1, last_item g2 with
  | Some kv1, Some kv2 => same_entry kv1 kv2
  | None, None => True
  | _, _ => False
  end.
Proof.
  intros g1 g2 H. unfold last_item. apply Forall2_rev in H.
  destruct H; [exact I|assumption].
Qed.

Lemma same_group_nonempty : forall g1 g2,
  same_group g1 g2 -> nonempty g1 = nonempty g2.
Proof. intros g1 g2 []; reflexivity. Qed.

Section LetterCase.
Variable conf : TP.lines.
Variable word_to_num : string -> parse number.

Lemma paired_entry_same : forall g1 g2 key,
  same_group g1 g2 -> well_typed people_keys g1 ->
  PyStr.elem key people_keys = true ->
  exists p1 p2,
    TP.paired_entry key g1 = Some p1 /\ TP.paired_entry key g2 = Some p2
    /\ match p1, p2 with
       | Some (v1, b1), Some (v2, b2) => b1 = b2 /\ same_text key v1 v2
       | None, None => True
       | _, _ => False
       end.
Proof.
  intros g1 g2 key Hg T1 Hkey. unfold TP.paired_entry.
  pose proof (same_group_lookup g1 g2 key Hg) as H.
  destruct (lookup key g1) as [[v|v1 b1]|] eqn:E1.
  - now elim (lookup_typed people_keys g1 key v T1 Hkey E1).
  - destruct (lookup key g2) as [[v|v2 b2]|]; try contradiction.
    + now destruct H as [_ H].
    + destruct H as [_ H]. cbn [fst snd] in H. eauto.
  - destruct (lookup key g2); [contradiction|]. eauto.
Qed.

(** The flush of two buffers that are the same up to the case of the
    line name: the same result and fields, and the same object when it
    succeeds. *)
Lemma update_line_same : forall g1 g2 s,
  same_group g1 g2 ->
  well_typed people_keys g1 ->
  exists b s1 s2,
    TP.update_line conf word_to_num g1 s = Some (b, s1)
    /\ TP.update_line conf word_to_num g2 s = Some (b, s2)
    /\ same_fields s1 s2
    /\ (b = Returns true -> s1 = s2).
Proof.
  intros g1 g2 [f d] Hg T1. unfold TP.update_line.
  destruct (paired_entry_same g1 g2 "passages" Hg T1 eq_refl)
    as (p1 & p2 & -> & -> & Hp).
  destruct (paired_entry_same g1 g2 "line" Hg T1 eq_refl)
    as (l1 & l2 & -> & -> & Hl).
  cbn [TP.foi TP.said].
  assert (Ep : p1 = p2).
  { destruct p1 as [[a1 b1]|], p2 as [[a2 b2]|]; try contradiction;
      [|reflexivity].
    destruct Hp as [-> Ha]. unfold same_text in Ha. cbn in Ha. now subst. }
  subst p2.
  destruct (match p1 with
            | Some (adverb, neg) =>
                let (n, d0) := Utils.adverb_to_number word_to_num adverb d in
                (n, neg, d0)
            | None => (Returns (Some (NInt 1)), true, d)
            end) as [[[[n|]|] np] d'];
    [|eexists _, _, _; repeat split..].
  destruct l1 as [[n1 q1]|], l2 as [[n2 q2]|]; try contradiction.
  - destruct Hl as [-> Hn]. unfold same_text in Hn. cbn in Hn. rewrite Hn.
    repeat match goal with
           | |- context [if ?c then _ else _] => destruct c
           end; eexists _, _, _; repeat split; discriminate.
  - eexists _, _, _; repeat split.
Qed.

Lemma flush_same : forall g1 g2 s,
  same_group g1 g2 ->
  well_typed people_keys g1 ->
  ctl_rel eq same_fields
    (TP.flush conf word_to_num g1 s) (TP.flush conf word_to_num g2 s).
Proof.
  intros g1 g2 s Hg T1. unfold TP.flush.
  destruct (update_line_same g1 g2 s Hg T1)
    as (b & s1 & s2 & -> & -> & Hf & Ht).
  destruct b as [[|]|]; cbn; auto.
Qed.

Lemma same_state_intro : forall g1 g2 lf s,
  same_group g1 g2 ->
  well_typed people_keys g1 -> well_typed people_keys g2 ->
  same_state (TP.Loop g1 lf s) (TP.Loop g2 lf s).
Proof. intros. repeat split; assumption. Qed.

Lemma body_same : forall e1 e2 st1 st2,
  same_entity e1 e2 -> same_state st1 st2 ->
  ctl_rel same_state same_fields
    (TP.body conf word_to_num e1 st1) (TP.body conf word_to_num e2 st2).
Proof.
  intros [k v1] [k2 v2] [g1 lf s] [g2 lf2 s2] [Hk Hv] (Hg & El & T1 & T2 & Es).
  cbn [entity_key entity_value TP.line_flag TP.current_group TP.self] in *.
  subst k2 lf2 s2. unfold TP.body. cbn [entity_key entity_value].
  eapply bind_rel with (R := same_state).
  - destruct (PyStr.elem k ["passages"; "line"]) eqn:Ek.
    + eapply bind_rel with (R := same_state).
      * cbn [TP.line_flag TP.current_group TP.self].
        rewrite <- (same_group_has_key g1 g2 k Hg).
        destruct (lf && has_key k g1) eqn:Hc;
          [|now apply same_state_intro].
        eapply bind_rel; [now apply flush_same|].
        intros s1 s2 <-. apply andb_prop in Hc. destruct Hc as [_ Hc].
        pose proof (same_group_last_item g1 g2 Hg) as Hl.
        pose proof (last_item_has_key g1 k Hc) as N1.
        destruct (last_item g1) as [[key1 val1]|] eqn:L1; [|congruence].
        destruct (last_item g2) as [[key2 val2]|] eqn:L2; [|contradiction].
        pose proof Hl as [Hkey Hval]. cbn [fst snd] in Hkey, Hval.
        subst key2. cbn [ctl_rel].
        destruct (String.eqb key1 "negation");
          [|apply same_state_intro; constructor].
        apply same_state_intro.
        -- constructor; [exact Hl|constructor].
        -- repeat constructor.
           exact (last_item_typed people_keys g1 _ T1 L1).
        -- repeat constructor.
           exact (last_item_typed people_keys g2 _ T2 L2).
      * intros [h1 lf1 s1] [h2 lf2 s2] (Hh & El & Y1 & Y2 & Es).
        cbn [TP.line_flag TP.current_group TP.self] in *. subst lf2 s2.
        cbn [ctl_rel].
        rewrite <- (same_group_has_key h1 h2 "negation" Hh).
        apply same_state_intro.
        -- apply same_group_assign.
           ++ destruct (has_key "negation" h1); cbn [negb];
                [now apply same_group_remove|exact Hh].
           ++ split; [reflexivity|]. cbn [fst snd]. split; [reflexivity|].
              exact Hv.
        -- apply assign_typed; [|exact I].
           destruct (has_key "negation" h1); cbn [negb];
             [apply remove_typed|]; assumption.
        -- apply assign_typed; [|exact I].
           destruct (has_key "negation" h1); cbn [negb];
             [apply remove_typed|]; assumption.
    + assert (Ev : v1 = v2).
      { unfold same_text in Hv. rewrite elem_people in Ek.
        apply orb_false_iff in Ek. destruct Ek as [_ Ek].
        now rewrite Ek in Hv. }
      subst v2.
      eapply bind_rel with (R := same_state).
      * cbn [TP.line_flag TP.current_group TP.self].
        destruct (lf && String.eqb k "negation");
          [now apply same_state_intro|].
        eapply bind_rel with (R := same_state).
        -- destruct (lf && negb (String.eqb k "negation"));
             [|now apply same_state_intro].
           eapply bind_rel; [now apply flush_same|].
           intros s1 s2 <-. apply same_state_intro; constructor.
        -- intros [h1 lf1 s1] [h2 lf2 s2] (Hh & El & Y1 & Y2 & Es).
           cbn [TP.line_flag TP.current_group TP.self] in *. subst lf2 s2.
           now apply same_state_intro.
      * intros [h1 lf1 s1] [h2 lf2 s2] (Hh & El & Y1 & Y2 & Es).
        cbn [TP.line_flag TP.current_group TP.self] in *. subst lf2 s2.
        apply same_state_intro.
        -- apply same_group_assign; [exact Hh|]. now split.
        -- apply assign_typed; [assumption|exact Ek].
        -- apply assign_typed; [assumption|exact Ek].
  - intros [h1 lf1 s1] [h2 lf2 s2] (Hh & El & Y1 & Y2 & Es).
    cbn [TP.line_flag TP.current_group TP.self] in *. subst lf2 s2.
    eapply bind_rel with (R := same_state).
    + cbn [TP.line_flag TP.current_group TP.self forallb].
      rewrite <- !(same_group_has_key h1 h2 _ Hh).
      destruct (has_key "passages" h1 && (has_key "line" h1 && true));
        [|now apply same_state_intro].
      eapply bind_rel; [now apply flush_same|].
      intros s1' s2' <-. apply same_state_intro; constructor.
    + intros [j1 lf1' s1'] [j2 lf2 s2'] (Hj & El & Z1 & Z2 & Es).
      cbn [TP.line_flag TP.current_group TP.self] in *. subst lf2 s2'.
      destruct (negb lf1'); [|now apply same_state_intro].
      destruct (String.eqb_spec k "line") as [->|Hline].
      { cbn. now apply same_state_intro. }
      assert (Ev : v1 = v2).
      { unfold same_text in Hv. apply String.eqb_neq in Hline.
        now rewrite Hline in Hv. }
      subst v2.
      destruct (PyStr.contains "clothing" k).
      * unfold TP.update_clothing.
        rewrite <- (same_group_has_key j1 j2 "negation" Hj).
        apply same_state_intro; constructor.
      * destruct (PyStr.contains "gender" k);
          [|now apply same_state_intro].
        unfold TP.update_gender.
        rewrite <- (same_group_has_key j1 j2 "negation" Hj).
        apply same_state_intro; constructor.
Qed.

(** X4. The letter case of a line name does not matter to
    [TrackingPeople.update]: two streams that differ only in the case of
    their line names give the same result and the same fields, and the
    same object when the update succeeds (a failing update may echo the
    name as it was typed); the exception of the parser goes through
    both or through neither. *)
Theorem update_ignores_line_case : forall es1 es2 s,
  Forall2 same_entity es1 es2 ->
  exists b s1 s2,
    TP.update conf word_to_num es1 s = Some (b, s1)
    /\ TP.update conf word_to_num es2 s = Some (b, s2)
    /\ TP.foi s1 = TP.foi s2
    /\ (b = Returns true -> s1 = s2).
Proof.
  intros es1 es2 s Hes.
  assert (H0 : same_state (TP.Loop [] false s) (TP.Loop [] false s))
    by (apply same_state_intro; constructor).
  pose proof (for_each_rel2 _ _ _ _ body_same es1 es2 Hes _ _ H0) as H.
  unfold TP.update, TP.loop.
  destruct (for_each _ es1 _) as [[g1 lf1 s1]|s1|s1|],
    (for_each _ es2 _) as [[g2 lf2 s2]|s2|s2|];
    cbn [ctl_rel TP.conclude] in *; try contradiction.
  - destruct H as (Hg & El & T1 & T2 & Es).
    cbn [TP.line_flag TP.current_group TP.self] in *. subst lf2 s2.
    unfold TP.finish. cbn [TP.current_group TP.self].
    rewrite <- (same_group_nonempty g1 g2 Hg).
    destruct (nonempty g1).
    + now apply update_line_same.
    + exists (Returns true), s1, s1. auto.
  - exists (Returns false), s1, s2. repeat split; [exact H|discriminate].
  - exists Raises, s1, s2. repeat split; [exact H|discriminate].
Qed.
End LetterCase.

Lemma update_ignores_line_case_witness :
  exists b s1 s2,
    TP.update TP.mall_lines no_words
      [negation "not"; line "Beta Line"; passages "twice"]
      (TP.Self TP.initial_foi [])
    = Some (b, s1)
    /\ TP.update TP.mall_lines no_words
         [negation "not"; line "BETA line"; passages "twice"]
         (TP.Self TP.initial_foi [])
       = Some (b, s2)
    /\ TP.foi s1 = TP.foi s2
    /\ (b = Returns true -> s1 = s2).
Proof.
  apply (update_ignores_line_case TP.mall_lines no_words
           [negation "not"; line "Beta Line"; passages "twice"]
           [negation "not"; line "BETA line"; passages "twice"]
           (TP.Self TP.initial_foi [])).
  repeat (apply Forall2_cons || apply Forall2_nil); split; reflexivity.
Defined.

(** * What the counting actions report *)



(** * Exceptions and nan *)

Section ParserException.
Variable conf : TP.lines.
Variable word_to_num : string -> parse number.

(** When the conversion is left by the exception it has uttered
    nothing. *)
Lemma adverb_to_number_raises : forall adverb d,
  fst (Utils.adverb_to_number word_to_num adverb []) = Raises ->
  Utils.adverb_to_number word_to_num adverb d = (Raises, d).
Proof.
  intros adverb d H. rewrite <- (adverb_to_number_fst word_to_num adverb d) in H.
  pose proof (adverb_to_number_says word_to_num adverb d) as [_ Hs].
  destruct (Utils.adverb_to_number word_to_num adverb d) as [r d'].
  cbn [fst snd] in *. subst r. now rewrite Hs by discriminate.
Qed.

(** Outside a line group a quantity opens one that holds the quantity
    and no line name. *)
Lemma body_passages_idle : forall adverb st,
  idle st ->
  exists g neg,
    TP.body conf word_to_num (passages adverb) st
    = Go (TP.Loop g true (TP.self st))
    /\ lookup "passages" g = Some (Paired adverb neg)
    /\ has_key "line" g = false
    /\ has_key "negation" g = false.
Proof.
  intros adverb [g lf s] (Hlf & Hp & Hl).
  cbn [TP.line_flag TP.current_group TP.self] in *. subst lf.
  set (pol := negb (has_key "negation" g)).
  set (g0 := if negb pol then remove "negation" g else g).
  assert (Hl0 : has_key "line" g0 = false).
  { subst g0. destruct (negb pol); [|exact Hl].
    rewrite has_key_remove, Hl. apply andb_false_r. }
  assert (Hn0 : has_key "negation" g0 = false).
  { subst g0 pol. destruct (has_key "negation" g) eqn:E; cbn [negb];
      [|exact E]. now rewrite has_key_remove. }
  exists (assign "passages" (Paired adverb pol) g0), pol.
  split; [|split; [|split]].
  - unfold TP.body. cbn [passages entity_key entity_value].
    cbn [PyStr.elem existsb String.eqb Ascii.eqb Bool.eqb orb andb].
    cbn [TP.line_flag TP.current_group TP.self andb bind].
    fold pol. fold g0. cbn [forallb].
    rewrite !has_key_assign. cbn [String.eqb Ascii.eqb Bool.eqb orb].
    rewrite Hl0. reflexivity.
  - apply lookup_assign_same.
  - rewrite has_key_assign. exact Hl0.
  - rewrite has_key_assign. exact Hn0.
Qed.

(** In a line group that waits for its line name, the line name
    completes the group and the flush converts the quantity. *)
Lemma body_line_completes : forall name adverb neg g s,
  lookup "passages" g = Some (Paired adverb neg) ->
  has_key "line" g = false ->
  fst (Utils.adverb_to_number word_to_num adverb []) = Raises ->
  TP.body conf word_to_num (line name) (TP.Loop g true s) = Raise s.
Proof.
  intros name adverb neg g [f d] Hp Hl Hr. unfold TP.body.
  cbn [line entity_key entity_value].
  cbn [PyStr.elem existsb String.eqb Ascii.eqb Bool.eqb orb andb].
  cbn [TP.line_flag TP.current_group TP.self andb bind].
  rewrite Hl. cbn [andb bind TP.line_flag TP.current_group TP.self].
  set (g0 := if negb (negb (has_key "negation" g))
             then remove "negation" g else g).
  assert (Hp0 : lookup "passages" g0 = Some (Paired adverb neg)).
  { subst g0. destruct (has_key "negation" g); cbn [negb]; [|exact Hp].
    now rewrite lookup_remove_other. }
  cbn [forallb]. rewrite !has_key_assign.
  cbn [String.eqb Ascii.eqb Bool.eqb orb andb].
  rewrite (lookup_has_key _ _ _ Hp0). cbn [andb bind].
  unfold TP.flush, TP.update_line, TP.paired_entry.
  rewrite lookup_assign_other by reflexivity. rewrite Hp0.
  rewrite lookup_assign_same. cbn [TP.said TP.foi].
  rewrite (adverb_to_number_raises adverb d Hr). reflexivity.
Qed.

End ParserException.

(** X23. An exception that the word parser raises on a quantity, other
    than [ValueError], leaves [TrackingPeople.update] at the flush of
    the group of that quantity: what the earlier clauses of the stream
    committed stays committed, the group writes nothing, nothing is
    uttered and the rest of the stream is not read;
    [ActionCountPeople.run] is left by it in the same way. *)
Theorem parser_exception_leaves_update :
  forall conf word_to_num adverb name pre post s st,
  fst (Utils.adverb_to_number word_to_num adverb []) = Raises ->
  TP.loop conf word_to_num pre s = Go st ->
  idle st ->
  TP.update conf word_to_num (pre ++ passages adverb :: line name :: post) s
  = Some (Raises, TP.self st)
  /\ (forall float_str people slots d,
        Actions.count_people_run word_to_num float_str people slots
          (passages adverb :: line name :: post) d
        = Some (Raises, d)).
Proof.
  intros conf w adverb name pre post s st Hr Hpre Hidle.
  assert (H : forall conf0 st0, idle st0 ->
            for_each (TP.body conf0 w) (passages adverb :: line name :: post)
              st0
            = Raise (TP.self st0)).
  { intros conf0 st0 H0.
    destruct (body_passages_idle conf0 w adverb st0 H0)
      as (g & neg & Hbody & Hp & Hl & _).
    cbn [for_each]. rewrite Hbody. cbn [bind].
    rewrite (body_line_completes conf0 w name adverb neg g _ Hp Hl Hr).
    reflexivity. }
  split.
  - rewrite (update_app _ _ _ _ _ _ Hpre). now rewrite H.
  - intros fs people slots d. unfold Actions.count_people_run. cbv zeta.
    unfold TP.update, TP.loop. rewrite H by (repeat split). reflexivity.
Qed.

(** The witness of X23: a gender is committed, then the parser raises
    on "thousand five". *)
Lemma parser_exception_leaves_update_witness :
  TP.update TP.mall_lines brittle
    ([gender "male"]
     ++ passages "thousand five times" :: line "alpha line"
          :: [clothing "hat"])
    (TP.Self TP.initial_foi [])
  = Some (Raises, TP.Self (TP.set_gender (PStr "male") TP.initial_foi) [])
  /\ (forall float_str people slots d,
        Actions.count_people_run brittle float_str people slots
          (passages "thousand five times" :: line "alpha line"
             :: [clothing "hat"]) d
        = Some (Raises, d)).
Proof.
  exact (parser_exception_leaves_update TP.mall_lines brittle
           "thousand five times" "alpha line" [gender "male"]
           [clothing "hat"] (TP.Self TP.initial_foi [])
           (TP.Loop [] false
              (TP.Self (TP.set_gender (PStr "male") TP.initial_foi) []))
           eq_refl eq_refl (conj eq_refl (conj eq_refl eq_refl))).
Defined.

(** X24. A mark that [int] rejects and [float] reads as nan is accepted
    without a message: [TrackingGroups.update] returns true with a nan
    as the bound of the score, and that bound is met by no group in
    either direction, so [ActionCountGroups.run] reports no group
    whatever the ranking holds. *)
Theorem nan_mark_is_accepted :
  forall word_to_num py_int py_float float_str word groups slots d,
  py_int word = None ->
  py_float word = Some NaN ->
  (forall s,
     TG.update word_to_num py_int py_float [mark word] s
     = Some (Returns true,
             TG.Self (TG.Foi (threshold (NFloat NaN) true)) (TG.said s)))
  /\ TG.filteringJSON groups (TG.Foi (threshold (NFloat NaN) true)) = Some []
  /\ TG.filteringJSON groups (TG.Foi (threshold (NFloat NaN) false))
     = Some []
  /\ exists text,
       TG.str float_str (TG.Foi (threshold (NFloat NaN) true)) 0 = Some text
       /\ Actions.count_groups_run word_to_num py_int py_float float_str
            groups slots [mark word] d
          = Some (Returns
                    [Actions.SlotSet "score"
                       (Actions.Scalar (threshold (NFloat NaN) true))],
                  d ++ [text]).
Proof.
  intros w pi pf fs word groups slots d Hi Hf.
  assert (Hu : forall s,
            TG.update w pi pf [mark word] s
            = Some (Returns true,
                    TG.Self (TG.Foi (threshold (NFloat NaN) true))
                      (TG.said s))).
  { intros [f0 d0]. unfold TG.update, TG.loop. cbn [for_each].
    rewrite body_mark by reflexivity. cbn [TG.said].
    unfold Utils.word_to_number. rewrite Hi, Hf. reflexivity. }
  destruct (nan_bound_matches_no_group groups) as [Ha Hb].
  split; [exact Hu|]. split; [exact Ha|]. split; [exact Hb|].
  eexists. split; [reflexivity|].
  unfold Actions.count_groups_run. cbv zeta. rewrite Hu.
  cbn [TG.foi TG.said]. rewrite Ha. reflexivity.
Qed.

(** The witness of X24: the mark "nan". *)
Lemma nan_mark_is_accepted_witness :
  (forall s,
     TG.update no_words (fun _ => None)
       (fun text => if String.eqb text "nan" then Some NaN else None)
       [mark "nan"] s
     = Some (Returns true,
             TG.Self (TG.Foi (threshold (NFloat NaN) true)) (TG.said s)))
  /\ TG.filteringJSON
       [TG.Group (NInt 1) "first" ["Ada"; "Bob"] (NInt 9);
        TG.Group (NInt 2) "second" ["Cy"] (NInt 4)]
       (TG.Foi (threshold (NFloat NaN) true)) = Some []
  /\ TG.filteringJSON
       [TG.Group (NInt 1) "first" ["Ada"; "Bob"] (NInt 9);
        TG.Group (NInt 2) "second" ["Cy"] (NInt 4)]
       (TG.Foi (threshold (NFloat NaN) false)) = Some []
  /\ exists text,
       TG.str no_floats (TG.Foi (threshold (NFloat NaN) true)) 0 = Some text
       /\ Actions.count_groups_run no_words (fun _ => None)
            (fun text => if String.eqb text "nan" then Some NaN else None)
            no_floats
            [TG.Group (NInt 1) "first" ["Ada"; "Bob"] (NInt 9);
             TG.Group (NInt 2) "second" ["Cy"] (NInt 4)]
            [] [mark "nan"] []
          = Some (Returns
                    [Actions.SlotSet "score"
                       (Actions.Scalar (threshold (NFloat NaN) true))],
                  [] ++ [text]).
Proof.
  exact (nan_mark_is_accepted no_words (fun _ => None)
           (fun text => if String.eqb text "nan" then Some NaN else None)
           no_floats "nan"
           [TG.Group (NInt 1) "first" ["Ada"; "Bob"] (NInt 9);
            TG.Group (NInt 2) "second" ["Cy"] (NInt 4)]
           [] [] eq_refl eq_refl).
Defined.
